(** * crypto-price-tracker: the normalize / rank / summarize pipeline

    A shallow embedding of [utils/processor.py] and [utils/analyzer.py].

    The Python code works on dictionaries that it updates in place and
    shares between lists, so the embedding keeps an explicit heap of
    dictionaries: a list of records is a list of references, and every
    function of the source is a computation in a state-and-exception
    monad over that heap.

    Numbers.  A Python [int] is a [Z].  A Python [float] is the rational
    it denotes, or NaN, with which every comparison is false.  The
    infinite floats are left out: they are ordered like any other number,
    and the only infinity of the source, the sentinel [float('inf')] of
    the sort key, has a constructor of its own in the key type.
    [float()] of an [int] rounds to 53 bits and overflows as in CPython;
    a division and the reading of a text are exact, without rounding.
    Strings are byte strings, upper-casing acts on the ASCII letters. *)

From Stdlib Require Import ZArith QArith Lqa String Ascii List Permutation Sorted Lia.
From stdpp Require Import base option list gmap strings sorting.

Local Open Scope Z_scope.
Local Open Scope string_scope.
Local Open Scope list_scope.

(** ** Values, dictionaries, heap *)

Abbreviation loc := nat.

(** A float: a rational, or NaN. *)
Inductive float :=
  | Fin (q : Q)
  | NaN.
Bind Scope Q_scope with float.
Coercion Fin : Q >-> float.

Inductive val :=
  | VNone
  | VBool (b : bool)
  | VInt (n : Z)
  | VFloat (f : float)
  | VStr (s : string)
  | VRef (l : loc).

(** The heap holds the dictionaries; a reference is an index into it.
    Objects are never freed, allocation appends. *)
Abbreviation heap := (list (gmap string val)).

(** The exceptions the modelled code can raise.  [Dangling] is not a
    Python exception: it marks a reference that points outside the heap,
    which cannot happen in Python and is excluded by the theorems. *)
Inductive exn :=
  | KeyError (key : string)
  | TypeError
  | ValueError (text : string)
  | OverflowError
  | AttributeError
  | ZeroDivisionError
  | Dangling.

Inductive result (A : Type) :=
  | Ok (a : A)
  | Raise (e : exn).
Arguments Ok {A} a.
Arguments Raise {A} e.

(** A computation returns a value or raises, and in both cases leaves a
    heap behind: what was written before an exception stays written. *)
Definition M (A : Type) : Type := heap -> result A * heap.

Definition ret {A} (a : A) : M A := fun h => (Ok a, h).

Definition raise {A} (e : exn) : M A := fun h => (Raise e, h).

Definition bind {A B} (m : M A) (k : A -> M B) : M B :=
  fun h => match m h with
           | (Ok a, h') => k a h'
           | (Raise e, h') => (Raise e, h')
           end.

Definition lift {A} (r : result A) : M A := fun h => (r, h).

Definition rbind {A B} (r : result A) (k : A -> result B) : result B :=
  match r with
  | Ok a => k a
  | Raise e => Raise e
  end.

Declare Scope py_scope.
Delimit Scope py_scope with py.
Notation "x <- m ;; k" := (bind m (fun x => k))
  (at level 20, m at level 99, k at level 200, only parsing) : py_scope.
Notation "m ;; k" := (bind m (fun _ => k))
  (at level 100, k at level 200, only parsing) : py_scope.
Local Open Scope py_scope.

(** ** Python primitives *)

(** [c[k]] *)
Definition getitem (c : loc) (k : string) : M val :=
  fun h => match h !! c with
           | Some d => match d !! k with
                       | Some v => (Ok v, h)
                       | None => (Raise (KeyError k), h)
                       end
           | None => (Raise Dangling, h)
           end.

(** [c.get(k, dflt)] *)
Definition dict_get (c : loc) (k : string) (dflt : val) : M val :=
  fun h => match h !! c with
           | Some d => (Ok (default dflt (d !! k)), h)
           | None => (Raise Dangling, h)
           end.

(** [c[k] = v] *)
Definition setitem (c : loc) (k : string) (v : val) : M unit :=
  fun h => match h !! c with
           | Some _ => (Ok tt, alter (insert k v) c h)
           | None => (Raise Dangling, h)
           end.

(** A dictionary display [{...}] allocates a new object. *)
Definition new_dict (d : gmap string val) : M loc :=
  fun h => (Ok (List.length h), h ++ [d]).

(** The number a numeric value denotes, NaN included; [bool] is a
    subtype of [int], and an [int] stands for itself: Python compares an
    [int] with a [float] without rounding it. *)
Definition num (v : val) : option float :=
  match v with
  | VBool b => Some (Fin (if b then 1 else 0))
  | VInt n => Some (Fin (inject_Z n))
  | VFloat f => Some f
  | _ => None
  end.

Definition Qltb (x y : Q) : bool := negb (Qle_bool y x).

(** [<] and [==] on numbers: with NaN on either side both are false. *)
Definition flt (x y : float) : bool :=
  match x, y with
  | Fin a, Fin b => Qltb a b
  | _, _ => false
  end.

Definition feq (x y : float) : bool :=
  match x, y with
  | Fin a, Fin b => Qeq_bool a b
  | _, _ => false
  end.

(** Truth value of an object, as tested by [if v] and [v if c else w]. *)
Definition truthy (v : val) : M bool :=
  fun h => match v with
           | VNone => (Ok false, h)
           | VBool b => (Ok b, h)
           | VInt n => (Ok (negb (Z.eqb n 0)), h)
           | VFloat f => (Ok (negb (feq f 0)), h)
           | VStr s => (Ok (negb (String.eqb s "")), h)
           | VRef l => match h !! l with
                       | Some d => (Ok (negb (bool_decide (d = ∅))), h)
                       | None => (Raise Dangling, h)
                       end
           end.

(** [a < b]: numbers compare by value, strings by code points, anything
    else is a [TypeError]. *)
Definition py_lt (a b : val) : result bool :=
  match num a, num b with
  | Some x, Some y => Ok (flt x y)
  | _, _ => match a, b with
            | VStr s, VStr t => Ok (String.ltb s t)
            | _, _ => Raise TypeError
            end
  end.

(** [a > b] *)
Definition py_gt (a b : val) : result bool := py_lt b a.

(** [a == n] for an integer literal [n]; equality never raises. *)
Definition py_eq_int (a : val) (n : Z) : bool :=
  match num a with
  | Some x => feq x (inject_Z n)
  | None => false
  end.

(** [float(n)] for an [int]: the nearest number with a mantissa of 53
    bits, a tie going to the even mantissa, and [OverflowError] when that
    number is [2^1024] or more. *)
Definition float_of_int (n : Z) : result Q :=
  let a := Z.abs n in
  let k := Z.log2 a + 1 - 53 in
  if Z.leb k 0 then Ok (inject_Z n)
  else
    let q := Z.shiftr a k in
    let r := Z.land a (Z.ones k) in
    let half := Z.shiftl 1 (k - 1) in
    let up := (Z.ltb half r || (Z.eqb r half && Z.odd q))%bool in
    let m := Z.shiftl (if up then q + 1 else q) k in
    if Z.leb (Z.shiftl 1 1024) m then Raise OverflowError
    else Ok (inject_Z (Z.sgn n * m)).

(** [float(v)].  The conversion of a string is a parameter: [None]
    stands for the [ValueError] of an unparseable text, and the text
    ["nan"] gives NaN. *)
Definition py_float (float_of_str : string -> option float) (v : val)
  : result float :=
  match v with
  | VBool b => Ok (Fin (if b then 1 else 0))
  | VInt n => rbind (float_of_int n) (fun q => Ok (Fin q))
  | VFloat f => Ok f
  | VStr s => match float_of_str s with
              | Some f => Ok f
              | None => Raise (ValueError s)
              end
  | VNone | VRef _ => Raise TypeError
  end.

Definition upper_ascii (c : ascii) : ascii :=
  let n := nat_of_ascii c in
  if ((97 <=? n)%nat && (n <=? 122)%nat)%bool then ascii_of_nat (n - 32) else c.

Fixpoint upper (s : string) : string :=
  match s with
  | EmptyString => EmptyString
  | String c s' => String (upper_ascii c) (upper s')
  end.

(** [v.upper()] *)
Definition str_upper (v : val) : result val :=
  match v with
  | VStr s => Ok (VStr (upper s))
  | _ => Raise AttributeError
  end.

(** [a / b] on two integers (true division). *)
Definition truediv_int (a b : Z) : result Q :=
  if Z.eqb b 0 then Raise ZeroDivisionError else Ok (inject_Z a / inject_Z b)%Q.

(** ** Loops and list operations *)

Fixpoint forM_ {A} (l : list A) (body : A -> M unit) : M unit :=
  match l with
  | [] => ret tt
  | x :: l' => body x ;; forM_ l' body
  end.

Fixpoint mapM {A B} (f : A -> M B) (l : list A) : M (list B) :=
  match l with
  | [] => ret []
  | x :: l' => y <- f x ;; ys <- mapM f l' ;; ret (y :: ys)
  end.

(** The comprehension [[c for c in l if p(c)]]. *)
Fixpoint filterM {A} (p : A -> M bool) (l : list A) : M (list A) :=
  match l with
  | [] => ret []
  | x :: l' => b <- p x ;; ys <- filterM p l' ;; ret (if b then x :: ys else ys)
  end.

(** [enumerate(l, start)] *)
Fixpoint enumerate {A} (start : Z) (l : list A) : list (Z * A) :=
  match l with
  | [] => []
  | x :: l' => (start, x) :: enumerate (start + 1) l'
  end.

(** [l[:limit]]; a negative bound counts from the end. *)
Definition slice_to {A} (limit : Z) (l : list A) : list A :=
  if Z.ltb limit 0
  then firstn (Z.to_nat (Z.max 0 (Z.of_nat (List.length l) + limit))) l
  else firstn (Z.to_nat limit) l.

(** Sorting.  [list.sort] and [sorted] are stable and use only [<] on the
    keys, which are computed once, before any comparison.  The embedding
    is a stable insertion sort with the same two properties.  Where [<]
    does not order the keys, with a NaN among them, the order that
    CPython's merge sort leaves depends on the runs it finds: the
    theorems sort keys that [<] orders, or show that the sort raises. *)
Fixpoint insert_by {A} (lt : A -> A -> result bool) (x : A) (l : list A)
  : result (list A) :=
  match l with
  | [] => Ok [x]
  | y :: l' =>
      rbind (lt y x) (fun b =>
        if b then rbind (insert_by lt x l') (fun r => Ok (y :: r))
        else Ok (x :: y :: l'))
  end.

Fixpoint isort_by {A} (lt : A -> A -> result bool) (l : list A)
  : result (list A) :=
  match l with
  | [] => Ok []
  | x :: l' => rbind (isort_by lt l') (insert_by lt x)
  end.

(** [sorted(l, key=key, reverse=reverse)].  With [reverse] the list is
    reversed before and after the sort, which keeps equal keys in their
    original order. *)
Definition py_sorted {A K} (key : A -> M K) (lt : K -> K -> result bool)
    (reverse : bool) (l : list A) : M (list A) :=
  keys <- mapM key l ;;
  let kl := combine keys l in
  let kl := if reverse then rev kl else kl in
  s <- lift (isort_by (fun a b => lt (fst a) (fst b)) kl) ;;
  let s := if reverse then rev s else s in
  ret (map snd s).

(** [max(l, key=key)] and [min(l, key=key)] on a non-empty list: one scan
    that replaces the candidate only on a strict improvement. *)
Fixpoint scan_best {A} (key : A -> M val) (better : val -> val -> result bool)
    (best : A) (kbest : val) (l : list A) : M A :=
  match l with
  | [] => ret best
  | x :: l' =>
      kx <- key x ;;
      b <- lift (better kx kbest) ;;
      if (b : bool) then scan_best key better x kx l'
      else scan_best key better best kbest l'
  end.

Definition py_max {A} (key : A -> M val) (l : list A) : M A :=
  match l with
  | [] => raise (ValueError "max() arg is an empty sequence")
  | x :: l' => kx <- key x ;; scan_best key py_gt x kx l'
  end.

Definition py_min {A} (key : A -> M val) (l : list A) : M A :=
  match l with
  | [] => raise (ValueError "min() arg is an empty sequence")
  | x :: l' => kx <- key x ;; scan_best key py_lt x kx l'
  end.

(** ** utils/processor.py *)

(** The body of the loop of [add_enhanced_columns] for one record. *)
Definition enhance_coin (float_of_str : string -> option float)
    (today : string) (coin : loc) : M unit :=
  price_change <- dict_get coin "price_change_percentage_24h" VNone ;;
  setitem coin "date" (VStr today) ;;
  t <- truthy price_change ;;
  f <- (if (t : bool) then lift (py_float float_of_str price_change)
        else ret (Fin 0)) ;;
  setitem coin "price_change_24h" (VFloat f) ;;
  pc <- getitem coin "price_change_24h" ;;
  up <- lift (py_gt pc (VInt 0)) ;;
  setitem coin "change_symbol" (VStr (if (up : bool) then "UP" else "DOWN")).

(** [add_enhanced_columns].  [today] is the formatted reading of the
    clock, taken once before the loop.  The records are updated in place
    and the input list is returned. *)
Definition add_enhanced_columns (float_of_str : string -> option float)
    (today : string) (data : list loc) : M (list loc) :=
  forM_ data (enhance_coin float_of_str today) ;;
  ret data.

(** The dictionary display of [process_crypto_data], with its thirteen
    keys. *)
Definition normalized_record
    (v_id v_rank v_name v_symbol v_price v_change v_chsym v_cap v_vol v_ath
     v_image v_date v_upd : val) : gmap string val :=
  <["id" := v_id]> (<["rank" := v_rank]> (<["name" := v_name]>
  (<["symbol" := v_symbol]> (<["current_price" := v_price]>
  (<["price_change_24h" := v_change]> (<["change_symbol" := v_chsym]>
  (<["market_cap" := v_cap]> (<["volume_24h" := v_vol]>
  (<["ath" := v_ath]> (<["image" := v_image]> (<["date" := v_date]>
  (<["last_updated" := v_upd]> ∅)))))))))))).

(** The projection of one record in the loop of [process_crypto_data]:
    the values are read in the order of the display, and only [.upper()]
    can raise. *)
Definition project_coin (coin : loc) : M loc :=
  v_id <- dict_get coin "id" (VStr "") ;;
  v_rank <- dict_get coin "market_cap_rank" VNone ;;
  v_name <- dict_get coin "name" (VStr "") ;;
  v_sym <- dict_get coin "symbol" (VStr "") ;;
  v_symbol <- lift (str_upper v_sym) ;;
  v_price <- dict_get coin "current_price" VNone ;;
  v_change <- dict_get coin "price_change_24h" (VInt 0) ;;
  v_chsym <- dict_get coin "change_symbol" (VStr "DOWN") ;;
  v_cap <- dict_get coin "market_cap" VNone ;;
  v_vol <- dict_get coin "total_volume" VNone ;;
  v_ath <- dict_get coin "ath" VNone ;;
  v_image <- dict_get coin "image" (VStr "") ;;
  v_date <- dict_get coin "date" (VStr "") ;;
  v_upd <- dict_get coin "last_updated" (VStr "") ;;
  new_dict (normalized_record v_id v_rank v_name v_symbol v_price v_change
              v_chsym v_cap v_vol v_ath v_image v_date v_upd).

(** The keys of the rank sort: a value, or the sentinel [float('inf')]. *)
Inductive sort_key :=
  | KVal (v : val)
  | KInf.

(** [<] on sort keys; the sentinel is a float, above every number, in no
    order with NaN and not comparable with a string. *)
Definition lt_key (a b : sort_key) : result bool :=
  match a, b with
  | KVal x, KVal y => py_lt x y
  | KVal x, KInf => match num x with
                    | Some (Fin _) => Ok true
                    | Some NaN => Ok false
                    | None => Raise TypeError
                    end
  | KInf, KVal y => match num y with Some _ => Ok false | None => Raise TypeError end
  | KInf, KInf => Ok false
  end.

(** [lambda x: x['rank'] if x['rank'] else float('inf')] *)
Definition rank_key (x : loc) : M sort_key :=
  r <- getitem x "rank" ;;
  t <- truthy r ;;
  if (t : bool) then (r' <- getitem x "rank" ;; ret (KVal r')) else ret KInf.

(** [process_crypto_data] *)
Definition process_crypto_data (data : list loc) : M (list loc) :=
  processed <- mapM project_coin data ;;
  processed <- py_sorted rank_key lt_key false processed ;;
  forM_ (enumerate 1 processed) (fun ic => setitem (snd ic) "number" (VInt (fst ic))) ;;
  ret processed.

(** ** utils/analyzer.py *)

Definition change_key (x : loc) : M val := getitem x "price_change_24h".

(** [get_top_gainers] *)
Definition get_top_gainers (data : list loc) (limit : Z) : M (list loc) :=
  gainers <- filterM (fun c => v <- change_key c ;; lift (py_gt v (VInt 0))) data ;;
  sorted <- py_sorted change_key py_lt true gainers ;;
  let top := slice_to limit sorted in
  forM_ (enumerate 1 top) (fun ic => setitem (snd ic) "gainer_rank" (VInt (fst ic))) ;;
  ret top.

(** [get_top_losers] *)
Definition get_top_losers (data : list loc) (limit : Z) : M (list loc) :=
  losers <- filterM (fun c => v <- change_key c ;; lift (py_lt v (VInt 0))) data ;;
  sorted <- py_sorted change_key py_lt false losers ;;
  let top := slice_to limit sorted in
  forM_ (enumerate 1 top) (fun ic => setitem (snd ic) "loser_rank" (VInt (fst ic))) ;;
  ret top.

(** [generate_market_summary].  The summary is a fresh dictionary that no
    list shares; it is returned by value. *)
Definition generate_market_summary (data : list loc) : M (gmap string val) :=
  match data with
  | [] => ret ∅
  | _ :: _ =>
      let total := Z.of_nat (List.length data) in
      gainers <- filterM (fun c => v <- change_key c ;; lift (py_gt v (VInt 0))) data ;;
      losers <- filterM (fun c => v <- change_key c ;; lift (py_lt v (VInt 0))) data ;;
      neutral <- filterM (fun c => v <- change_key c ;; ret (py_eq_int v 0)) data ;;
      top_gainer <- py_max change_key data ;;
      top_loser <- py_min change_key data ;;
      let n_gainers := Z.of_nat (List.length gainers) in
      let n_losers := Z.of_nat (List.length losers) in
      gq <- lift (truediv_int n_gainers total) ;;
      lq <- lift (truediv_int n_losers total) ;;
      ret (<["total_coins" := VInt total]>
          (<["gainers_count" := VInt n_gainers]>
          (<["losers_count" := VInt n_losers]>
          (<["neutral_count" := VInt (Z.of_nat (List.length neutral))]>
          (<["gainers_percentage" := VFloat (gq * 100)]>
          (<["losers_percentage" := VFloat (lq * 100)]>
          (<["top_gainer" := VRef top_gainer]>
          (<["top_loser" := VRef top_loser]> ∅))))))))
  end.

(** ** A parser for plain decimal literals

    The concrete instance of the [float_of_str] parameter used by the
    examples reads optional blanks, an optional sign, and then either
    digits with an optional fraction or the word [nan] in any case.  On
    such texts it agrees with [float()] up to rounding; the other texts
    [float()] accepts (exponents, underscores, infinities) are not among
    the examples. *)

Definition is_space (c : ascii) : bool :=
  let n := nat_of_ascii c in
  ((n =? 32)%nat || ((9 <=? n)%nat && (n <=? 13)%nat))%bool.

Fixpoint lstrip (s : string) : string :=
  match s with
  | String c s' => if is_space c then lstrip s' else s
  | EmptyString => s
  end.

Definition digit_of (c : ascii) : option Z :=
  let n := Z.of_nat (nat_of_ascii c) in
  if (Z.leb 48 n && Z.leb n 57)%bool then Some (n - 48) else None.

Fixpoint read_digits (acc : Z) (cnt : nat) (s : string) : Z * nat * string :=
  match s with
  | String c s' =>
      match digit_of c with
      | Some d => read_digits (10 * acc + d) (S cnt) s'
      | None => (acc, cnt, s)
      end
  | EmptyString => (acc, cnt, s)
  end.

Definition decimal_literal (s : string) : option Q :=
  let s := lstrip s in
  let '(neg, s) := match s with
                   | String "-" s' => (true, s')
                   | String "+" s' => (false, s')
                   | _ => (false, s)
                   end in
  let '(ip, ni, s) := read_digits 0 0 s in
  let '(fp, nf, s) := match s with
                      | String "." s' => read_digits ip 0 s'
                      | _ => (ip, 0%nat, s)
                      end in
  if (ni + nf =? 0)%nat then None
  else if negb (String.eqb (lstrip s) "") then None
  else Some (Qmake (if (neg : bool) then - fp else fp) (Z.to_pos (10 ^ Z.of_nat nf))).

Definition float_literal (s : string) : option float :=
  let t := lstrip s in
  let t := match t with
           | String "-" t' => t'
           | String "+" t' => t'
           | _ => t
           end in
  match t with
  | String a (String b (String c rest)) =>
      if (String.eqb (upper (String a (String b (String c "")))) "NAN"
          && String.eqb (lstrip rest) "")%bool
      then Some NaN
      else option_map Fin (decimal_literal s)
  | _ => option_map Fin (decimal_literal s)
  end.

(** ** Pure counterparts used in the statements *)

(** The insertion sort of [isort_by] for a comparison that cannot raise. *)
Fixpoint insert_b {A} (ltb : A -> A -> bool) (x : A) (l : list A) : list A :=
  match l with
  | [] => [x]
  | y :: l' => if ltb y x then y :: insert_b ltb x l' else x :: y :: l'
  end.

Fixpoint isort_b {A} (ltb : A -> A -> bool) (l : list A) : list A :=
  match l with
  | [] => []
  | x :: l' => insert_b ltb x (isort_b ltb l')
  end.

(** [a] may stand before [b] in a list sorted by [ltb]. *)
Definition before {A} (ltb : A -> A -> bool) (a b : A) : Prop := ltb b a = false.

(** [sorted] for a comparison that cannot raise. *)
Definition sorted_b {A} (ltb : A -> A -> bool) (reverse : bool) (l : list A)
  : list A :=
  if reverse then rev (isort_b ltb (rev l)) else isort_b ltb l.

(** Truth value of a value that is not a reference. *)
Definition truth (v : val) : bool :=
  match v with
  | VNone => false
  | VBool b => b
  | VInt n => negb (Z.eqb n 0)
  | VFloat f => negb (feq f 0)
  | VStr s => negb (String.eqb s "")
  | VRef _ => true
  end.

(** The rational of a number that is not NaN. *)
Definition rat (v : val) : option Q :=
  match num v with
  | Some (Fin q) => Some q
  | _ => None
  end.

(** The field [k] of the record at [c], [None] when either is missing. *)
Definition field (h : heap) (c : loc) (k : string) : option val :=
  match h !! c with
  | Some d => d !! k
  | None => None
  end.

(** The 24h change of the record at [c], as stored and as a number. *)
Definition change_val (h : heap) (c : loc) : val :=
  default VNone (field h c "price_change_24h").

Definition change_of (h : heap) (c : loc) : option float := num (change_val h c).

(** The change as a rational.  A NaN change reads as 0: like 0 it is
    neither above nor below zero, which is all the Ranker asks. *)
Definition chg (h : heap) (c : loc) : Q := default 0%Q (rat (change_val h c)).

(** The change as the code compares it: a number, NaN included. *)
Definition fchg (h : heap) (c : loc) : float := default NaN (change_of h c).

(** Every record of [data] is in the heap with a numeric 24h change,
    which may be NaN. *)
Definition numeric_changes (h : heap) (data : list loc) : Prop :=
  Forall (fun c => is_Some (change_of h c)) data.

(** Every record of [data] is in the heap with a 24h change that is a
    number and not NaN: [<] orders such changes. *)
Definition ordered_changes (h : heap) (data : list loc) : Prop :=
  Forall (fun c => is_Some (rat (change_val h c))) data.

(** The heap after [for i, coin in enumerate(l, start): coin[k] = i]. *)
Fixpoint set_ranks (k : string) (start : Z) (l : list loc) (h : heap) : heap :=
  match l with
  | [] => h
  | c :: l' => set_ranks k (start + 1) l' (alter (insert k (VInt start)) c h)
  end.

(** The key that [rank_key] computes from the value of the rank. *)
Definition rank_sort_key (r : val) : sort_key :=
  if truth r then KVal r else KInf.

(** A sort key as an extended number: [None] is the sentinel.  It is
    read on the ranks of the data model, null or an integer. *)
Definition key_num (k : sort_key) : option Q :=
  match k with
  | KVal v => rat v
  | KInf => None
  end.

Definition rank_num (v : val) : option Q := key_num (rank_sort_key v).

Definition xltb (a b : option Q) : bool :=
  match a, b with
  | Some x, Some y => Qltb x y
  | Some _, None => true
  | None, _ => false
  end.

(** The rank of the data model: null or an integer. *)
Definition is_rank (v : val) : Prop :=
  match v with
  | VNone | VInt _ => True
  | _ => False
  end.

(** The projection of [project_coin] on the content of a record. *)
Definition project_dict (d : gmap string val) : result (gmap string val) :=
  rbind (str_upper (default (VStr "") (d !! "symbol"))) (fun v_symbol =>
  Ok (normalized_record
        (default (VStr "") (d !! "id"))
        (default VNone (d !! "market_cap_rank"))
        (default (VStr "") (d !! "name"))
        v_symbol
        (default VNone (d !! "current_price"))
        (default (VInt 0) (d !! "price_change_24h"))
        (default (VStr "DOWN") (d !! "change_symbol"))
        (default VNone (d !! "market_cap"))
        (default VNone (d !! "total_volume"))
        (default VNone (d !! "ath"))
        (default (VStr "") (d !! "image"))
        (default (VStr "") (d !! "date"))
        (default (VStr "") (d !! "last_updated")))).

Definition projected (d : gmap string val) : gmap string val :=
  match project_dict d with
  | Ok pd => pd
  | Raise _ => ∅
  end.

(** The sort key of a projected record as an extended number. *)
Definition rank_of (d : gmap string val) : option Q :=
  rank_num (default VNone (d !! "rank")).

(** The numbering loop on the content of the records. *)
Fixpoint number_from (start : Z) (ds : list (gmap string val))
  : list (gmap string val) :=
  match ds with
  | [] => []
  | d :: ds' => <["number" := VInt start]> d :: number_from (start + 1) ds'
  end.

(** The Normalizer on the content of the records: projection, stable
    sort on the rank key, numbering. *)
Definition normalize (ds : list (gmap string val)) : list (gmap string val) :=
  number_from 1
    (isort_b (fun a b => xltb (rank_of a) (rank_of b)) (map projected ds)).

(** Modelled from the spec: the re-projection of a normalized record
    "through the same field mapping", for which the repository has no
    function.  The two fields the Normalizer renames get their source
    names back, every other field keeps its name. *)
Definition reproject (d : gmap string val) : gmap string val :=
  <["market_cap_rank" := default VNone (d !! "rank")]>
    (<["total_volume" := default VNone (d !! "volume_24h")]>
       (delete "rank" (delete "volume_24h" d))).

(** The content of the records behind a list of references. *)
Definition contents (h : heap) (l : list loc) : list (gmap string val) :=
  map (fun c => default ∅ (h !! c)) l.

(** A projected record whose rank is null or an integer. *)
Definition ranked (h : heap) (x : loc) : Prop :=
  exists d r, h !! x = Some d /\ d !! "rank" = Some r /\ is_rank r.

(** A record the Normalizer accepts: in the heap, with a rank that is
    null, absent or an integer and a symbol that is absent or a string. *)
Definition normalizable (h : heap) (c : loc) : Prop :=
  exists d, h !! c = Some d /\
    is_rank (default VNone (d !! "market_cap_rank")) /\
    (exists s, default (VStr "") (d !! "symbol") = VStr s).

(** The qualifying records of the Ranker in the order of the sort,
    before truncation. *)
Definition gainers_sorted (h : heap) (data : list loc) : list loc :=
  sorted_b (fun a b => Qltb (chg h a) (chg h b)) true
    (List.filter (fun c => Qltb 0 (chg h c)) data).

Definition losers_sorted (h : heap) (data : list loc) : list loc :=
  sorted_b (fun a b => Qltb (chg h a) (chg h b)) false
    (List.filter (fun c => Qltb (chg h c) 0) data).

(** What the Ranker promises of a subset [top] and of the heap [h'] it
    leaves: [top] is the first [limit] elements of a list [all] that holds
    exactly the [wanted] records of [data], sorted by [ord] on the 24h
    change with equal changes in their order in [data], and the record at
    position [i] of [top] carries [i + 1] under [rank_field]. *)
Definition ranked_subset (h : heap) (data : list loc) (wanted : Q -> bool)
    (ord : Q -> Q -> Prop) (limit : Z) (rank_field : string)
    (top : list loc) (h' : heap) : Prop :=
  exists all : list loc,
    Permutation all (List.filter (fun c => wanted (chg h c)) data) /\
    StronglySorted (fun a b => ord (chg h a) (chg h b)) all /\
    (forall q, List.filter (fun c => Qeq_bool (chg h c) q) all =
               List.filter (fun c => Qeq_bool (chg h c) q)
                 (List.filter (fun c => wanted (chg h c)) data)) /\
    top = firstn (Z.to_nat limit) all /\
    (List.length top <= Z.to_nat limit)%nat /\
    (List.length all <= Z.to_nat limit -> top = all)%nat /\
    (forall i c, top !! i = Some c ->
                 field h' c rank_field = Some (VInt (Z.of_nat i + 1))).

(** The scan of [scan_best] on keys whose comparison cannot raise. *)
Fixpoint scan_b {A K} (key : A -> K) (better : K -> K -> bool) (best : A)
    (l : list A) : A :=
  match l with
  | [] => best
  | x :: l' =>
      if better (key x) (key best) then scan_b key better x l'
      else scan_b key better best l'
  end.

(** [r] is the first element of [l] that is extreme for [worse]: every
    element before it is strictly worse, none after it is better. *)
Definition first_extreme (h : heap) (worse : Q -> Q -> Prop)
    (l : list loc) (r : loc) : Prop :=
  exists pre post,
    l = pre ++ r :: post /\
    Forall (fun x => worse (chg h x) (chg h r)) pre /\
    Forall (fun x => ~ worse (chg h r) (chg h x)) post.

(** [coin.get('price_change_percentage_24h')]: [VNone] when the field is
    null and when it is absent. *)
Definition percentage (h : heap) (c : loc) : val :=
  default VNone (field h c "price_change_percentage_24h").

(** [float(price_change) if price_change else 0.0] on a value that is
    not a reference. *)
Definition enhance_change (float_of_str : string -> option float) (v : val)
  : result float :=
  if truth v then py_float float_of_str v else Ok (Fin 0).

(** The three assignments of the loop body of [add_enhanced_columns]. *)
Definition enhance_dict (today : string) (f : float) (d : gmap string val)
  : gmap string val :=
  <["change_symbol" := VStr (if flt 0 f then "UP" else "DOWN")]>
    (<["price_change_24h" := VFloat f]> (<["date" := VStr today]> d)).

(** A float above zero, which NaN is not. *)
Definition above_zero (f : float) : Prop :=
  match f with
  | Fin q => (0 < q)%Q
  | NaN => False
  end.


(** A record whose loop body runs to its end. *)
Definition enhanceable (float_of_str : string -> option float) (h : heap)
    (c : loc) : Prop :=
  is_Some (h !! c) /\
  (forall l, percentage h c <> VRef l) /\
  exists f, enhance_change float_of_str (percentage h c) = Ok f.


(** ** The scenario of the specification

    Three raw records: btc (rank 1, +5.2), eth (rank 2, null change) and
    xrp (null rank, -3.1). *)
Definition raw_btc : gmap string val :=
  <["id" := VStr "btc"]> (<["market_cap_rank" := VInt 1]>
  (<["price_change_percentage_24h" := VFloat (52 # 10)]> ∅)).

Definition raw_eth : gmap string val :=
  <["id" := VStr "eth"]> (<["market_cap_rank" := VInt 2]>
  (<["price_change_percentage_24h" := VNone]> ∅)).

Definition raw_xrp : gmap string val :=
  <["id" := VStr "xrp"]> (<["market_cap_rank" := VNone]>
  (<["price_change_percentage_24h" := VFloat (- 31 # 10)]> ∅)).

Definition scenario_heap : heap := [raw_btc; raw_eth; raw_xrp].

(** Two records, the first with rank 0, the second with rank 1. *)
Definition zero_rank_heap : heap :=
  [<["id" := VStr "zero"]> (<["market_cap_rank" := VInt 0]> ∅);
   <["id" := VStr "one"]> (<["market_cap_rank" := VInt 1]> ∅)].

(** A record whose percentage is a text that is not a number. *)
Definition raw_doge : gmap string val :=
  <["id" := VStr "doge"]>
    (<["price_change_percentage_24h" := VStr "abc"]> ∅).

(** The heap after the Enhancer and the Normalizer have run on the
    scenario; the normalized records are at 3 (btc), 4 (eth), 5 (xrp). *)
Definition normalized_heap : heap :=
  snd (bind (add_enhanced_columns float_literal "04-11-2026" [0; 1; 2]%nat)
            process_crypto_data scenario_heap).

Definition normalized_data : list loc := [3; 4; 5]%nat.

Definition scenario_data : list loc := [0; 1; 2]%nat.

(** Two raw records, the first with the text ["nan"] as its percentage,
    which [float()] reads as NaN, the second with +5. *)
Definition raw_odd : gmap string val :=
  <["id" := VStr "odd"]> (<["market_cap_rank" := VInt 1]>
  (<["price_change_percentage_24h" := VStr "nan"]> ∅)).

Definition raw_sol : gmap string val :=
  <["id" := VStr "sol"]> (<["market_cap_rank" := VInt 2]>
  (<["price_change_percentage_24h" := VFloat 5]> ∅)).

Definition nan_heap : heap := [raw_odd; raw_sol].

(** The heap after the Enhancer and the Normalizer have run on these
    two; the normalized records are at 2 (odd) and 3 (sol). *)
Definition nan_normalized_heap : heap :=
  snd (bind (add_enhanced_columns float_literal "04-11-2026" [0; 1]%nat)
            process_crypto_data nan_heap).

(** [main]: the pipeline up to the summary. *)
Definition pipeline (float_of_str : string -> option float) (today : string)
    (raw : list loc)
  : M (list loc * list loc * list loc * gmap string val) :=
  enhanced <- add_enhanced_columns float_of_str today raw ;;
  processed <- process_crypto_data enhanced ;;
  top_gainers <- get_top_gainers processed 10 ;;
  top_losers <- get_top_losers processed 10 ;;
  summary <- generate_market_summary processed ;;
  ret (processed, top_gainers, top_losers, summary).

(** The Ranker and the Summarizer run one after the other, as in [main]. *)
Definition rank_and_summarize (data : list loc) (lg ll : Z)
  : M (list loc * list loc * gmap string val) :=
  top_gainers <- get_top_gainers data lg ;;
  top_losers <- get_top_losers data ll ;;
  summary <- generate_market_summary data ;;
  ret (top_gainers, top_losers, summary).

(** A rank that [rank_key] sends to the sentinel. *)
Definition falsy_rank (d : gmap string val) : bool :=
  negb (truth (default VNone (d !! "rank"))).

(** The content of a record that the Normalizer has projected from a
    record it accepts. *)
Definition well_projected (d : gmap string val) : Prop :=
  exists d0 s,
    d = projected d0 /\
    is_rank (default VNone (d0 !! "market_cap_rank")) /\
    default (VStr "") (d0 !! "symbol") = VStr s.

(** ** Inputs for the further properties *)

(** Two raw records whose percentage is falsy without being null: the
    empty text and the integer zero. *)
Definition falsy_heap : heap :=
  [<["id" := VStr "blank"]> (<["price_change_percentage_24h" := VStr ""]> ∅);
   <["id" := VStr "flat"]> (<["price_change_percentage_24h" := VInt 0]> ∅)].

(** The keys of a record the Normalizer returns. *)
Definition normalized_keys : list string :=
  ["number"; "id"; "rank"; "name"; "symbol"; "current_price";
   "price_change_24h"; "change_symbol"; "market_cap"; "volume_24h"; "ath";
   "image"; "date"; "last_updated"].

(** A record the projection loop accepts: in the heap, with a symbol that
    is absent or a string. *)
Definition projectable (h : heap) (c : loc) : Prop :=
  exists d s, h !! c = Some d /\ default (VStr "") (d !! "symbol") = VStr s.

(** Two raw records, the second with a null symbol. *)
Definition null_symbol_heap : heap :=
  [raw_btc; <["id" := VStr "anon"]> (<["symbol" := VNone]> ∅)].

(** Normalized records of which the second has lost its 24h change and
    the third has a null one. *)
Definition broken_change_heap : heap :=
  [<["id" := VStr "btc"]> (<["price_change_24h" := VFloat (52 # 10)]> ∅);
   <["id" := VStr "eth"]> ∅;
   <["id" := VStr "xrp"]> (<["price_change_24h" := VNone]> ∅)].

(** What the Enhancer leaves in a record and the Normalizer carries over:
    a float change, the symbol of its sign, the date of the run. *)
Definition sign_consistent (today : string) (d : gmap string val) : Prop :=
  exists f,
    d !! "price_change_24h" = Some (VFloat f) /\
    d !! "change_symbol" = Some (VStr (if flt 0 f then "UP" else "DOWN")) /\
    d !! "date" = Some (VStr today).

(** A rank whose sort key is a text: a non-empty string. *)
Definition rank_is_text (r : val) : bool :=
  match r with
  | VStr s => negb (String.eqb s "")
  | _ => false
  end.

Definition key_is_text (k : sort_key) : bool :=
  match k with
  | KVal (VStr _) => true
  | _ => false
  end.

(** A record the projection loop accepts and whose rank is not a nested
    object. *)
Definition scalar_rank (h : heap) (c : loc) : Prop :=
  exists d, h !! c = Some d /\
    forall l, default VNone (d !! "market_cap_rank") <> VRef l.

(** [coin.get('market_cap_rank')] *)
Definition raw_rank (h : heap) (c : loc) : val :=
  default VNone (field h c "market_cap_rank").

(** Two raw records, one ranked by a number and one by a text. *)
Definition mixed_rank_heap : heap :=
  [<["id" := VStr "btc"]> (<["market_cap_rank" := VInt 1]> ∅);
   <["id" := VStr "eth"]> (<["market_cap_rank" := VStr "2"]> ∅)].

(** A change that is NaN. *)
Definition nan_change (h : heap) (c : loc) : bool :=
  match change_of h c with
  | Some NaN => true
  | _ => false
  end.

(** Two raw records, the second with an integer percentage too large for
    a float. *)
Definition huge_heap : heap :=
  [raw_btc;
   <["id" := VStr "huge"]>
     (<["price_change_percentage_24h" := VInt (2 ^ 1024)]> ∅)].

(** * Proofs *)

(** ** The order on numbers *)

Lemma Qltb_lt (x y : Q) : Qltb x y = true <-> (x < y)%Q.
Proof.
  unfold Qltb. rewrite negb_true_iff. split.
  - intros H. apply Qnot_le_lt. intros Hle.
    apply Qle_bool_iff in Hle. congruence.
  - intros H. destruct (Qle_bool y x) eqn:E; [|reflexivity].
    apply Qle_bool_iff in E. exfalso. exact (Qlt_not_le _ _ H E).
Qed.

Lemma Qltb_ge (x y : Q) : Qltb x y = false <-> (y <= x)%Q.
Proof.
  unfold Qltb. rewrite negb_false_iff. apply Qle_bool_iff.
Qed.

Lemma Qltb_asym (x y : Q) : Qltb x y = true -> Qltb y x = false.
Proof.
  rewrite Qltb_lt, Qltb_ge. apply Qlt_le_weak.
Qed.

Lemma Qltb_ge_trans (x y z : Q) :
  Qltb y x = false -> Qltb z y = false -> Qltb z x = false.
Proof.
  rewrite !Qltb_ge. apply Qle_trans.
Qed.

Lemma Qltb_eq (x y : Q) : Qeq_bool x y = true -> Qltb x y = false.
Proof.
  intros H. apply Qeq_bool_eq in H. apply Qltb_ge. rewrite H. apply Qle_refl.
Qed.

Lemma xltb_asym (a b : option Q) : xltb a b = true -> xltb b a = false.
Proof.
  destruct a, b; simpl; auto using Qltb_asym.
Qed.

Lemma xltb_ge_trans (a b c : option Q) :
  xltb b a = false -> xltb c b = false -> xltb c a = false.
Proof.
  destruct a, b, c; simpl; eauto using Qltb_ge_trans; congruence.
Qed.

(** ** The insertion sort *)

Section Isort.
Context {A : Type} (ltb : A -> A -> bool).

Hypothesis ltb_asym : forall a b, ltb a b = true -> ltb b a = false.
Hypothesis ltb_ge_trans :
  forall a b c, ltb b a = false -> ltb c b = false -> ltb c a = false.

Lemma insert_b_perm (x : A) (l : list A) : Permutation (insert_b ltb x l) (x :: l).
Proof using Type.
  induction l as [|y l IH]; simpl; [reflexivity|].
  destruct (ltb y x); [|reflexivity].
  rewrite IH. apply perm_swap.
Qed.

Lemma isort_b_perm (l : list A) : Permutation (isort_b ltb l) l.
Proof using Type.
  induction l as [|x l IH]; simpl; [reflexivity|].
  rewrite insert_b_perm. now apply perm_skip.
Qed.

Lemma insert_b_sorted (x : A) (l : list A) :
  StronglySorted (before ltb) l -> StronglySorted (before ltb) (insert_b ltb x l).
Proof using ltb_asym ltb_ge_trans.
  induction 1 as [|y l Hs IH Hy]; simpl.
  - repeat constructor.
  - destruct (ltb y x) eqn:E.
    + constructor; [exact IH|].
      eapply Permutation_Forall; [symmetry; apply insert_b_perm|].
      constructor; [|exact Hy]. unfold before. auto.
    + constructor; [constructor; assumption|].
      constructor; [exact E|].
      eapply Forall_impl; [exact Hy|].
      intros z Hz. unfold before in *. eauto.
Qed.

Lemma isort_b_sorted (l : list A) : StronglySorted (before ltb) (isort_b ltb l).
Proof using ltb_asym ltb_ge_trans.
  induction l as [|x l IH]; simpl; [constructor|].
  now apply insert_b_sorted.
Qed.

(** Stability: elements that the order does not separate keep their
    relative position. *)
Lemma insert_b_filter (p : A -> bool) (x : A) (l : list A) :
  (forall a b, p a = true -> p b = true -> ltb a b = false) ->
  List.filter p (insert_b ltb x l) = List.filter p (x :: l).
Proof using Type.
  intros Hp. induction l as [|y l IH]; simpl; [reflexivity|].
  destruct (ltb y x) eqn:E; [|reflexivity].
  simpl in *. rewrite IH.
  destruct (p x) eqn:Px, (p y) eqn:Py; try reflexivity.
  rewrite (Hp y x Py Px) in E. discriminate.
Qed.

Lemma isort_b_filter (p : A -> bool) (l : list A) :
  (forall a b, p a = true -> p b = true -> ltb a b = false) ->
  List.filter p (isort_b ltb l) = List.filter p l.
Proof using Type.
  intros Hp. induction l as [|x l IH]; simpl; [reflexivity|].
  rewrite insert_b_filter by exact Hp. simpl. now rewrite IH.
Qed.

(** A sorted list is left as it is. *)
Lemma isort_b_id (l : list A) : StronglySorted (before ltb) l -> isort_b ltb l = l.
Proof using Type.
  induction 1 as [|x l Hs IH Hx]; simpl; [reflexivity|].
  rewrite IH. destruct Hx as [|y l Hy _]; simpl; [reflexivity|].
  unfold before in Hy. now rewrite Hy.
Qed.

(** The sort that can raise agrees with the pure one as long as every
    comparison it may make succeeds. *)
Lemma insert_by_pure (lt : A -> A -> result bool) (P : A -> Prop) x l :
  (forall a b, P a -> P b -> lt a b = Ok (ltb a b)) ->
  P x -> Forall P l ->
  insert_by lt x l = Ok (insert_b ltb x l).
Proof using Type.
  intros Hlt Hx. induction 1 as [|y l Hy Hl IH]; simpl; [reflexivity|].
  rewrite (Hlt y x Hy Hx). simpl. destruct (ltb y x); [|reflexivity].
  now rewrite IH.
Qed.

Lemma isort_by_pure (lt : A -> A -> result bool) (P : A -> Prop) l :
  (forall a b, P a -> P b -> lt a b = Ok (ltb a b)) ->
  Forall P l ->
  isort_by lt l = Ok (isort_b ltb l).
Proof using Type.
  intros Hlt. induction 1 as [|x l Hx Hl IH]; simpl; [reflexivity|].
  rewrite IH. simpl. apply insert_by_pure with (P := P); auto.
  eapply Permutation_Forall; [symmetry; apply isort_b_perm|exact Hl].
Qed.
End Isort.

(** Sorting commutes with a map that preserves the comparison. *)
Lemma isort_b_map {A B} (lt1 : A -> A -> bool) (lt2 : B -> B -> bool)
    (g : A -> B) (l : list A) :
  (forall a b, lt2 (g a) (g b) = lt1 a b) ->
  isort_b lt2 (map g l) = map g (isort_b lt1 l).
Proof.
  intros Hg. induction l as [|x l IH]; simpl; [reflexivity|].
  rewrite IH. generalize (isort_b lt1 l). intros s.
  induction s as [|y s IHs]; simpl; [reflexivity|].
  rewrite Hg. destruct (lt1 y x); simpl; [now rewrite IHs|reflexivity].
Qed.

(** ** Running the primitives *)

Lemma bind_ok {A B} (m : M A) (k : A -> M B) h a h' :
  m h = (Ok a, h') -> bind m k h = k a h'.
Proof. unfold bind. now intros ->. Qed.

Lemma bind_raise {A B} (m : M A) (k : A -> M B) h e h' :
  m h = (Raise e, h') -> bind m k h = (Raise e, h').
Proof. unfold bind. now intros ->. Qed.

Lemma getitem_field h c k v :
  field h c k = Some v -> getitem c k h = (Ok v, h).
Proof.
  unfold field, getitem. destruct (h !! c) as [d|]; [|discriminate].
  now intros ->.
Qed.

Lemma dict_get_run h c k dflt d :
  h !! c = Some d -> dict_get c k dflt h = (Ok (default dflt (d !! k)), h).
Proof. unfold dict_get. now intros ->. Qed.

Lemma setitem_run h c k v :
  is_Some (h !! c) -> setitem c k v h = (Ok tt, alter (insert k v) c h).
Proof. unfold setitem. now intros [d ->]. Qed.

Lemma truthy_truth h v :
  (forall l, v <> VRef l) -> truthy v h = (Ok (truth v), h).
Proof. destruct v; simpl; try reflexivity. intros H. now destruct (H l). Qed.

Lemma field_alter_ne h c c' k f :
  c <> c' -> field (alter f c h) c' k = field h c' k.
Proof. intros Hne. unfold field. now rewrite list_lookup_alter_ne. Qed.

Lemma field_set_ne h c c' k k' v :
  k <> k' -> field (alter (insert k v) c h) c' k' = field h c' k'.
Proof.
  intros Hne. unfold field. destruct (decide (c = c')) as [->|Hc].
  - rewrite list_lookup_alter_eq. destruct (h !! c'); simpl; [|reflexivity].
    now apply lookup_insert_ne.
  - now rewrite list_lookup_alter_ne.
Qed.

Lemma field_set_eq h c k v :
  is_Some (h !! c) -> field (alter (insert k v) c h) c k = Some v.
Proof.
  intros [d Hd]. unfold field. rewrite list_lookup_alter_eq, Hd. simpl.
  apply lookup_insert_eq.
Qed.

Lemma alter_is_Some (h : heap) c c' f :
  is_Some (alter f c h !! c') <-> is_Some (h !! c').
Proof.
  rewrite !lookup_lt_is_Some. now rewrite length_alter.
Qed.

(** ** Running the loops *)

Lemma mapM_pure {A B} (f : A -> M B) (g : A -> B) l h :
  Forall (fun x => f x h = (Ok (g x), h)) l ->
  mapM f l h = (Ok (map g l), h).
Proof.
  induction 1 as [|x l Hx Hl IH]; simpl; [reflexivity|].
  rewrite (bind_ok _ _ _ _ _ Hx), (bind_ok _ _ _ _ _ IH). reflexivity.
Qed.

Lemma filterM_pure {A} (p : A -> M bool) (pb : A -> bool) l h :
  Forall (fun x => p x h = (Ok (pb x), h)) l ->
  filterM p l h = (Ok (List.filter pb l), h).
Proof.
  induction 1 as [|x l Hx Hl IH]; simpl; [reflexivity|].
  rewrite (bind_ok _ _ _ _ _ Hx), (bind_ok _ _ _ _ _ IH). reflexivity.
Qed.

Lemma combine_map_self {A K} (kf : A -> K) (l : list A) :
  combine (map kf l) l = map (fun x => (kf x, x)) l.
Proof. induction l as [|x l IH]; simpl; [reflexivity|]. now rewrite IH. Qed.

Lemma py_sorted_pure {A K} (key : A -> M K) (lt : K -> K -> result bool)
    (kf : A -> K) (ltb : K -> K -> bool) (P : K -> Prop) reverse l h :
  Forall (fun x => key x h = (Ok (kf x), h)) l ->
  (forall a b, P a -> P b -> lt a b = Ok (ltb a b)) ->
  Forall (fun x => P (kf x)) l ->
  py_sorted key lt reverse l h =
    (Ok (sorted_b (fun a b => ltb (kf a) (kf b)) reverse l), h).
Proof.
  intros Hkey Hlt HP. unfold py_sorted.
  rewrite (bind_ok _ _ _ _ _ (mapM_pure key kf l h Hkey)).
  rewrite combine_map_self.
  set (g := fun x : A => (kf x, x)).
  set (lt2 := fun a b : K * A => ltb (fst a) (fst b)).
  assert (Hs : forall l', Forall (fun x => P (kf x)) l' ->
            isort_by (fun a b => lt (fst a) (fst b)) (map g l')
            = Ok (map g (isort_b (fun a b => ltb (kf a) (kf b)) l'))).
  { intros l' Hl'.
    rewrite (isort_by_pure lt2 _ (fun a => P (fst a))).
    - f_equal. now apply isort_b_map.
    - intros a b Ha Hb. now apply Hlt.
    - apply Forall_map. exact Hl'. }
  assert (Hsnd : forall l', map snd (map g l') = l').
  { intros l'. rewrite map_map. simpl. apply map_id. }
  unfold sorted_b. destruct reverse.
  - rewrite <- map_rev, Hs by now apply Forall_rev.
    unfold lift, bind, ret. now rewrite <- map_rev, Hsnd.
  - rewrite Hs by exact HP. unfold lift, bind, ret. now rewrite Hsnd.
Qed.

Lemma set_ranks_run k start l h :
  Forall (fun c => is_Some (h !! c)) l ->
  forM_ (enumerate start l) (fun ic => setitem (snd ic) k (VInt (fst ic))) h
  = (Ok tt, set_ranks k start l h).
Proof.
  revert start h. induction l as [|c l IH]; intros start h Hl; simpl;
    [reflexivity|].
  inversion Hl as [|? ? Hc Hl']; subst.
  rewrite (bind_ok _ _ _ _ _ (setitem_run h c k (VInt start) Hc)).
  apply IH. eapply Forall_impl; [exact Hl'|].
  intros c' Hc'. now apply alter_is_Some.
Qed.

Lemma set_ranks_is_Some k start l h c :
  is_Some (set_ranks k start l h !! c) <-> is_Some (h !! c).
Proof.
  revert start h. induction l as [|c0 l IH]; intros start h; simpl;
    [reflexivity|].
  rewrite IH. apply alter_is_Some.
Qed.

Lemma set_ranks_notin k start l h c :
  ~ In c l -> set_ranks k start l h !! c = h !! c.
Proof.
  revert start h. induction l as [|c0 l IH]; intros start h Hc; simpl;
    [reflexivity|].
  rewrite IH by (simpl in Hc; tauto).
  apply list_lookup_alter_ne. simpl in Hc. tauto.
Qed.

Lemma set_ranks_field_ne k k' start l h c :
  k <> k' -> field (set_ranks k start l h) c k' = field h c k'.
Proof.
  intros Hne. revert start h. induction l as [|c0 l IH]; intros start h; simpl;
    [reflexivity|].
  rewrite IH. now apply field_set_ne.
Qed.

Lemma set_ranks_field_notin k start l h c k' :
  ~ In c l -> field (set_ranks k start l h) c k' = field h c k'.
Proof.
  intros Hc. unfold field. now rewrite set_ranks_notin.
Qed.

Lemma set_ranks_field_at k start l h i c :
  NoDup l -> l !! i = Some c -> is_Some (h !! c) ->
  field (set_ranks k start l h) c k = Some (VInt (start + Z.of_nat i)).
Proof.
  revert start h i. induction l as [|c0 l IH]; intros start h i Hnd Hi Hc;
    [discriminate|].
  apply NoDup_cons in Hnd as [Hnotin Hnd]. destruct i as [|i]; simpl in *.
  - injection Hi as ->.
    rewrite set_ranks_field_notin by (rewrite <- list_elem_of_In; exact Hnotin).
    rewrite field_set_eq by exact Hc. do 2 f_equal. lia.
  - rewrite (IH (start + 1) _ i Hnd Hi) by now apply alter_is_Some.
    do 2 f_equal. lia.
Qed.

Lemma set_ranks_field_in k start l h c :
  In c l -> is_Some (h !! c) ->
  exists n, field (set_ranks k start l h) c k = Some (VInt n).
Proof.
  revert start h. induction l as [|c0 l IH]; intros start h Hin Hc; [easy|].
  simpl. destruct (in_dec Nat.eq_dec c l) as [Hl|Hl].
  - apply IH; [exact Hl|]. now apply alter_is_Some.
  - destruct Hin as [->|Hin]; [|contradiction].
    rewrite set_ranks_field_notin by exact Hl.
    rewrite field_set_eq by exact Hc. eauto.
Qed.

(** ** Reading the 24h change *)

Lemma change_of_valid h c : is_Some (change_of h c) -> is_Some (h !! c).
Proof.
  unfold change_of, change_val, field. destruct (h !! c); [eauto|].
  simpl. intros [? ?]. discriminate.
Qed.

Lemma change_key_run h c :
  is_Some (change_of h c) ->
  change_key c h = (Ok (change_val h c), h).
Proof.
  intros [q Hq]. unfold change_key. apply getitem_field.
  unfold change_of, change_val in *.
  destruct (field h c "price_change_24h"); [reflexivity|discriminate].
Qed.

Lemma rat_num v q : rat v = Some q -> num v = Some (Fin q).
Proof. unfold rat. destruct (num v) as [[x|]|]; congruence. Qed.

Lemma num_rat v q : num v = Some (Fin q) -> rat v = Some q.
Proof. unfold rat. now intros ->. Qed.

Lemma ordered_change_of h c :
  is_Some (rat (change_val h c)) -> is_Some (change_of h c).
Proof. intros [q Hq]. unfold change_of. rewrite (rat_num _ _ Hq). eauto. Qed.

Lemma ordered_numeric h l : ordered_changes h l -> numeric_changes h l.
Proof.
  intros H. eapply Forall_impl; [exact H|]. apply ordered_change_of.
Qed.

(** The change of an ordered record, as the code reads it. *)
Lemma ordered_chg h c :
  is_Some (rat (change_val h c)) ->
  num (change_val h c) = Some (Fin (chg h c)).
Proof. intros [q Hq]. unfold chg. rewrite Hq. now apply rat_num. Qed.

(** A change that is above or below zero is not NaN. *)
Lemma signed_ordered h c :
  is_Some (change_of h c) ->
  Qltb 0 (chg h c) = true \/ Qltb (chg h c) 0 = true ->
  is_Some (rat (change_val h c)).
Proof.
  unfold change_of, chg, rat. intros [f Hf]. rewrite Hf.
  destruct f as [q|]; [eauto|]. simpl. intros [H|H]; discriminate.
Qed.

Lemma py_lt_num a b x y :
  num a = Some x -> num b = Some y -> py_lt a b = Ok (flt x y).
Proof. unfold py_lt. now intros -> ->. Qed.

Lemma py_lt_rat a b x y :
  rat a = Some x -> rat b = Some y -> py_lt a b = Ok (Qltb x y).
Proof.
  intros Ha Hb. now rewrite (py_lt_num a b _ _ (rat_num a x Ha) (rat_num b y Hb)).
Qed.

Lemma change_gt0_run h c :
  is_Some (change_of h c) ->
  bind (change_key c) (fun v => lift (py_gt v (VInt 0))) h
  = (Ok (Qltb 0 (chg h c)), h).
Proof.
  intros Hc. rewrite (bind_ok _ _ _ _ _ (change_key_run h c Hc)).
  unfold lift, py_gt. destruct Hc as [f Hf]. unfold change_of in Hf.
  rewrite (py_lt_num (VInt 0) _ 0%Q f eq_refl Hf).
  unfold chg, rat. rewrite Hf. now destruct f.
Qed.

Lemma change_lt0_run h c :
  is_Some (change_of h c) ->
  bind (change_key c) (fun v => lift (py_lt v (VInt 0))) h
  = (Ok (Qltb (chg h c) 0), h).
Proof.
  intros Hc. rewrite (bind_ok _ _ _ _ _ (change_key_run h c Hc)).
  unfold lift. destruct Hc as [f Hf]. unfold change_of in Hf.
  rewrite (py_lt_num _ (VInt 0) f 0%Q Hf eq_refl).
  unfold chg, rat. rewrite Hf. now destruct f.
Qed.

Lemma change_eq0_num_run h c :
  is_Some (change_of h c) ->
  bind (change_key c) (fun v => ret (py_eq_int v 0)) h
  = (Ok (py_eq_int (change_val h c) 0), h).
Proof.
  intros Hc. now rewrite (bind_ok _ _ _ _ _ (change_key_run h c Hc)).
Qed.

Lemma py_eq_int_ordered h c :
  is_Some (rat (change_val h c)) ->
  py_eq_int (change_val h c) 0 = Qeq_bool (chg h c) 0.
Proof. intros Hc. unfold py_eq_int. now rewrite (ordered_chg h c Hc). Qed.

Lemma sorted_b_perm {A} (ltb : A -> A -> bool) reverse (l : list A) :
  Permutation (sorted_b ltb reverse l) l.
Proof.
  unfold sorted_b. destruct reverse.
  - rewrite <- Permutation_rev, isort_b_perm. symmetry. apply Permutation_rev.
  - apply isort_b_perm.
Qed.

Lemma slice_to_In {A} limit (l : list A) x : In x (slice_to limit l) -> In x l.
Proof.
  unfold slice_to. destruct (Z.ltb limit 0); intros H;
    apply list_elem_of_In, elem_of_take in H as (i & Hi & _);
    apply list_elem_of_In, list_elem_of_lookup; eauto.
Qed.

Lemma slice_to_nonneg {A} limit (l : list A) :
  0 <= limit -> slice_to limit l = firstn (Z.to_nat limit) l.
Proof.
  intros H. unfold slice_to. destruct (Z.ltb_spec limit 0); [lia|reflexivity].
Qed.

Lemma change_sorted_run h reverse l :
  ordered_changes h l ->
  py_sorted change_key py_lt reverse l h
  = (Ok (sorted_b (fun a b => Qltb (chg h a) (chg h b)) reverse l), h).
Proof.
  intros Hl.
  apply (py_sorted_pure change_key py_lt (change_val h)
           (fun a b => Qltb (default 0%Q (rat a)) (default 0%Q (rat b)))
           (fun v => is_Some (rat v))).
  - eapply Forall_impl; [exact Hl|]. intros c Hc.
    now apply change_key_run, ordered_change_of.
  - intros a b [x Hx] [y Hy]. rewrite (py_lt_rat a b x y Hx Hy).
    now rewrite Hx, Hy.
  - exact Hl.
Qed.

(** The records the Ranker sorts have a change above, or below, zero:
    none of them is NaN. *)
Lemma ordered_gainers h l :
  numeric_changes h l ->
  ordered_changes h (List.filter (fun c => Qltb 0 (chg h c)) l).
Proof.
  unfold numeric_changes, ordered_changes. rewrite !Forall_forall.
  intros H c Hc. apply list_elem_of_In, filter_In in Hc as [Hc Hp].
  apply signed_ordered; [|now left]. now apply H, list_elem_of_In.
Qed.

Lemma ordered_losers h l :
  numeric_changes h l ->
  ordered_changes h (List.filter (fun c => Qltb (chg h c) 0) l).
Proof.
  unfold numeric_changes, ordered_changes. rewrite !Forall_forall.
  intros H c Hc. apply list_elem_of_In, filter_In in Hc as [Hc Hp].
  apply signed_ordered; [|now right]. now apply H, list_elem_of_In.
Qed.

Lemma numeric_changes_filter h p l :
  numeric_changes h l -> numeric_changes h (List.filter p l).
Proof.
  unfold numeric_changes. rewrite !Forall_forall. intros H c Hc.
  apply H. apply list_elem_of_In in Hc. apply list_elem_of_In.
  now apply filter_In in Hc.
Qed.

Lemma get_top_gainers_run h data limit :
  numeric_changes h data ->
  get_top_gainers data limit h
  = (Ok (slice_to limit (gainers_sorted h data)),
     set_ranks "gainer_rank" 1 (slice_to limit (gainers_sorted h data)) h).
Proof.
  intros Hd. unfold get_top_gainers.
  rewrite (bind_ok _ _ _ _ _
             (filterM_pure _ (fun c => Qltb 0 (chg h c)) data h
                (Forall_impl _ _ _ Hd (change_gt0_run h)))).
  rewrite (bind_ok _ _ _ _ _
             (change_sorted_run h true _ (ordered_gainers h _ Hd))).
  fold (gainers_sorted h data).
  assert (Hv : Forall (fun c => is_Some (h !! c))
                 (slice_to limit (gainers_sorted h data))).
  { apply Forall_forall. intros c Hc. apply change_of_valid.
    apply list_elem_of_In, slice_to_In in Hc. unfold gainers_sorted in Hc.
    apply (Permutation_in _ (sorted_b_perm _ _ _)), filter_In in Hc.
    unfold numeric_changes in Hd. rewrite Forall_forall in Hd.
    apply Hd, list_elem_of_In, Hc. }
  now rewrite (bind_ok _ _ _ _ _ (set_ranks_run "gainer_rank" 1 _ h Hv)).
Qed.

Lemma get_top_losers_run h data limit :
  numeric_changes h data ->
  get_top_losers data limit h
  = (Ok (slice_to limit (losers_sorted h data)),
     set_ranks "loser_rank" 1 (slice_to limit (losers_sorted h data)) h).
Proof.
  intros Hd. unfold get_top_losers.
  rewrite (bind_ok _ _ _ _ _
             (filterM_pure _ (fun c => Qltb (chg h c) 0) data h
                (Forall_impl _ _ _ Hd (change_lt0_run h)))).
  rewrite (bind_ok _ _ _ _ _
             (change_sorted_run h false _ (ordered_losers h _ Hd))).
  fold (losers_sorted h data).
  assert (Hv : Forall (fun c => is_Some (h !! c))
                 (slice_to limit (losers_sorted h data))).
  { apply Forall_forall. intros c Hc. apply change_of_valid.
    apply list_elem_of_In, slice_to_In in Hc. unfold losers_sorted in Hc.
    apply (Permutation_in _ (sorted_b_perm _ _ _)), filter_In in Hc.
    unfold numeric_changes in Hd. rewrite Forall_forall in Hd.
    apply Hd, list_elem_of_In, Hc. }
  now rewrite (bind_ok _ _ _ _ _ (set_ranks_run "loser_rank" 1 _ h Hv)).
Qed.

(** ** The order of the Ranker's output *)

Lemma StronglySorted_rev {A} (R : A -> A -> Prop) (l : list A) :
  StronglySorted R l -> StronglySorted (fun a b => R b a) (rev l).
Proof.
  induction 1 as [|x l Hs IH Hx]; simpl; [constructor|].
  apply StronglySorted_app; split; [|split].
  - intros a b Ha Hb. apply list_elem_of_singleton in Hb as ->.
    apply list_elem_of_In, in_rev, list_elem_of_In in Ha.
    rewrite Forall_forall in Hx. now apply Hx.
  - exact IH.
  - repeat constructor.
Qed.

Lemma StronglySorted_weaken {A} (R S : A -> A -> Prop) (l : list A) :
  (forall a b, R a b -> S a b) -> StronglySorted R l -> StronglySorted S l.
Proof.
  intros HRS. induction 1 as [|x l Hs IH Hx]; constructor; [exact IH|].
  eapply Forall_impl; [exact Hx|]. intros b. apply HRS.
Qed.

Lemma change_sorted_asc h reverse (l : list loc) :
  reverse = false ->
  StronglySorted (fun a b => (chg h a <= chg h b)%Q)
    (sorted_b (fun a b => Qltb (chg h a) (chg h b)) reverse l).
Proof.
  intros ->. simpl.
  eapply StronglySorted_weaken;
    [|apply (isort_b_sorted (fun a b => Qltb (chg h a) (chg h b)))].
  - intros a b Hab. unfold before in Hab. now apply Qltb_ge in Hab.
  - intros a b. apply Qltb_asym.
  - intros a b c. apply Qltb_ge_trans.
Qed.

Lemma change_sorted_desc h reverse (l : list loc) :
  reverse = true ->
  StronglySorted (fun a b => (chg h b <= chg h a)%Q)
    (sorted_b (fun a b => Qltb (chg h a) (chg h b)) reverse l).
Proof.
  intros ->. simpl.
  apply (StronglySorted_rev (fun a b => (chg h a <= chg h b)%Q)).
  apply (change_sorted_asc h false (rev l) eq_refl).
Qed.

Lemma change_sorted_stable h reverse (l : list loc) q :
  List.filter (fun c => Qeq_bool (chg h c) q)
    (sorted_b (fun a b => Qltb (chg h a) (chg h b)) reverse l)
  = List.filter (fun c => Qeq_bool (chg h c) q) l.
Proof.
  assert (Hp : forall a b : loc,
             Qeq_bool (chg h a) q = true -> Qeq_bool (chg h b) q = true ->
             Qltb (chg h a) (chg h b) = false).
  { intros a b Ha Hb. apply Qltb_eq.
    apply Qeq_bool_eq in Ha, Hb. apply Qeq_eq_bool. now rewrite Ha, Hb. }
  unfold sorted_b. destruct reverse.
  - rewrite filter_rev, isort_b_filter by exact Hp.
    now rewrite filter_rev, rev_involutive.
  - now apply isort_b_filter.
Qed.

Lemma NoDup_filter_bool {A} (p : A -> bool) (l : list A) :
  NoDup l -> NoDup (List.filter p l).
Proof.
  induction 1 as [|x l Hx Hl IH]; simpl; [constructor|].
  destruct (p x); [|exact IH]. constructor; [|exact IH].
  intros Hin. apply Hx. apply list_elem_of_In, filter_In in Hin.
  now apply list_elem_of_In.
Qed.

Lemma ranked_subset_intro h data wanted ord reverse limit rank_field :
  NoDup data -> 0 <= limit ->
  numeric_changes h data ->
  (forall l, StronglySorted (fun a b => ord (chg h a) (chg h b))
               (sorted_b (fun a b => Qltb (chg h a) (chg h b)) reverse l)) ->
  let all := sorted_b (fun a b => Qltb (chg h a) (chg h b)) reverse
               (List.filter (fun c => wanted (chg h c)) data) in
  ranked_subset h data wanted ord limit rank_field
    (slice_to limit all) (set_ranks rank_field 1 (slice_to limit all) h).
Proof.
  intros Hnd Hlim Hnum Hsorted all. exists all.
  assert (Hperm : Permutation all
                    (List.filter (fun c => wanted (chg h c)) data))
    by apply sorted_b_perm.
  rewrite slice_to_nonneg by exact Hlim.
  split; [exact Hperm|]. split; [apply Hsorted|].
  split; [intros q; apply change_sorted_stable|].
  split; [reflexivity|]. split; [apply firstn_le_length|].
  split; [apply firstn_all2|].
  intros i c Hi.
  rewrite (set_ranks_field_at rank_field 1 _ h i c).
  - do 2 f_equal. lia.
  - apply (sublist_NoDup _ all); [|apply sublist_take].
    rewrite Hperm. now apply NoDup_filter_bool.
  - exact Hi.
  - apply change_of_valid.
    apply lookup_take_Some in Hi as [Hi _].
    assert (Hin : In c all) by (apply list_elem_of_In, list_elem_of_lookup; eauto).
    apply (Permutation_in _ Hperm), filter_In in Hin as [Hin _].
    unfold numeric_changes in Hnum. rewrite Forall_forall in Hnum.
    now apply Hnum, list_elem_of_In.
Qed.

(** C3.  On records with a numeric 24h change, for every limit
    [0 <= limit], [get_top_gainers] returns the records with a change
    above zero, sorted descending with ties in input order, cut to the
    first [limit], and numbers them 1, 2, ... under [gainer_rank];
    [get_top_losers] does the same for the changes below zero, sorted
    ascending, under [loser_rank].  With fewer than [limit] qualifying
    records all of them are returned.  A record whose change is NaN
    qualifies for neither list. *)
Theorem ranker_subsets h data limit :
  numeric_changes h data -> NoDup data -> 0 <= limit ->
  (exists gainers hg,
     get_top_gainers data limit h = (Ok gainers, hg) /\
     ranked_subset h data (fun q => Qltb 0 q) (fun x y => (y <= x)%Q)
       limit "gainer_rank" gainers hg) /\
  (exists losers hl,
     get_top_losers data limit h = (Ok losers, hl) /\
     ranked_subset h data (fun q => Qltb q 0) (fun x y => (x <= y)%Q)
       limit "loser_rank" losers hl).
Proof.
  intros Hnum Hnd Hlim. split.
  - eexists _, _. split; [now apply get_top_gainers_run|].
    apply (ranked_subset_intro h data (fun q => Qltb 0 q)
             (fun x y => (y <= x)%Q) true); auto.
    intros l. now apply change_sorted_desc.
  - eexists _, _. split; [now apply get_top_losers_run|].
    apply (ranked_subset_intro h data (fun q => Qltb q 0)
             (fun x y => (x <= y)%Q) false); auto.
    intros l. now apply change_sorted_asc.
Qed.

(** ** The Summarizer *)

Lemma num_fchg h c :
  is_Some (change_of h c) -> num (change_val h c) = Some (fchg h c).
Proof. intros [f Hf]. unfold fchg. rewrite Hf. exact Hf. Qed.

Lemma ordered_fchg h c :
  is_Some (rat (change_val h c)) -> fchg h c = Fin (chg h c).
Proof.
  intros Hc. unfold fchg, change_of. now rewrite (ordered_chg h c Hc).
Qed.

Lemma scan_best_gt_run h best l :
  is_Some (change_of h best) -> numeric_changes h l ->
  scan_best change_key py_gt best (change_val h best) l h
  = (Ok (scan_b (fchg h) (fun x y => flt y x) best l), h).
Proof.
  intros Hb Hl. revert best Hb.
  induction Hl as [|x l Hx Hl IH]; intros best Hb; simpl; [reflexivity|].
  rewrite (bind_ok _ _ _ _ _ (change_key_run h x Hx)).
  unfold lift at 1, bind at 1, py_gt.
  rewrite (py_lt_num _ _ _ _ (num_fchg h best Hb) (num_fchg h x Hx)).
  destruct (flt (fchg h best) (fchg h x)); now apply IH.
Qed.

Lemma scan_best_lt_run h best l :
  is_Some (change_of h best) -> numeric_changes h l ->
  scan_best change_key py_lt best (change_val h best) l h
  = (Ok (scan_b (fchg h) flt best l), h).
Proof.
  intros Hb Hl. revert best Hb.
  induction Hl as [|x l Hx Hl IH]; intros best Hb; simpl; [reflexivity|].
  rewrite (bind_ok _ _ _ _ _ (change_key_run h x Hx)).
  unfold lift at 1, bind at 1.
  rewrite (py_lt_num _ _ _ _ (num_fchg h x Hx) (num_fchg h best Hb)).
  destruct (flt (fchg h x) (fchg h best)); now apply IH.
Qed.

(** Two scans that compare alike choose alike. *)
Lemma scan_b_agree {A K1 K2} (k1 : A -> K1) (b1 : K1 -> K1 -> bool)
    (k2 : A -> K2) (b2 : K2 -> K2 -> bool) best l :
  (forall x y, In x (best :: l) -> In y (best :: l) ->
               b1 (k1 x) (k1 y) = b2 (k2 x) (k2 y)) ->
  scan_b k1 b1 best l = scan_b k2 b2 best l.
Proof.
  revert best. induction l as [|x l IH]; intros best H; simpl; [reflexivity|].
  rewrite (H x best) by (simpl; auto).
  destruct (b2 (k2 x) (k2 best)); apply IH; intros a b Ha Hb; apply H;
    simpl in *; tauto.
Qed.

(** Without NaN the scans compare rationals. *)
Lemma scan_b_ordered h (better : Q -> Q -> bool) (fbetter : float -> float -> bool)
    best l :
  (forall a b : Q, fbetter a b = better a b) ->
  ordered_changes h (best :: l) ->
  scan_b (fchg h) fbetter best l = scan_b (chg h) better best l.
Proof.
  intros Hb Hl. apply scan_b_agree. intros x y Hx Hy.
  unfold ordered_changes in Hl. rewrite Forall_forall in Hl.
  rewrite (ordered_fchg h x), (ordered_fchg h y)
    by now apply Hl, list_elem_of_In.
  apply Hb.
Qed.

Lemma scan_b_first {A} (key : A -> Q) (better : Q -> Q -> bool) best l :
  (forall a b c, better a b = true -> better b c = true -> better a c = true) ->
  (forall a b c, better a b = true -> better c b = false -> better a c = true) ->
  exists pre post,
    best :: l = pre ++ scan_b key better best l :: post /\
    Forall (fun x => better (key (scan_b key better best l)) (key x) = true) pre /\
    Forall (fun x => better (key x) (key (scan_b key better best l)) = false) post.
Proof.
  intros Htr Hmix. revert best.
  induction l as [|x l IH]; intros best; simpl.
  - exists [], []. repeat split; constructor.
  - destruct (better (key x) (key best)) eqn:E.
    + destruct (IH x) as (pre & post & Heq & Hpre & Hpost).
      set (r := scan_b key better x l) in *. clearbody r.
      exists (best :: pre), post. split; [simpl; now rewrite <- Heq|].
      split; [|exact Hpost]. constructor; [|exact Hpre].
      destruct pre as [|p pre]; simpl in Heq.
      * injection Heq as Hx _. now rewrite <- Hx.
      * injection Heq as Hx _. subst p.
        inversion Hpre; subst. eauto.
    + destruct (IH best) as (pre & post & Heq & Hpre & Hpost).
      set (r := scan_b key better best l) in *. clearbody r.
      destruct pre as [|p pre]; simpl in Heq.
      * injection Heq as Hb Hl. exists [], (x :: post).
        split; [simpl; now rewrite <- Hb, <- Hl|].
        split; [constructor|]. rewrite <- Hb. constructor; [exact E|].
        now rewrite <- Hb in Hpost.
      * injection Heq as Hb Hl. subst p. exists (best :: x :: pre), post.
        split; [simpl; now rewrite <- Hl|].
        split; [|exact Hpost]. inversion Hpre; subst.
        constructor; [assumption|]. constructor; [|assumption]. eauto.
Qed.

Lemma Qltb_trans (a b c : Q) :
  Qltb a b = true -> Qltb b c = true -> Qltb a c = true.
Proof. rewrite !Qltb_lt. apply Qlt_trans. Qed.

Lemma first_max h best l :
  first_extreme h Qlt (best :: l)
    (scan_b (chg h) (fun x y => Qltb y x) best l).
Proof.
  destruct (scan_b_first (chg h) (fun x y => Qltb y x) best l)
    as (pre & post & Heq & Hpre & Hpost).
  - intros a b c Hab Hbc. eapply Qltb_trans; eassumption.
  - intros a b c Hab Hcb. apply Qltb_lt.
    apply Qltb_lt in Hab. apply Qltb_ge in Hcb.
    eapply Qle_lt_trans; eassumption.
  - exists pre, post. split; [exact Heq|]. split.
    + eapply Forall_impl; [exact Hpre|]. intros x Hx. now apply Qltb_lt.
    + eapply Forall_impl; [exact Hpost|]. intros x Hx.
      apply Qltb_ge in Hx. now apply Qle_not_lt.
Qed.

Lemma first_min h best l :
  first_extreme h (fun x y => (y < x)%Q) (best :: l)
    (scan_b (chg h) Qltb best l).
Proof.
  destruct (scan_b_first (chg h) Qltb best l)
    as (pre & post & Heq & Hpre & Hpost).
  - intros a b c. apply Qltb_trans.
  - intros a b c Hab Hcb. apply Qltb_lt.
    apply Qltb_lt in Hab. apply Qltb_ge in Hcb.
    eapply Qlt_le_trans; eassumption.
  - exists pre, post. split; [exact Heq|]. split.
    + eapply Forall_impl; [exact Hpre|]. intros x Hx. now apply Qltb_lt.
    + eapply Forall_impl; [exact Hpost|]. intros x Hx.
      apply Qltb_ge in Hx. now apply Qle_not_lt.
Qed.

Lemma generate_market_summary_num_run h c data' :
  numeric_changes h (c :: data') ->
  let data := c :: data' in
  let total := Z.of_nat (List.length data) in
  let ng := Z.of_nat (List.length (List.filter (fun x => Qltb 0 (chg h x)) data)) in
  let nl := Z.of_nat (List.length (List.filter (fun x => Qltb (chg h x) 0) data)) in
  let nn := Z.of_nat (List.length
              (List.filter (fun x => py_eq_int (change_val h x) 0) data)) in
  generate_market_summary data h =
    (Ok (<["total_coins" := VInt total]>
        (<["gainers_count" := VInt ng]>
        (<["losers_count" := VInt nl]>
        (<["neutral_count" := VInt nn]>
        (<["gainers_percentage" := VFloat (inject_Z ng / inject_Z total * 100)]>
        (<["losers_percentage" := VFloat (inject_Z nl / inject_Z total * 100)]>
        (<["top_gainer" := VRef (scan_b (fchg h) (fun x y => flt y x) c data')]>
        (<["top_loser" := VRef (scan_b (fchg h) flt c data')]> ∅)))))))), h).
Proof.
  intros Hd data total ng nl nn.
  assert (Hc : is_Some (change_of h c)) by now inversion Hd.
  assert (Hd' : numeric_changes h data') by now inversion Hd.
  unfold generate_market_summary. unfold data at 1. cbv iota. fold data.
  rewrite (bind_ok _ _ _ _ _
             (filterM_pure _ (fun x => Qltb 0 (chg h x)) data h
                (Forall_impl _ _ _ Hd (change_gt0_run h)))).
  rewrite (bind_ok _ _ _ _ _
             (filterM_pure _ (fun x => Qltb (chg h x) 0) data h
                (Forall_impl _ _ _ Hd (change_lt0_run h)))).
  rewrite (bind_ok _ _ _ _ _
             (filterM_pure _ (fun x => py_eq_int (change_val h x) 0) data h
                (Forall_impl _ _ _ Hd (change_eq0_num_run h)))).
  assert (Hmax : py_max change_key data h
                 = (Ok (scan_b (fchg h) (fun x y => flt y x) c data'), h)).
  { unfold py_max, data.
    rewrite (bind_ok _ _ _ _ _ (change_key_run h c Hc)).
    now apply scan_best_gt_run. }
  assert (Hmin : py_min change_key data h
                 = (Ok (scan_b (fchg h) flt c data'), h)).
  { unfold py_min, data.
    rewrite (bind_ok _ _ _ _ _ (change_key_run h c Hc)).
    now apply scan_best_lt_run. }
  rewrite (bind_ok _ _ _ _ _ Hmax), (bind_ok _ _ _ _ _ Hmin).
  fold total ng nl nn.
  assert (Ht : Z.eqb total 0 = false).
  { apply Z.eqb_neq. unfold total, data. simpl List.length. lia. }
  unfold lift, bind, ret, truediv_int. rewrite Ht. reflexivity.
Qed.

(** Without NaN the summary is a matter of rationals. *)
Lemma generate_market_summary_run h c data' :
  ordered_changes h (c :: data') ->
  let data := c :: data' in
  let total := Z.of_nat (List.length data) in
  let ng := Z.of_nat (List.length (List.filter (fun x => Qltb 0 (chg h x)) data)) in
  let nl := Z.of_nat (List.length (List.filter (fun x => Qltb (chg h x) 0) data)) in
  let nn := Z.of_nat (List.length (List.filter (fun x => Qeq_bool (chg h x) 0) data)) in
  generate_market_summary data h =
    (Ok (<["total_coins" := VInt total]>
        (<["gainers_count" := VInt ng]>
        (<["losers_count" := VInt nl]>
        (<["neutral_count" := VInt nn]>
        (<["gainers_percentage" := VFloat (inject_Z ng / inject_Z total * 100)]>
        (<["losers_percentage" := VFloat (inject_Z nl / inject_Z total * 100)]>
        (<["top_gainer" := VRef (scan_b (chg h) (fun x y => Qltb y x) c data')]>
        (<["top_loser" := VRef (scan_b (chg h) Qltb c data')]> ∅)))))))), h).
Proof.
  intros Hd. cbv zeta.
  rewrite (generate_market_summary_num_run h c data' (ordered_numeric _ _ Hd)).
  rewrite (scan_b_ordered h (fun x y => Qltb y x) (fun x y => flt y x) c data')
    by (reflexivity || exact Hd).
  rewrite (scan_b_ordered h Qltb flt c data') by (reflexivity || exact Hd).
  rewrite (List.filter_ext_in (fun x => py_eq_int (change_val h x) 0)
             (fun x => Qeq_bool (chg h x) 0) (c :: data')); [reflexivity|].
  intros x Hx. apply py_eq_int_ordered.
  unfold ordered_changes in Hd. rewrite Forall_forall in Hd.
  now apply Hd, list_elem_of_In.
Qed.

Lemma sign_partition {A} (key : A -> Q) (l : list A) :
  (List.length (List.filter (fun x => Qltb 0 (key x)) l)
   + List.length (List.filter (fun x => Qltb (key x) 0) l)
   + List.length (List.filter (fun x => Qeq_bool (key x) 0) l)
   = List.length l)%nat.
Proof.
  induction l as [|x l IH]; simpl; [reflexivity|].
  destruct (Qltb 0 (key x)) eqn:Hp, (Qltb (key x) 0) eqn:Hn,
           (Qeq_bool (key x) 0) eqn:Hz; simpl; try lia; exfalso;
    repeat match goal with
      | H : Qltb _ _ = true |- _ => apply Qltb_lt in H
      | H : Qltb _ _ = false |- _ => apply Qltb_ge in H
      | H : Qeq_bool _ _ = true |- _ => apply Qeq_bool_eq in H
      | H : Qeq_bool _ _ = false |- _ => apply Qeq_bool_neq in H
      end; lra.
Qed.

Lemma generate_market_summary_returns h data :
  numeric_changes h data ->
  exists summary, generate_market_summary data h = (Ok summary, h).
Proof.
  intros Hd. destruct data as [|c data'].
  - now exists ∅.
  - eexists. now apply generate_market_summary_num_run.
Qed.

(** C4, as the code has it.  On records whose 24h change is a number
    and not NaN, the summary of a non-empty input carries the number of
    records and the numbers of those with a change above, below and equal
    to zero, and the three add up to the total; for the empty input no
    summary is produced (the result is the empty dictionary). *)
Theorem summary_counts_partition h data :
  ordered_changes h data ->
  exists summary,
    generate_market_summary data h = (Ok summary, h) /\
    (data = [] -> summary = ∅) /\
    (data <> [] ->
     exists total g l n : nat,
       summary !! "total_coins" = Some (VInt (Z.of_nat total)) /\
       summary !! "gainers_count" = Some (VInt (Z.of_nat g)) /\
       summary !! "losers_count" = Some (VInt (Z.of_nat l)) /\
       summary !! "neutral_count" = Some (VInt (Z.of_nat n)) /\
       total = List.length data /\
       g = List.length (List.filter (fun c => Qltb 0 (chg h c)) data) /\
       l = List.length (List.filter (fun c => Qltb (chg h c) 0) data) /\
       n = List.length (List.filter (fun c => Qeq_bool (chg h c) 0) data) /\
       (g + l + n = total)%nat).
Proof.
  intros Hd. destruct data as [|c data'].
  - exists ∅. split; [reflexivity|]. split; [reflexivity|]. now intros [].
  - eexists. split; [now apply generate_market_summary_run|].
    split; [discriminate|]. intros _.
    eexists _, _, _, _.
    split; [reflexivity|]. split; [reflexivity|]. split; [reflexivity|].
    split; [reflexivity|]. split; [reflexivity|]. split; [reflexivity|].
    split; [reflexivity|]. split; [reflexivity|].
    apply sign_partition.
Qed.

(** C5, as the code has it.  On a non-empty input whose 24h changes are
    numbers, none of them NaN, [top_gainer] is the first record of the
    input whose change is maximal and [top_loser] the first whose change
    is minimal: every record before it has a strictly smaller (larger)
    change and no record after it a larger (smaller) one. *)
Theorem summary_top_first h data :
  ordered_changes h data -> data <> [] ->
  exists summary top_gainer top_loser,
    generate_market_summary data h = (Ok summary, h) /\
    summary !! "top_gainer" = Some (VRef top_gainer) /\
    summary !! "top_loser" = Some (VRef top_loser) /\
    first_extreme h Qlt data top_gainer /\
    first_extreme h (fun x y => (y < x)%Q) data top_loser.
Proof.
  intros Hd Hne. destruct data as [|c data']; [congruence|].
  eexists _, _, _. split; [now apply generate_market_summary_run|].
  split; [reflexivity|]. split; [reflexivity|].
  split; [apply first_max|apply first_min].
Qed.

(** C4 does not hold as stated.  A raw record whose percentage is the
    text ["nan"] passes the Enhancer and the Normalizer and arrives with
    a NaN change.  NaN is neither above, nor below, nor equal to zero:
    the summary of the two normalized records counts one gainer, no loser
    and no neutral record, which do not add up to [total_coins = 2]. *)
Lemma summary_counts_miss_nan :
  let normalized :=
    bind (add_enhanced_columns float_literal "04-11-2026" [0; 1]%nat)
         process_crypto_data nan_heap in
  let summary := fst (generate_market_summary [2; 3]%nat (snd normalized)) in
  fst normalized = Ok [2; 3]%nat /\
  change_of (snd normalized) 2%nat = Some NaN /\
  change_of (snd normalized) 3%nat = Some (Fin 5) /\
  match summary with
  | Ok s =>
      s !! "total_coins" = Some (VInt 2) /\
      s !! "gainers_count" = Some (VInt 1) /\
      s !! "losers_count" = Some (VInt 0) /\
      s !! "neutral_count" = Some (VInt 0)
  | Raise _ => False
  end /\
  1 + 0 + 0 <> 2.
Proof. vm_compute. repeat split. discriminate. Qed.

(** C5 does not hold as stated.  On the same two records, the one with
    the NaN change first, [max] and [min] both keep the first record,
    since no change compares above or below NaN: [top_gainer] and
    [top_loser] are the same record, and its change is not the greatest,
    the other change being 5.  With the two records in the other order
    both are the other record: the choice depends on the order although
    no two changes are equal. *)
Lemma summary_top_keeps_nan :
  let h := nan_normalized_heap in
  let first := fst (generate_market_summary [2; 3]%nat h) in
  let swapped := fst (generate_market_summary [3; 2]%nat h) in
  change_of h 2%nat = Some NaN /\
  change_of h 3%nat = Some (Fin 5) /\
  py_lt (change_val h 2%nat) (change_val h 3%nat) = Ok false /\
  py_gt (change_val h 2%nat) (change_val h 3%nat) = Ok false /\
  match first with
  | Ok s => s !! "top_gainer" = Some (VRef 2%nat) /\
            s !! "top_loser" = Some (VRef 2%nat)
  | Raise _ => False
  end /\
  match swapped with
  | Ok s => s !! "top_gainer" = Some (VRef 3%nat) /\
            s !! "top_loser" = Some (VRef 3%nat)
  | Raise _ => False
  end.
Proof. vm_compute. repeat split. Qed.

(** C7, as the code has it.  On the empty input the Summarizer returns
    the empty dictionary without raising and without touching the heap:
    the result has no field at all, so no percentage either, and no
    division is evaluated. *)
Theorem summary_empty_input h :
  generate_market_summary [] h = (Ok ∅, h) /\
  (∅ : gmap string val) !! "gainers_percentage" = None /\
  (∅ : gmap string val) !! "losers_percentage" = None.
Proof. repeat split. Qed.

(** C7 does not hold as stated: the summary of the empty input has no
    [gainers_percentage] that could be zero. *)
Lemma summary_empty_no_percentage :
  ~ exists summary v,
      fst (generate_market_summary [] []) = Ok summary /\
      summary !! "gainers_percentage" = Some v /\
      py_eq_int v 0 = true.
Proof.
  intros (summary & v & Hrun & Hv & _). simpl in Hrun.
  injection Hrun as <-. discriminate.
Qed.

(** ** The Ranker and the Summarizer on the shared records *)

Lemma field_lookup h c k d : h !! c = Some d -> field h c k = d !! k.
Proof. unfold field. now intros ->. Qed.

Lemma numeric_changes_set_ranks k start l h data :
  k <> "price_change_24h" ->
  numeric_changes h data -> numeric_changes (set_ranks k start l h) data.
Proof.
  intros Hk Hd. eapply Forall_impl; [exact Hd|]. intros c Hc.
  unfold change_of, change_val in *. now rewrite set_ranks_field_ne.
Qed.

Lemma rank_and_summarize_run h data lg ll :
  numeric_changes h data ->
  exists gainers losers summary,
    let hg := set_ranks "gainer_rank" 1 gainers h in
    let hl := set_ranks "loser_rank" 1 losers hg in
    rank_and_summarize data lg ll h = (Ok (gainers, losers, summary), hl).
Proof.
  intros Hd. unfold rank_and_summarize.
  rewrite (bind_ok _ _ _ _ _ (get_top_gainers_run h data lg Hd)).
  set (gainers := slice_to lg (gainers_sorted h data)).
  set (hg := set_ranks "gainer_rank" 1 gainers h).
  assert (Hg : numeric_changes hg data)
    by now apply numeric_changes_set_ranks.
  rewrite (bind_ok _ _ _ _ _ (get_top_losers_run hg data ll Hg)).
  set (losers := slice_to ll (losers_sorted hg data)).
  set (hl := set_ranks "loser_rank" 1 losers hg).
  assert (Hl : numeric_changes hl data)
    by now apply numeric_changes_set_ranks.
  destruct (generate_market_summary_returns hl data Hl) as [summary Hs].
  rewrite (bind_ok _ _ _ _ _ Hs). now exists gainers, losers, summary.
Qed.

(** C8, as the code has it.  The lists the Ranker returns hold the same
    objects as the normalized sequence, and the Ranker writes into them:
    every record returned by [get_top_gainers] gains a [gainer_rank] and
    every record returned by [get_top_losers] a [loser_rank].  Nothing
    else changes: every other field of every record keeps its value, a
    record in neither subset is left as it was, and the Summarizer writes
    nothing. *)
Theorem ranker_summarizer_frame h data lg ll :
  numeric_changes h data ->
  exists gainers losers summary h',
    rank_and_summarize data lg ll h = (Ok (gainers, losers, summary), h') /\
    forall c d, h !! c = Some d ->
      exists d', h' !! c = Some d' /\
        (forall k, k <> "gainer_rank" -> k <> "loser_rank" -> d' !! k = d !! k) /\
        (In c gainers -> exists n, d' !! "gainer_rank" = Some (VInt n)) /\
        (In c losers -> exists n, d' !! "loser_rank" = Some (VInt n)) /\
        (~ In c gainers -> ~ In c losers -> d' = d).
Proof.
  intros Hd.
  destruct (rank_and_summarize_run h data lg ll Hd)
    as (gainers & losers & summary & Hrun).
  simpl in Hrun.
  set (hg := set_ranks "gainer_rank" 1 gainers h) in *.
  set (hl := set_ranks "loser_rank" 1 losers hg) in *.
  exists gainers, losers, summary, hl. split; [exact Hrun|].
  intros c d Hc.
  assert (Hcg : is_Some (hg !! c)) by (apply set_ranks_is_Some; eauto).
  assert (Hcl : is_Some (hl !! c)) by now apply set_ranks_is_Some.
  destruct Hcl as [d' Hd']. exists d'. split; [exact Hd'|].
  split; [|split; [|split]].
  - intros k Hkg Hkl.
    rewrite <- (field_lookup hl c k d' Hd'), <- (field_lookup h c k d Hc).
    unfold hl, hg. rewrite !set_ranks_field_ne by congruence. reflexivity.
  - intros Hin. rewrite <- (field_lookup hl c _ d' Hd').
    unfold hl. rewrite set_ranks_field_ne by discriminate.
    apply set_ranks_field_in; eauto.
  - intros Hin. rewrite <- (field_lookup hl c _ d' Hd').
    now apply set_ranks_field_in.
  - intros Hng Hnl. unfold hl, hg in Hd'.
    rewrite !set_ranks_notin in Hd' by assumption. congruence.
Qed.

(** C8 does not hold as stated: in the scenario of the specification the
    normalized record of btc has no [gainer_rank] before the Ranker runs
    and has one afterwards. *)
Lemma ranker_writes_normalized_record :
  let normalized :=
    bind (add_enhanced_columns float_literal "04-11-2026" scenario_data)
         process_crypto_data scenario_heap in
  let ranked := get_top_gainers [3; 4; 5]%nat 10 (snd normalized) in
  fst normalized = Ok [3; 4; 5]%nat /\
  fst ranked = Ok [3%nat] /\
  field (snd normalized) 3%nat "id" = Some (VStr "btc") /\
  field (snd normalized) 3%nat "gainer_rank" = None /\
  field (snd ranked) 3%nat "gainer_rank" = Some (VInt 1).
Proof. vm_compute. repeat split. Qed.

(** ** The Enhancer *)

(** The loop body of [add_enhanced_columns]. *)
Lemma enhance_body_ok fos today c h f :
  is_Some (h !! c) ->
  (forall l, percentage h c <> VRef l) ->
  enhance_change fos (percentage h c) = Ok f ->
  enhance_coin fos today c h
  = (Ok tt, alter (enhance_dict today f) c h).
Proof.
  intros [d Hd] Hnr Hf. unfold enhance_coin.
  rewrite (bind_ok _ _ _ _ _ (dict_get_run h c _ VNone d Hd)).
  assert (Hp : default VNone (d !! "price_change_percentage_24h")
               = percentage h c).
  { unfold percentage. now rewrite (field_lookup h c _ d Hd). }
  rewrite Hp.
  rewrite (bind_ok _ _ _ _ _ (setitem_run h c _ _ (ex_intro _ d Hd))).
  set (h1 := alter (insert "date" (VStr today)) c h).
  rewrite (bind_ok _ _ _ _ _ (truthy_truth h1 _ Hnr)).
  assert (Hf' : (if truth (percentage h c)
                 then lift (py_float fos (percentage h c)) else ret (Fin 0)) h1
                = (Ok f, h1)).
  { unfold enhance_change in Hf.
    destruct (truth (percentage h c)); unfold lift, ret; congruence. }
  rewrite (bind_ok _ _ _ _ _ Hf').
  assert (H1 : is_Some (h1 !! c)) by (apply alter_is_Some; eauto).
  rewrite (bind_ok _ _ _ _ _ (setitem_run h1 c _ _ H1)).
  set (h2 := alter (insert "price_change_24h" (VFloat f)) c h1).
  assert (H2 : is_Some (h2 !! c)) by now apply alter_is_Some.
  rewrite (bind_ok _ _ _ _ _
             (getitem_field h2 c _ _ (field_set_eq h1 c _ (VFloat f) H1))).
  unfold lift at 1, bind at 1, py_gt.
  rewrite (py_lt_num (VInt 0) (VFloat f) 0%Q f eq_refl eq_refl).
  rewrite (setitem_run h2 c _ _ H2). f_equal.
  unfold h2, h1. apply list_eq. intros i.
  destruct (decide (i = c)) as [->|Hi].
  - rewrite !list_lookup_alter_eq. now destruct (h !! c).
  - now rewrite !list_lookup_alter_ne by congruence.
Qed.

Lemma enhance_body_raise fos today c h e :
  is_Some (h !! c) ->
  (forall l, percentage h c <> VRef l) ->
  enhance_change fos (percentage h c) = Raise e ->
  enhance_coin fos today c h
  = (Raise e, alter (insert "date" (VStr today)) c h).
Proof.
  intros [d Hd] Hnr Hf. unfold enhance_coin.
  rewrite (bind_ok _ _ _ _ _ (dict_get_run h c _ VNone d Hd)).
  assert (Hp : default VNone (d !! "price_change_percentage_24h")
               = percentage h c).
  { unfold percentage. now rewrite (field_lookup h c _ d Hd). }
  rewrite Hp.
  rewrite (bind_ok _ _ _ _ _ (setitem_run h c _ _ (ex_intro _ d Hd))).
  set (h1 := alter (insert "date" (VStr today)) c h).
  rewrite (bind_ok _ _ _ _ _ (truthy_truth h1 _ Hnr)).
  apply bind_raise.
  unfold enhance_change in Hf.
  destruct (truth (percentage h c)); unfold lift, ret; congruence.
Qed.

Lemma percentage_alter h c c' (g : gmap string val -> gmap string val) :
  (forall d, g d !! "price_change_percentage_24h"
             = d !! "price_change_percentage_24h") ->
  percentage (alter g c h) c' = percentage h c'.
Proof.
  intros Hg. unfold percentage, field.
  destruct (decide (c = c')) as [->|Hne].
  - rewrite list_lookup_alter_eq. destruct (h !! c'); simpl; [|reflexivity].
    now rewrite Hg.
  - now rewrite list_lookup_alter_ne.
Qed.

Lemma percentage_enhance today f h c c' :
  percentage (alter (enhance_dict today f) c h) c' = percentage h c'.
Proof.
  apply percentage_alter. intros d. unfold enhance_dict.
  now rewrite !lookup_insert_ne by discriminate.
Qed.

Lemma enhanceable_alter fos today f h c c' :
  enhanceable fos h c' ->
  enhanceable fos (alter (enhance_dict today f) c h) c'.
Proof.
  unfold enhanceable. rewrite percentage_enhance, alter_is_Some. tauto.
Qed.

(** The loop on records that are all enhanceable. *)
Lemma enhance_forM fos today l h :
  Forall (enhanceable fos h) l ->
  exists h',
    forM_ l (enhance_coin fos today) h = (Ok tt, h') /\
    (forall c, percentage h' c = percentage h c) /\
    (forall c, is_Some (h' !! c) <-> is_Some (h !! c)) /\
    (forall c, ~ In c l -> h' !! c = h !! c) /\
    (forall c, In c l ->
       exists f, enhance_change fos (percentage h c) = Ok f /\
         field h' c "price_change_24h" = Some (VFloat f) /\
         field h' c "change_symbol"
           = Some (VStr (if flt 0 f then "UP" else "DOWN")) /\
         field h' c "date" = Some (VStr today)).
Proof.
  revert h. induction l as [|c0 l IH]; intros h Hl.
  - exists h. repeat split; try tauto. now intros c [].
  - inversion Hl as [|? ? Hc0 Hl']; subst.
    destruct Hc0 as (Hv & Hnr & f0 & Hf0).
    set (h1 := alter (enhance_dict today f0) c0 h).
    destruct (IH h1) as (h' & Hrun & Hpct & Hsome & Hframe & Hin).
    { eapply Forall_impl; [exact Hl'|]. intros c. apply enhanceable_alter. }
    exists h'. simpl forM_.
    rewrite (bind_ok _ _ _ _ _ (enhance_body_ok fos today c0 h f0 Hv Hnr Hf0)).
    split; [exact Hrun|]. split; [|split; [|split]].
    + intros c. rewrite Hpct. apply percentage_enhance.
    + intros c. rewrite Hsome. apply alter_is_Some.
    + intros c Hc. rewrite Hframe by (simpl in Hc; tauto).
      apply list_lookup_alter_ne. simpl in Hc. tauto.
    + intros c Hc. destruct (in_dec Nat.eq_dec c l) as [Hcl|Hcl].
      * destruct (Hin c Hcl) as (f & Hf & Hrest). exists f.
        split; [|exact Hrest].
        now rewrite <- (percentage_enhance today f0 h c0 c).
      * destruct Hc as [->|Hc]; [|contradiction].
        exists f0. split; [exact Hf0|].
        unfold field. rewrite (Hframe c Hcl). unfold h1.
        rewrite list_lookup_alter_eq. destruct Hv as [d ->]. simpl.
        unfold enhance_dict. repeat split; now simplify_map_eq.
Qed.

Lemma enhance_loop fos today l h :
  Forall (enhanceable fos h) l ->
  exists h',
    add_enhanced_columns fos today l h = (Ok l, h') /\
    (forall c, percentage h' c = percentage h c) /\
    (forall c, is_Some (h' !! c) <-> is_Some (h !! c)) /\
    (forall c, ~ In c l -> h' !! c = h !! c) /\
    (forall c, In c l ->
       exists f, enhance_change fos (percentage h c) = Ok f /\
         field h' c "price_change_24h" = Some (VFloat f) /\
         field h' c "change_symbol"
           = Some (VStr (if flt 0 f then "UP" else "DOWN")) /\
         field h' c "date" = Some (VStr today)).
Proof.
  intros Hl. destruct (enhance_forM fos today l h Hl) as (h' & Hrun & Hrest).
  exists h'. split; [|exact Hrest].
  unfold add_enhanced_columns. now rewrite (bind_ok _ _ _ _ _ Hrun).
Qed.

Lemma forM_app {A} (body : A -> M unit) (l1 l2 : list A) h :
  forM_ (l1 ++ l2) body h = bind (forM_ l1 body) (fun _ => forM_ l2 body) h.
Proof.
  revert h. induction l1 as [|x l1 IH]; intros h; simpl; [reflexivity|].
  unfold bind in *. destruct (body x h) as [[u|e] h1]; [apply IH|reflexivity].
Qed.



Lemma flt_above f : flt 0 f = true <-> above_zero f.
Proof.
  destruct f as [q|]; simpl; [apply Qltb_lt|]. split; [discriminate|tauto].
Qed.



(** C6, as the code has it.  When the first record of the batch that
    cannot be enhanced has a non-empty string [s] that [float()] rejects
    as its percentage field, the Enhancer raises the [ValueError] of
    [float()], which carries the text [s] and names neither the record
    nor the field.  The loop stops there, but what it wrote stays
    written: the records before the offending one are enhanced, the
    offending one has its date and no derived change, and every other
    record is as it was. *)
Theorem enhancer_unparseable_string fos today pre c post h s :
  Forall (enhanceable fos h) pre ->
  field h c "price_change_percentage_24h" = Some (VStr s) ->
  s <> "" -> fos s = None ->
  exists h',
    add_enhanced_columns fos today (pre ++ c :: post) h
      = (Raise (ValueError s), h') /\
    (forall c', In c' pre ->
       exists f, field h' c' "price_change_24h" = Some (VFloat f) /\
                 field h' c' "date" = Some (VStr today)) /\
    field h' c "date" = Some (VStr today) /\
    field h' c "price_change_24h" = field h c "price_change_24h" /\
    (forall c', ~ In c' pre -> c' <> c -> h' !! c' = h !! c').
Proof.
  intros Hpre Hs Hne Hfos.
  assert (Hp : percentage h c = VStr s) by (unfold percentage; now rewrite Hs).
  assert (Hraise : enhance_change fos (VStr s) = Raise (ValueError s)).
  { unfold enhance_change. simpl. rewrite Hfos.
    destruct (String.eqb_spec s ""); [contradiction|reflexivity]. }
  assert (Hnotin : ~ In c pre).
  { intros Hin. unfold enhanceable in Hpre. rewrite Forall_forall in Hpre.
    destruct (Hpre c) as (_ & _ & f & Hf); [now apply list_elem_of_In|].
    rewrite Hp in Hf. congruence. }
  destruct (enhance_forM fos today pre h Hpre)
    as (h1 & Hrun & Hpct & Hsome & Hframe & Hin).
  assert (Hv1 : is_Some (h1 !! c)).
  { apply Hsome. unfold field in Hs. destruct (h !! c); [eauto|discriminate]. }
  exists (alter (insert "date" (VStr today)) c h1). split; [|split; [|split; [|split]]].
  - unfold add_enhanced_columns. apply bind_raise.
    rewrite forM_app, (bind_ok _ _ _ _ _ Hrun). simpl forM_.
    apply bind_raise. apply enhance_body_raise; [exact Hv1| |].
    + rewrite Hpct, Hp. discriminate.
    + now rewrite Hpct, Hp.
  - intros c' Hc'. destruct (Hin c' Hc') as (f & _ & Hpc & _ & Hdate).
    exists f. assert (c <> c') by (intros ->; contradiction).
    now rewrite !field_alter_ne.
  - now apply field_set_eq.
  - rewrite field_set_ne by discriminate.
    unfold field. now rewrite (Hframe c Hnotin).
  - intros c' Hc' Hcc. rewrite list_lookup_alter_ne by congruence.
    now apply Hframe.
Qed.

(** C6 does not hold as stated.  A batch of two records, the second with
    the percentage ["abc"]: the Enhancer raises a [ValueError] that holds
    the text and nothing of the record, and the first record is enhanced
    all the same. *)
Lemma enhancer_raises_value_error :
  let run :=
    add_enhanced_columns float_literal "04-11-2026" [0; 1]%nat
      [raw_btc; raw_doge] in
  fst run = Raise (ValueError "abc") /\
  field (snd run) 0%nat "price_change_24h" = Some (VFloat (52 # 10)) /\
  field (snd run) 0%nat "change_symbol" = Some (VStr "UP") /\
  field (snd run) 1%nat "date" = Some (VStr "04-11-2026") /\
  field (snd run) 1%nat "price_change_24h" = None.
Proof. vm_compute. repeat split. Qed.

(** ** The Normalizer *)

Lemma project_coin_run h c d pd :
  h !! c = Some d -> project_dict d = Ok pd ->
  project_coin c h = (Ok (List.length h), h ++ [pd]).
Proof.
  intros Hd Hpd. unfold project_coin, project_dict in *.
  rewrite !(bind_ok _ _ _ _ _ (dict_get_run h c _ _ d Hd)).
  destruct (str_upper (default (VStr "") (d !! "symbol"))) as [v|e];
    [|discriminate].
  simpl in Hpd. injection Hpd as <-.
  unfold lift at 1, bind at 1.
  rewrite !(bind_ok _ _ _ _ _ (dict_get_run h c _ _ d Hd)).
  reflexivity.
Qed.

Lemma normalizable_project h c :
  normalizable h c ->
  exists d, h !! c = Some d /\ project_dict d = Ok (projected d).
Proof.
  intros (d & Hd & _ & s & Hs). exists d. split; [exact Hd|].
  unfold projected, project_dict. now rewrite Hs.
Qed.

Lemma normalizable_app h l c : normalizable h c -> normalizable (h ++ l) c.
Proof.
  intros (d & Hd & Hrest). exists d. split; [|exact Hrest].
  now apply lookup_app_l_Some.
Qed.

Lemma contents_app h l data :
  Forall (fun c => is_Some (h !! c)) data ->
  contents (h ++ l) data = contents h data.
Proof.
  intros Hd. unfold contents. apply map_ext_Forall.
  eapply Forall_impl; [exact Hd|]. intros c [d Hc]. simpl.
  now rewrite (lookup_app_l_Some h l c d Hc), Hc.
Qed.

Lemma mapM_project h data :
  Forall (normalizable h) data ->
  mapM project_coin data h
  = (Ok (seq (List.length h) (List.length data)),
     h ++ map projected (contents h data)).
Proof.
  revert h. induction data as [|c data IH]; intros h Hd; simpl.
  - now rewrite app_nil_r.
  - inversion Hd as [|? ? Hc Hd']; subst.
    destruct (normalizable_project h c Hc) as (d & Hl & Hp).
    rewrite (bind_ok _ _ _ _ _ (project_coin_run h c d _ Hl Hp)).
    assert (Hd1 : Forall (normalizable (h ++ [projected d])) data).
    { eapply Forall_impl; [exact Hd'|]. intros c'. apply normalizable_app. }
    rewrite (bind_ok _ _ _ _ _ (IH (h ++ [projected d]) Hd1)).
    unfold ret. rewrite length_app. simpl List.length.
    rewrite Nat.add_1_r, <- app_assoc. simpl. rewrite Hl. simpl.
    rewrite contents_app; [reflexivity|].
    eapply Forall_impl; [exact Hd'|]. intros c' (d' & Hc' & _). eauto.
Qed.

Lemma rank_key_run h x :
  ranked h x ->
  rank_key x h
  = (Ok (rank_sort_key (default VNone (default ∅ (h !! x) !! "rank"))), h).
Proof.
  intros (d & r & Hd & Hr & Hrank). unfold rank_key.
  assert (Hf : field h x "rank" = Some r)
    by now rewrite (field_lookup h x _ d Hd).
  rewrite (bind_ok _ _ _ _ _ (getitem_field h x _ r Hf)).
  assert (Hnr : forall l, r <> VRef l) by (intros l ->; exact Hrank).
  rewrite (bind_ok _ _ _ _ _ (truthy_truth h r Hnr)).
  rewrite Hd. simpl. rewrite Hr. simpl. unfold rank_sort_key.
  destruct (truth r); [|reflexivity].
  now rewrite (bind_ok _ _ _ _ _ (getitem_field h x _ r Hf)).
Qed.

Lemma lt_key_num a b :
  (forall v, a = KVal v -> is_Some (rat v)) ->
  (forall v, b = KVal v -> is_Some (rat v)) ->
  lt_key a b = Ok (xltb (key_num a) (key_num b)).
Proof.
  intros Ha Hb. destruct a as [x|], b as [y|]; simpl; try reflexivity.
  - destruct (Ha x eq_refl) as [qx Hx], (Hb y eq_refl) as [qy Hy].
    rewrite (py_lt_rat x y qx qy Hx Hy). now rewrite Hx, Hy.
  - destruct (Ha x eq_refl) as [qx Hx]. now rewrite Hx, (rat_num x qx Hx).
  - destruct (Hb y eq_refl) as [qy Hy]. now rewrite (rat_num y qy Hy).
Qed.

Lemma rank_sort_key_num r v :
  is_rank r -> rank_sort_key r = KVal v -> is_Some (rat v).
Proof.
  unfold rank_sort_key. destruct r; simpl; try contradiction.
  - discriminate.
  - intros _. destruct (negb (Z.eqb n 0)); [|discriminate].
    intros [= <-]. simpl. eauto.
Qed.

Lemma rank_sorted_run h l :
  Forall (ranked h) l ->
  py_sorted rank_key lt_key false l h
  = (Ok (isort_b (fun a b => xltb (rank_of (default ∅ (h !! a)))
                                  (rank_of (default ∅ (h !! b)))) l), h).
Proof.
  intros Hl.
  pose proof (py_sorted_pure rank_key lt_key
           (fun x => rank_sort_key (default VNone (default ∅ (h !! x) !! "rank")))
           (fun a b => xltb (key_num a) (key_num b))
           (fun k => forall v, k = KVal v -> is_Some (rat v)) false l h) as H.
  unfold sorted_b in H. apply H; clear H.
  - eapply Forall_impl; [exact Hl|]. intros x. apply rank_key_run.
  - intros a b. apply lt_key_num.
  - eapply Forall_impl; [exact Hl|]. intros x (d & r & Hd & Hr & Hrank) v.
    rewrite Hd. simpl. rewrite Hr. simpl. now apply rank_sort_key_num.
Qed.

Lemma contents_alter_notin h c l (g : gmap string val -> gmap string val) :
  ~ In c l -> contents (alter g c h) l = contents h l.
Proof.
  intros Hc. unfold contents. apply map_ext_in. intros x Hx.
  rewrite list_lookup_alter_ne; [reflexivity|]. intros ->. contradiction.
Qed.

Lemma contents_set_ranks start l h :
  NoDup l -> Forall (fun c => is_Some (h !! c)) l ->
  contents (set_ranks "number" start l h) l
  = number_from start (contents h l).
Proof.
  revert start h. induction l as [|c l IH]; intros start h Hnd Hv;
    [reflexivity|].
  apply NoDup_cons in Hnd as [Hc Hnd]. rewrite list_elem_of_In in Hc.
  inversion Hv as [|? ? [d Hd] Hv']; subst. simpl. f_equal.
  - rewrite set_ranks_notin by exact Hc.
    now rewrite list_lookup_alter_eq, Hd.
  - rewrite IH; [|exact Hnd|].
    + now rewrite contents_alter_notin.
    + eapply Forall_impl; [exact Hv'|]. intros c'. apply alter_is_Some.
Qed.

Lemma contents_fresh (h : heap) (l : list (gmap string val)) :
  contents (h ++ l) (seq (List.length h) (List.length l)) = l.
Proof.
  revert h. induction l as [|d l IH]; intros h; [reflexivity|].
  simpl. f_equal.
  - now rewrite list_lookup_middle.
  - specialize (IH (h ++ [d])). rewrite length_app in IH. simpl in IH.
    rewrite Nat.add_1_r, <- app_assoc in IH. exact IH.
Qed.

Lemma fresh_Forall (P : gmap string val -> Prop) (h : heap) l :
  Forall P l ->
  Forall (fun x => exists d, (h ++ l) !! x = Some d /\ P d)
    (seq (List.length h) (List.length l)).
Proof.
  intros Hl. revert h. induction Hl as [|d l Hd Hl IH]; intros h;
    [constructor|].
  simpl. constructor.
  - exists d. split; [apply list_lookup_middle; reflexivity|exact Hd].
  - specialize (IH (h ++ [d])). rewrite length_app in IH. simpl in IH.
    rewrite Nat.add_1_r, <- app_assoc in IH. exact IH.
Qed.

Lemma projected_ranked h data :
  Forall (normalizable h) data ->
  Forall (fun d => exists r, d !! "rank" = Some r /\ is_rank r)
    (map projected (contents h data)).
Proof.
  intros Hd. unfold contents. rewrite map_map. apply Forall_map.
  eapply Forall_impl; [exact Hd|].
  intros c (d & Hc & Hrank & s & Hs). simpl. rewrite Hc. simpl.
  exists (default VNone (d !! "market_cap_rank")). split; [|exact Hrank].
  unfold projected, project_dict. now rewrite Hs.
Qed.

Lemma process_crypto_data_run h data :
  Forall (normalizable h) data ->
  let h1 := h ++ map projected (contents h data) in
  let out := isort_b (fun a b => xltb (rank_of (default ∅ (h1 !! a)))
                                      (rank_of (default ∅ (h1 !! b))))
               (seq (List.length h) (List.length data)) in
  process_crypto_data data h = (Ok out, set_ranks "number" 1 out h1).
Proof.
  intros Hd h1 out. unfold process_crypto_data.
  rewrite (bind_ok _ _ _ _ _ (mapM_project h data Hd)). fold h1.
  assert (Hlen : List.length (map projected (contents h data))
                 = List.length data)
    by (unfold contents; now rewrite !length_map).
  assert (Hfresh : Forall (fun x => exists d, h1 !! x = Some d /\
                     exists r, d !! "rank" = Some r /\ is_rank r)
                     (seq (List.length h) (List.length data))).
  { rewrite <- Hlen. apply fresh_Forall. now apply projected_ranked. }
  assert (Hranked : Forall (ranked h1) (seq (List.length h) (List.length data))).
  { eapply Forall_impl; [exact Hfresh|].
    intros x (d & Hx & r & Hr & Hrank). now exists d, r. }
  rewrite (bind_ok _ _ _ _ _ (rank_sorted_run h1 _ Hranked)). fold out.
  assert (Hv : Forall (fun c => is_Some (h1 !! c)) out).
  { apply Forall_forall. intros x Hx. apply list_elem_of_In in Hx.
    apply (Permutation_in _ (isort_b_perm _ _)) in Hx.
    rewrite Forall_forall in Hfresh.
    destruct (Hfresh x) as (d & Hd' & _); [now apply list_elem_of_In|eauto]. }
  now rewrite (bind_ok _ _ _ _ _ (set_ranks_run "number" 1 out h1 Hv)).
Qed.

(** The Normalizer on the heap computes [normalize] on the content of
    its input, in fresh records, and leaves the records of its input as
    they were. *)
Lemma process_crypto_data_normalize h data :
  Forall (normalizable h) data ->
  exists out h',
    process_crypto_data data h = (Ok out, h') /\
    contents h' out = normalize (contents h data) /\
    (forall c, is_Some (h !! c) -> h' !! c = h !! c) /\
    NoDup out /\
    Forall (fun o => is_Some (h' !! o)) out.
Proof.
  intros Hd. pose proof (process_crypto_data_run h data Hd) as Hrun.
  cbv zeta in Hrun.
  set (h1 := h ++ map projected (contents h data)) in *.
  set (locs := seq (List.length h) (List.length data)) in *.
  set (out := isort_b (fun a b => xltb (rank_of (default ∅ (h1 !! a)))
                                       (rank_of (default ∅ (h1 !! b)))) locs) in *.
  assert (Hlen : List.length (map projected (contents h data))
                 = List.length data)
    by (unfold contents; now rewrite !length_map).
  assert (Hperm : Permutation out locs) by apply isort_b_perm.
  assert (Hnd : NoDup out) by (rewrite Hperm; apply NoDup_seq).
  assert (Hv : Forall (fun c => is_Some (h1 !! c)) out).
  { rewrite Hperm. apply Forall_forall. intros x Hx.
    apply elem_of_seq in Hx. apply lookup_lt_is_Some.
    unfold h1. rewrite length_app, Hlen. lia. }
  exists out, (set_ranks "number" 1 out h1).
  split; [exact Hrun|]. split; [|split; [|split]].
  - rewrite contents_set_ranks by assumption. unfold normalize. f_equal.
    unfold contents at 1, out.
    rewrite <- (isort_b_map _ (fun a b => xltb (rank_of a) (rank_of b)))
      by reflexivity.
    f_equal. fold (contents h1 locs). unfold h1, locs.
    rewrite <- Hlen. apply contents_fresh.
  - intros c Hc. rewrite set_ranks_notin.
    + destruct Hc as [d Hc]. unfold h1. rewrite Hc.
      now apply lookup_app_l_Some.
    + intros Hin. apply (Permutation_in _ Hperm), list_elem_of_In in Hin.
      apply elem_of_seq in Hin. apply lookup_lt_is_Some in Hc. lia.
  - exact Hnd.
  - eapply Forall_impl; [exact Hv|]. intros c. apply set_ranks_is_Some.
Qed.

(** ** The order of the Normalizer's output *)

Lemma StronglySorted_lookup {A} (R : A -> A -> Prop) (l : list A) i j a b :
  StronglySorted R l -> (i < j)%nat ->
  l !! i = Some a -> l !! j = Some b -> R a b.
Proof.
  intros Hs. revert i j. induction Hs as [|x l Hs IH Hx]; intros i j Hij Hi Hj;
    [discriminate|].
  destruct j as [|j]; [lia|]. simpl in Hj. destruct i as [|i]; simpl in Hi.
  - injection Hi as ->. rewrite Forall_forall in Hx.
    apply Hx, list_elem_of_lookup. eauto.
  - apply (IH i j); [lia|assumption..].
Qed.

Lemma rank_sorted (ds : list (gmap string val)) :
  StronglySorted (before (fun a b => xltb (rank_of a) (rank_of b)))
    (isort_b (fun a b => xltb (rank_of a) (rank_of b)) ds).
Proof.
  apply isort_b_sorted.
  - intros a b. apply xltb_asym.
  - intros a b c. apply xltb_ge_trans.
Qed.

Lemma number_from_lookup start ds i :
  number_from start ds !! i
  = insert "number" (VInt (start + Z.of_nat i)) <$> ds !! i.
Proof.
  revert start i. induction ds as [|d ds IH]; intros start i; [reflexivity|].
  destruct i as [|i]; simpl.
  - do 3 f_equal. lia.
  - rewrite IH. do 3 f_equal. lia.
Qed.

Lemma number_from_delete start ds :
  Forall (fun d => d !! "number" = None) ds ->
  map (delete "number") (number_from start ds) = ds.
Proof.
  intros Hd. revert start. induction Hd as [|d ds Hn Hd IH]; intros start;
    [reflexivity|].
  simpl. now rewrite IH, delete_insert_id.
Qed.

Lemma projected_number d : projected d !! "number" = None.
Proof.
  unfold projected, project_dict.
  destruct (str_upper (default (VStr "") (d !! "symbol"))); reflexivity.
Qed.

Lemma sorted_projected_number ds :
  Forall (fun d => d !! "number" = None)
    (isort_b (fun a b => xltb (rank_of a) (rank_of b)) (map projected ds)).
Proof.
  eapply Permutation_Forall; [symmetry; apply isort_b_perm|].
  apply Forall_map, Forall_forall. intros d _. apply projected_number.
Qed.

Lemma normalize_unnumbered ds :
  map (delete "number") (normalize ds)
  = isort_b (fun a b => xltb (rank_of a) (rank_of b)) (map projected ds).
Proof. apply number_from_delete, sorted_projected_number. Qed.

Lemma falsy_rank_key d : falsy_rank d = true -> rank_of d = None.
Proof.
  unfold falsy_rank, rank_of, rank_num, rank_sort_key.
  intros H. apply negb_true_iff in H. now rewrite H.
Qed.

Lemma contents_lookup h out i o d :
  out !! i = Some o -> h !! o = Some d -> contents h out !! i = Some d.
Proof.
  intros Ho Hd. unfold contents. rewrite list_lookup_fmap, Ho. simpl.
  now rewrite Hd.
Qed.

Lemma normalized_rank h' out ds i o r :
  contents h' out = normalize ds ->
  out !! i = Some o -> field h' o "rank" = Some r ->
  exists d,
    isort_b (fun a b => xltb (rank_of a) (rank_of b)) (map projected ds) !! i
      = Some d /\
    rank_of d = rank_num r.
Proof.
  intros Hc Ho Hr. unfold field in Hr.
  destruct (h' !! o) as [dn|] eqn:Hdn; [|discriminate].
  pose proof (contents_lookup h' out i o dn Ho Hdn) as Hi.
  rewrite Hc in Hi. unfold normalize in Hi. rewrite number_from_lookup in Hi.
  destruct (isort_b _ (map projected ds) !! i) as [d|]; [|discriminate].
  exists d. split; [reflexivity|]. simpl in Hi. injection Hi as <-.
  rewrite lookup_insert_ne in Hr by discriminate.
  unfold rank_of. now rewrite Hr.
Qed.

(** C10.  A record with [market_cap_rank = 0] gets the sort key of a
    null rank, the sentinel.  In the output of the Normalizer, which holds
    the projections of all input records, it stands after every record
    with a non-zero integer rank, and the records with a null or zero
    rank keep among themselves the order of the input. *)
Theorem zero_rank_ordered_as_null h data :
  Forall (normalizable h) data ->
  exists out h',
    process_crypto_data data h = (Ok out, h') /\
    Permutation (map (delete "number") (contents h' out))
                (map projected (contents h data)) /\
    rank_sort_key (VInt 0) = rank_sort_key VNone /\
    (forall i j oi oj n,
       out !! i = Some oi -> out !! j = Some oj ->
       field h' oi "rank" = Some (VInt 0) ->
       field h' oj "rank" = Some (VInt n) -> n <> 0 ->
       (j < i)%nat) /\
    List.filter falsy_rank (map (delete "number") (contents h' out))
    = List.filter falsy_rank (map projected (contents h data)).
Proof.
  intros Hd.
  destruct (process_crypto_data_normalize h data Hd)
    as (out & h' & Hrun & Hc & _).
  exists out, h'. split; [exact Hrun|].
  rewrite Hc, normalize_unnumbered.
  split; [apply isort_b_perm|]. split; [reflexivity|]. split.
  - intros i j oi oj n Hi Hj Hri Hrj Hn.
    destruct (normalized_rank h' out _ i oi _ Hc Hi Hri) as (di & Hdi & Hki).
    destruct (normalized_rank h' out _ j oj _ Hc Hj Hrj) as (dj & Hdj & Hkj).
    assert (Hkj' : rank_of dj = Some (inject_Z n)).
    { rewrite Hkj. unfold rank_num, rank_sort_key. simpl.
      destruct (Z.eqb_spec n 0); [contradiction|reflexivity]. }
    destruct (lt_eq_lt_dec i j) as [[Hij|Hij]|Hij]; [| |exact Hij].
    + pose proof (StronglySorted_lookup _ _ i j di dj
                    (rank_sorted _) Hij Hdi Hdj) as Hb.
      unfold before in Hb. rewrite Hki, Hkj' in Hb. discriminate.
    + subst j. rewrite Hdi in Hdj. injection Hdj as ->.
      rewrite Hki in Hkj'. discriminate.
  - apply isort_b_filter. intros a b Ha _.
    now rewrite (falsy_rank_key a Ha).
Qed.

(** ** Idempotence of the Normalizer *)

Lemma upper_ascii_idem c : upper_ascii (upper_ascii c) = upper_ascii c.
Proof. destruct c as [[] [] [] [] [] [] [] []]; reflexivity. Qed.

Lemma upper_idem s : upper (upper s) = upper s.
Proof.
  induction s as [|c s IH]; simpl; [reflexivity|].
  now rewrite upper_ascii_idem, IH.
Qed.

Lemma reproject_lookups v a1 a2 a3 a4 a5 a6 a7 a8 a9 a10 a11 a12 a13 :
  let r := reproject (<["number" := v]>
             (normalized_record a1 a2 a3 a4 a5 a6 a7 a8 a9 a10 a11 a12 a13)) in
  r !! "id" = Some a1 /\ r !! "market_cap_rank" = Some a2 /\
  r !! "name" = Some a3 /\ r !! "symbol" = Some a4 /\
  r !! "current_price" = Some a5 /\ r !! "price_change_24h" = Some a6 /\
  r !! "change_symbol" = Some a7 /\ r !! "market_cap" = Some a8 /\
  r !! "total_volume" = Some a9 /\ r !! "ath" = Some a10 /\
  r !! "image" = Some a11 /\ r !! "date" = Some a12 /\
  r !! "last_updated" = Some a13.
Proof. vm_compute. repeat split. Qed.

Lemma projected_record d0 s :
  default (VStr "") (d0 !! "symbol") = VStr s ->
  projected d0
  = normalized_record
      (default (VStr "") (d0 !! "id"))
      (default VNone (d0 !! "market_cap_rank"))
      (default (VStr "") (d0 !! "name"))
      (VStr (upper s))
      (default VNone (d0 !! "current_price"))
      (default (VInt 0) (d0 !! "price_change_24h"))
      (default (VStr "DOWN") (d0 !! "change_symbol"))
      (default VNone (d0 !! "market_cap"))
      (default VNone (d0 !! "total_volume"))
      (default VNone (d0 !! "ath"))
      (default (VStr "") (d0 !! "image"))
      (default (VStr "") (d0 !! "date"))
      (default (VStr "") (d0 !! "last_updated")).
Proof. intros Hs. unfold projected, project_dict. rewrite Hs. reflexivity. Qed.

Lemma project_reproject v a1 a2 a3 s a5 a6 a7 a8 a9 a10 a11 a12 a13 :
  projected (reproject (<["number" := v]>
     (normalized_record a1 a2 a3 (VStr s) a5 a6 a7 a8 a9 a10 a11 a12 a13)))
  = normalized_record a1 a2 a3 (VStr (upper s)) a5 a6 a7 a8 a9 a10 a11 a12 a13.
Proof.
  destruct (reproject_lookups v a1 a2 a3 (VStr s) a5 a6 a7 a8 a9 a10 a11 a12 a13)
    as (H1 & H2 & H3 & H4 & H5 & H6 & H7 & H8 & H9 & H10 & H11 & H12 & H13).
  unfold projected, project_dict.
  rewrite H1, H2, H3, H4, H5, H6, H7, H8, H9, H10, H11, H12, H13.
  reflexivity.
Qed.

Lemma reproject_projected v d :
  well_projected d -> projected (reproject (<["number" := v]> d)) = d.
Proof.
  intros (d0 & s & -> & _ & Hs). rewrite (projected_record d0 s Hs).
  rewrite project_reproject. now rewrite upper_idem.
Qed.

Lemma reproject_normalizable v d :
  well_projected d ->
  is_rank (default VNone (reproject (<["number" := v]> d) !! "market_cap_rank")) /\
  exists s, default (VStr "") (reproject (<["number" := v]> d) !! "symbol")
            = VStr s.
Proof.
  intros (d0 & s & -> & Hrank & Hs). rewrite (projected_record d0 s Hs).
  match goal with
  | |- context [reproject (<["number" := v]>
         (normalized_record ?a1 ?a2 ?a3 ?a4 ?a5 ?a6 ?a7 ?a8 ?a9 ?a10 ?a11 ?a12 ?a13))] =>
      destruct (reproject_lookups v a1 a2 a3 a4 a5 a6 a7 a8 a9 a10 a11 a12 a13)
        as (_ & H2 & _ & H4 & _)
  end.
  rewrite H2, H4. split; [exact Hrank|]. now exists (upper s).
Qed.

Lemma normalizable_well_projected h data :
  Forall (normalizable h) data ->
  Forall well_projected
    (isort_b (fun a b => xltb (rank_of a) (rank_of b))
       (map projected (contents h data))).
Proof.
  intros Hd. eapply Permutation_Forall; [symmetry; apply isort_b_perm|].
  unfold contents. rewrite map_map. apply Forall_map.
  eapply Forall_impl; [exact Hd|].
  intros c (d & Hc & Hrank & s & Hs). simpl. rewrite Hc. simpl.
  now exists d, s.
Qed.

Lemma number_from_Forall (P : gmap string val -> Prop) start ds :
  Forall (fun d => forall v, P (<["number" := v]> d)) ds ->
  Forall P (number_from start ds).
Proof.
  intros Hd. revert start. induction Hd as [|d ds Hp Hd IH]; intros start;
    simpl; constructor; auto.
Qed.

Lemma reproject_numbered start ds :
  Forall well_projected ds ->
  map projected (map reproject (number_from start ds)) = ds.
Proof.
  intros Hd. revert start. induction Hd as [|d ds Hp Hd IH]; intros start;
    [reflexivity|].
  simpl. now rewrite IH, reproject_projected.
Qed.

Lemma contents_Forall (P : gmap string val -> Prop) h l ds :
  Forall (fun c => is_Some (h !! c)) l ->
  contents h l = ds -> Forall P ds ->
  Forall (fun c => exists d, h !! c = Some d /\ P d) l.
Proof.
  intros Hv. revert ds. induction Hv as [|c l [d Hc] Hv IH]; intros ds Hds HP;
    [constructor|].
  simpl in Hds. rewrite Hc in Hds. simpl in Hds. subst ds.
  inversion HP; subst. constructor; eauto.
Qed.

(** C9.  Take the output of the Normalizer, give the two renamed fields
    of every record their source names back ([reproject]) and run the
    Normalizer on records with that content: it returns records with the
    same content, in the same order, as the first run. *)
Theorem normalizer_idempotent h data :
  Forall (normalizable h) data ->
  exists out h',
    process_crypto_data data h = (Ok out, h') /\
    forall h2 data2,
      Forall (fun c => is_Some (h2 !! c)) data2 ->
      contents h2 data2 = map reproject (contents h' out) ->
      exists out2 h3,
        process_crypto_data data2 h2 = (Ok out2, h3) /\
        contents h3 out2 = contents h' out.
Proof.
  intros Hd.
  destruct (process_crypto_data_normalize h data Hd)
    as (out & h' & Hrun & Hc & _).
  exists out, h'. split; [exact Hrun|]. intros h2 data2 Hv Hre.
  pose proof (normalizable_well_projected h data Hd) as Hwp.
  rewrite Hc in Hre |- *. unfold normalize in Hre |- *.
  set (sorted := isort_b (fun a b => xltb (rank_of a) (rank_of b))
                   (map projected (contents h data))) in *.
  assert (Hd2 : Forall (normalizable h2) data2).
  { apply (contents_Forall _ h2 data2 _ Hv Hre).
    apply Forall_map, number_from_Forall.
    eapply Forall_impl; [exact Hwp|]. intros d Hp v.
    now apply reproject_normalizable. }
  destruct (process_crypto_data_normalize h2 data2 Hd2)
    as (out2 & h3 & Hrun2 & Hc2 & _).
  exists out2, h3. split; [exact Hrun2|].
  rewrite Hc2, Hre. unfold normalize.
  rewrite reproject_numbered by exact Hwp.
  f_equal. apply isort_b_id. apply rank_sorted.
Qed.

(** ** What the Normalizer guarantees, and where it departs from C1 *)

(** The output is sorted on the sort key (a null or zero rank counts as
    the sentinel), records that the key does not separate keep the order
    of the input, and [number] is the position plus one. *)
Lemma normalizer_sorted_numbered h data :
  Forall (normalizable h) data ->
  exists out h',
    process_crypto_data data h = (Ok out, h') /\
    StronglySorted (fun a b => xltb (rank_of b) (rank_of a) = false)
      (map (delete "number") (contents h' out)) /\
    (forall p : gmap string val -> bool,
       (forall a b, p a = true -> p b = true ->
                    xltb (rank_of a) (rank_of b) = false) ->
       List.filter p (map (delete "number") (contents h' out))
       = List.filter p (map projected (contents h data))) /\
    (forall i o, out !! i = Some o ->
                 field h' o "number" = Some (VInt (Z.of_nat i + 1))).
Proof.
  intros Hd.
  destruct (process_crypto_data_normalize h data Hd)
    as (out & h' & Hrun & Hc & _ & _ & Hv).
  exists out, h'. split; [exact Hrun|].
  rewrite Hc, normalize_unnumbered.
  split; [apply rank_sorted|]. split.
  - intros p Hp. now apply isort_b_filter.
  - intros i o Ho. rewrite Forall_forall in Hv.
    destruct (Hv o) as [d Hdo]; [apply list_elem_of_lookup; eauto|].
    pose proof (contents_lookup h' out i o d Ho Hdo) as Hi.
    rewrite Hc in Hi. unfold normalize in Hi. rewrite number_from_lookup in Hi.
    destruct (isort_b _ _ !! i) as [d0|]; [|discriminate].
    simpl in Hi. injection Hi as <-.
    rewrite (field_lookup h' o _ _ Hdo), lookup_insert_eq.
    do 2 f_equal. lia.
Qed.

(** The output of the Normalizer is what the Ranker and the Summarizer
    are proved on: distinct objects, each with a numeric 24h change,
    provided the change of every input record is a number or absent. *)
Lemma normalizer_output_numeric h data :
  Forall (normalizable h) data ->
  Forall (fun c => exists d, h !! c = Some d /\
            is_Some (num (default (VInt 0) (d !! "price_change_24h")))) data ->
  exists out h',
    process_crypto_data data h = (Ok out, h') /\
    NoDup out /\ numeric_changes h' out.
Proof.
  intros Hd Hnum.
  destruct (process_crypto_data_normalize h data Hd)
    as (out & h' & Hrun & Hc & _ & Hnd & _).
  exists out, h'. split; [exact Hrun|]. split; [exact Hnd|].
  assert (Hall : Forall (fun d => is_Some (num (default VNone
                           (d !! "price_change_24h"))))
                   (contents h' out)).
  { rewrite Hc. unfold normalize. apply number_from_Forall.
    eapply Permutation_Forall; [symmetry; apply isort_b_perm|].
    unfold contents. rewrite map_map. apply Forall_map.
    pose proof (conj Hd Hnum) as Hboth. rewrite <- Forall_and in Hboth.
    eapply Forall_impl; [exact Hboth|].
    intros c [(d & Hl & _ & s & Hs) (d' & Hl' & Hn)] v. simpl.
    rewrite Hl in Hl' |- *. injection Hl' as <-. simpl.
    rewrite (projected_record d s Hs).
    rewrite lookup_insert_ne by discriminate. exact Hn. }
  unfold numeric_changes. unfold contents in Hall.
  apply (proj1 (Forall_map _ _ _)) in Hall.
  eapply Forall_impl; [exact Hall|]. intros c Hq. simpl in Hq.
  unfold change_of, change_val, field. now destruct (h' !! c).
Qed.

(** C1 fails on the code.  Two records with ranks 0 and 1: the
    Normalizer puts the record of rank 1 first and the record of rank 0
    second, so the output is not ascending by rank although no rank is
    null. *)
Theorem normalizer_zero_rank_after_one :
  let run :=
    process_crypto_data [0; 1]%nat zero_rank_heap in
  exists first second,
    fst run = Ok [first; second] /\
    field (snd run) first "rank" = Some (VInt 1) /\
    field (snd run) first "number" = Some (VInt 1) /\
    field (snd run) second "rank" = Some (VInt 0) /\
    field (snd run) second "number" = Some (VInt 2).
Proof. exists 3%nat, 2%nat. vm_compute. repeat split. Qed.

(** * The theorems at concrete inputs *)

(** The scenario of the specification, run through [main]: the
    Normalizer orders btc, eth, xrp and numbers them 1, 2, 3; btc is the
    one gainer, xrp the one loser, eth is neutral. *)
Lemma scenario_pipeline :
  let run := pipeline float_literal "04-11-2026" scenario_data scenario_heap in
  match fst run with
  | Ok (processed, top_gainers, top_losers, summary) =>
      processed = [3; 4; 5]%nat /\
      top_gainers = [3%nat] /\ top_losers = [5%nat] /\
      summary !! "total_coins" = Some (VInt 3) /\
      summary !! "gainers_count" = Some (VInt 1) /\
      summary !! "losers_count" = Some (VInt 1) /\
      summary !! "neutral_count" = Some (VInt 1) /\
      summary !! "top_gainer" = Some (VRef 3%nat) /\
      summary !! "top_loser" = Some (VRef 5%nat)
  | Raise _ => False
  end /\
  map (fun c => field (snd run) c "id") [3; 4; 5]%nat
    = [Some (VStr "btc"); Some (VStr "eth"); Some (VStr "xrp")] /\
  map (fun c => field (snd run) c "number") [3; 4; 5]%nat
    = [Some (VInt 1); Some (VInt 2); Some (VInt 3)] /\
  field (snd run) 3%nat "gainer_rank" = Some (VInt 1) /\
  field (snd run) 5%nat "loser_rank" = Some (VInt 1).
Proof. vm_compute. repeat split. Qed.


Lemma scenario_normalizable : Forall (normalizable scenario_heap) scenario_data.
Proof.
  repeat constructor;
    (eexists; split; [reflexivity|split; [exact I|eexists; reflexivity]]).
Defined.

Lemma normalized_numeric : numeric_changes normalized_heap normalized_data.
Proof.
  repeat constructor; (eexists; vm_compute; reflexivity).
Defined.

Lemma normalized_ordered : ordered_changes normalized_heap normalized_data.
Proof.
  repeat constructor; (eexists; vm_compute; reflexivity).
Defined.

Lemma normalized_NoDup : NoDup normalized_data.
Proof. unfold normalized_data. apply (bool_decide_unpack _). vm_compute. exact I. Defined.


Lemma ranker_subsets_witness :
  (exists gainers hg,
     get_top_gainers normalized_data 10 normalized_heap = (Ok gainers, hg) /\
     ranked_subset normalized_heap normalized_data (fun q => Qltb 0 q)
       (fun x y => (y <= x)%Q) 10 "gainer_rank" gainers hg) /\
  (exists losers hl,
     get_top_losers normalized_data 10 normalized_heap = (Ok losers, hl) /\
     ranked_subset normalized_heap normalized_data (fun q => Qltb q 0)
       (fun x y => (x <= y)%Q) 10 "loser_rank" losers hl).
Proof.
  apply (ranker_subsets normalized_heap normalized_data 10).
  - exact normalized_numeric.
  - exact normalized_NoDup.
  - lia.
Defined.

Lemma summary_counts_partition_witness :
  exists summary,
    generate_market_summary normalized_data normalized_heap
      = (Ok summary, normalized_heap) /\
    summary !! "total_coins" = Some (VInt 3) /\
    summary !! "gainers_count" = Some (VInt 1) /\
    summary !! "losers_count" = Some (VInt 1) /\
    summary !! "neutral_count" = Some (VInt 1).
Proof.
  destruct (summary_counts_partition normalized_heap normalized_data
              normalized_ordered) as (summary & Hrun & _ & Hcounts).
  exists summary. split; [exact Hrun|].
  destruct Hcounts as (total & g & l & n & Ht & Hg & Hl & Hn
                       & -> & -> & -> & -> & _); [discriminate|].
  repeat split; assumption.
Defined.

Lemma summary_top_first_witness :
  exists summary top_gainer top_loser,
    generate_market_summary normalized_data normalized_heap
      = (Ok summary, normalized_heap) /\
    summary !! "top_gainer" = Some (VRef top_gainer) /\
    summary !! "top_loser" = Some (VRef top_loser) /\
    first_extreme normalized_heap Qlt normalized_data top_gainer /\
    first_extreme normalized_heap (fun x y => (y < x)%Q) normalized_data
      top_loser.
Proof.
  apply (summary_top_first normalized_heap normalized_data).
  - exact normalized_ordered.
  - discriminate.
Defined.

Lemma enhancer_unparseable_string_witness :
  exists h',
    add_enhanced_columns float_literal "04-11-2026" ([0%nat] ++ 1%nat :: [2%nat])
      [raw_btc; raw_doge; raw_eth]
      = (Raise (ValueError "abc"), h') /\
    (forall c', In c' [0%nat] ->
       exists f, field h' c' "price_change_24h" = Some (VFloat f) /\
                 field h' c' "date" = Some (VStr "04-11-2026")) /\
    field h' 1%nat "date" = Some (VStr "04-11-2026") /\
    field h' 1%nat "price_change_24h"
      = field [raw_btc; raw_doge; raw_eth] 1%nat "price_change_24h" /\
    (forall c', ~ In c' [0%nat] -> c' <> 1%nat ->
       h' !! c' = [raw_btc; raw_doge; raw_eth] !! c').
Proof.
  apply (enhancer_unparseable_string float_literal "04-11-2026"
           [0%nat] 1%nat [2%nat] [raw_btc; raw_doge; raw_eth] "abc").
  - constructor; [|constructor].
    split; [eexists; reflexivity|]. split; [|eexists; reflexivity].
    intros l. vm_compute. discriminate.
  - reflexivity.
  - discriminate.
  - reflexivity.
Defined.

Lemma ranker_summarizer_frame_witness :
  exists gainers losers summary h',
    rank_and_summarize normalized_data 10 10 normalized_heap
      = (Ok (gainers, losers, summary), h') /\
    forall c d, normalized_heap !! c = Some d ->
      exists d', h' !! c = Some d' /\
        (forall k, k <> "gainer_rank" -> k <> "loser_rank" -> d' !! k = d !! k) /\
        (In c gainers -> exists n, d' !! "gainer_rank" = Some (VInt n)) /\
        (In c losers -> exists n, d' !! "loser_rank" = Some (VInt n)) /\
        (~ In c gainers -> ~ In c losers -> d' = d).
Proof.
  apply (ranker_summarizer_frame normalized_heap normalized_data 10 10).
  exact normalized_numeric.
Defined.

Lemma normalizer_idempotent_witness :
  exists out h',
    process_crypto_data scenario_data scenario_heap = (Ok out, h') /\
    forall h2 data2,
      Forall (fun c => is_Some (h2 !! c)) data2 ->
      contents h2 data2 = map reproject (contents h' out) ->
      exists out2 h3,
        process_crypto_data data2 h2 = (Ok out2, h3) /\
        contents h3 out2 = contents h' out.
Proof.
  apply (normalizer_idempotent scenario_heap scenario_data).
  exact scenario_normalizable.
Defined.

Lemma zero_rank_normalizable : Forall (normalizable zero_rank_heap) [0; 1]%nat.
Proof.
  repeat constructor;
    (eexists; split; [reflexivity|split; [exact I|eexists; reflexivity]]).
Defined.

Lemma zero_rank_ordered_as_null_witness :
  exists out h',
    process_crypto_data [0; 1]%nat zero_rank_heap = (Ok out, h') /\
    Permutation (map (delete "number") (contents h' out))
                (map projected (contents zero_rank_heap [0; 1]%nat)) /\
    rank_sort_key (VInt 0) = rank_sort_key VNone /\
    (forall i j oi oj n,
       out !! i = Some oi -> out !! j = Some oj ->
       field h' oi "rank" = Some (VInt 0) ->
       field h' oj "rank" = Some (VInt n) -> n <> 0 ->
       (j < i)%nat) /\
    List.filter falsy_rank (map (delete "number") (contents h' out))
    = List.filter falsy_rank (map projected (contents zero_rank_heap [0; 1]%nat)).
Proof.
  apply (zero_rank_ordered_as_null zero_rank_heap [0; 1]%nat).
  exact zero_rank_normalizable.
Defined.

(** * Further properties of the code *)

(** ** [add_enhanced_columns]: what it writes and what it leaves *)

Lemma enhance_dict_idem today f d :
  enhance_dict today f (enhance_dict today f d) = enhance_dict today f d.
Proof.
  unfold enhance_dict. apply map_eq. intros k.
  destruct (decide (k = "change_symbol")) as [->|H1];
    [now rewrite !lookup_insert_eq|].
  rewrite !(lookup_insert_ne _ "change_symbol") by congruence.
  destruct (decide (k = "price_change_24h")) as [->|H2];
    [now rewrite !lookup_insert_eq|].
  rewrite !(lookup_insert_ne _ "price_change_24h") by congruence.
  destruct (decide (k = "date")) as [->|H3];
    [now rewrite !lookup_insert_eq|].
  rewrite !(lookup_insert_ne _ "date") by congruence.
  rewrite lookup_insert_ne by congruence.
  rewrite lookup_insert_ne by congruence.
  now rewrite lookup_insert_ne by congruence.
Qed.

(** The loop, with the content it leaves in every record it visits. *)
Lemma enhance_forM_dict fos today l h :
  Forall (enhanceable fos h) l ->
  exists h',
    forM_ l (enhance_coin fos today) h = (Ok tt, h') /\
    List.length h' = List.length h /\
    (forall c, percentage h' c = percentage h c) /\
    (forall c, ~ In c l -> h' !! c = h !! c) /\
    (forall c d, In c l -> h !! c = Some d ->
       exists f, enhance_change fos (percentage h c) = Ok f /\
                 h' !! c = Some (enhance_dict today f d)).
Proof.
  revert h. induction l as [|c0 l IH]; intros h Hl.
  - exists h. repeat split; try tauto. now intros c d [].
  - inversion Hl as [|? ? Hc0 Hl']; subst.
    destruct Hc0 as (Hv & Hnr & f0 & Hf0).
    set (h1 := alter (enhance_dict today f0) c0 h).
    destruct (IH h1) as (h' & Hrun & Hlen & Hpct & Hframe & Hin).
    { eapply Forall_impl; [exact Hl'|]. intros c. apply enhanceable_alter. }
    exists h'. simpl forM_.
    rewrite (bind_ok _ _ _ _ _ (enhance_body_ok fos today c0 h f0 Hv Hnr Hf0)).
    split; [exact Hrun|]. split; [|split; [|split]].
    + rewrite Hlen. apply length_alter.
    + intros c. rewrite Hpct. apply percentage_enhance.
    + intros c Hc. rewrite Hframe by (simpl in Hc; tauto).
      apply list_lookup_alter_ne. simpl in Hc. tauto.
    + intros c d Hc Hd. destruct (in_dec Nat.eq_dec c l) as [Hcl|Hcl].
      * destruct (decide (c = c0)) as [->|Hne].
        -- destruct (Hin c0 (enhance_dict today f0 d) Hcl) as (f & Hf & Hh').
           { unfold h1. now rewrite list_lookup_alter_eq, Hd. }
           unfold h1 in Hf. rewrite percentage_enhance in Hf.
           assert (f = f0) by congruence. subst f.
           exists f0. split; [exact Hf0|]. now rewrite Hh', enhance_dict_idem.
        -- destruct (Hin c d Hcl) as (f & Hf & Hh').
           { unfold h1. now rewrite list_lookup_alter_ne by congruence. }
           exists f. split; [|exact Hh'].
           now rewrite <- (percentage_enhance today f0 h c0 c).
      * destruct Hc as [->|Hc]; [|contradiction].
        exists f0. split; [exact Hf0|].
        rewrite (Hframe c Hcl). unfold h1.
        now rewrite list_lookup_alter_eq, Hd.
Qed.

(** X1.  On a batch it can enhance, [add_enhanced_columns] returns the
    list it was given and writes three fields and no other: every record
    of the batch has [date] set to the date of the run, every field other
    than [date], [price_change_24h] and [change_symbol] keeps its value in
    every record, records outside the batch are untouched and no record
    is created. *)
Theorem enhancer_writes_three_fields fos today data h :
  Forall (enhanceable fos h) data ->
  exists h',
    add_enhanced_columns fos today data h = (Ok data, h') /\
    List.length h' = List.length h /\
    (forall c, In c data -> field h' c "date" = Some (VStr today)) /\
    (forall c k, k <> "date" -> k <> "price_change_24h" ->
                 k <> "change_symbol" -> field h' c k = field h c k) /\
    (forall c, ~ In c data -> h' !! c = h !! c).
Proof.
  intros Hd.
  destruct (enhance_forM_dict fos today data h Hd)
    as (h' & Hrun & Hlen & _ & Hframe & Hin).
  exists h'. split; [|split; [exact Hlen|split; [|split; [|exact Hframe]]]].
  - unfold add_enhanced_columns. now rewrite (bind_ok _ _ _ _ _ Hrun).
  - intros c Hc. rewrite Forall_forall in Hd.
    destruct (Hd c) as ([d Hl] & _); [now apply list_elem_of_In|].
    destruct (Hin c d Hc Hl) as (f & _ & Hh').
    rewrite (field_lookup h' c _ _ Hh'). unfold enhance_dict.
    now rewrite !lookup_insert_ne, lookup_insert_eq by discriminate.
  - intros c k Hk1 Hk2 Hk3.
    destruct (in_dec Nat.eq_dec c data) as [Hc|Hc].
    + rewrite Forall_forall in Hd.
      destruct (Hd c) as ([d Hl] & _); [now apply list_elem_of_In|].
      destruct (Hin c d Hc Hl) as (f & _ & Hh').
      rewrite (field_lookup h' c _ _ Hh'), (field_lookup h c _ _ Hl).
      unfold enhance_dict. now rewrite !lookup_insert_ne by congruence.
    + unfold field. now rewrite (Hframe c Hc).
Qed.

(** X2.  The test [if price_change] is a truth test: a record whose
    percentage is falsy without being null (the empty text, the numbers
    0 and 0.0, [False]) takes the default branch, gets
    [price_change_24h = 0.0] and [change_symbol = "DOWN"], and [float()]
    is not called on it, so the empty text raises nothing. *)
Theorem enhancer_falsy_defaults fos today data h :
  Forall (enhanceable fos h) data ->
  exists h',
    add_enhanced_columns fos today data h = (Ok data, h') /\
    forall c, In c data -> truth (percentage h c) = false ->
      field h' c "price_change_24h" = Some (VFloat 0) /\
      field h' c "change_symbol" = Some (VStr "DOWN").
Proof.
  intros Hd.
  destruct (enhance_loop fos today data h Hd) as (h' & Hrun & _ & _ & _ & Hin).
  exists h'. split; [exact Hrun|]. intros c Hc Hfalsy.
  destruct (Hin c Hc) as (f & Hf & Hpc & Hsym & _).
  unfold enhance_change in Hf. rewrite Hfalsy in Hf. injection Hf as <-.
  now split.
Qed.

(** X3.  Enhancing twice with the same date is enhancing once: a second
    run of [add_enhanced_columns] on the batch it has enhanced returns
    the same list and leaves every record as the first run left it. *)
Theorem enhancer_idempotent fos today data h :
  Forall (enhanceable fos h) data ->
  exists h',
    add_enhanced_columns fos today data h = (Ok data, h') /\
    add_enhanced_columns fos today data h' = (Ok data, h').
Proof.
  intros Hd.
  destruct (enhance_forM_dict fos today data h Hd)
    as (h1 & Hrun1 & Hlen1 & Hpct1 & Hframe1 & Hin1).
  assert (Hd1 : Forall (enhanceable fos h1) data).
  { eapply Forall_impl; [exact Hd|]. intros c (Hv & Hnr & Hf).
    unfold enhanceable. rewrite Hpct1. split; [|tauto].
    apply lookup_lt_is_Some. rewrite Hlen1. now apply lookup_lt_is_Some. }
  destruct (enhance_forM_dict fos today data h1 Hd1)
    as (h2 & Hrun2 & Hlen2 & Hpct2 & Hframe2 & Hin2).
  exists h1. unfold add_enhanced_columns.
  rewrite (bind_ok _ _ _ _ _ Hrun1). split; [reflexivity|].
  rewrite (bind_ok _ _ _ _ _ Hrun2). unfold ret. do 2 f_equal.
  apply list_eq. intros c.
  destruct (in_dec Nat.eq_dec c data) as [Hc|Hc]; [|now apply Hframe2].
  rewrite Forall_forall in Hd.
  destruct (Hd c) as ([d Hl] & _); [now apply list_elem_of_In|].
  destruct (Hin1 c d Hc Hl) as (f & Hf & Hh1).
  destruct (Hin2 c _ Hc Hh1) as (f' & Hf' & Hh2).
  rewrite Hpct1 in Hf'. assert (f' = f) by congruence. subst f'.
  now rewrite Hh2, Hh1, enhance_dict_idem.
Qed.

(** ** [process_crypto_data]: shape, freshness, errors *)

Lemma normalized_record_keys v a1 a2 a3 a4 a5 a6 a7 a8 a9 a10 a11 a12 a13 :
  dom (<["number" := v]>
         (normalized_record a1 a2 a3 a4 a5 a6 a7 a8 a9 a10 a11 a12 a13))
  = list_to_set normalized_keys.
Proof.
  unfold normalized_record, normalized_keys.
  rewrite !dom_insert_L, dom_empty_L. simpl. reflexivity.
Qed.

(** Every record of the output has the content of a numbered
    projection. *)
Lemma normalizer_records h data out h' (P : gmap string val -> Prop) :
  Forall (normalizable h) data ->
  process_crypto_data data h = (Ok out, h') ->
  (forall d v, well_projected d -> P (<["number" := v]> d)) ->
  forall o, In o out -> exists d, h' !! o = Some d /\ P d.
Proof.
  intros Hd Hrun HP o Ho.
  destruct (process_crypto_data_normalize h data Hd)
    as (out0 & h0 & Hrun0 & Hc & _ & _ & Hv).
  rewrite Hrun in Hrun0. injection Hrun0 as <- <-.
  rewrite Forall_forall in Hv.
  destruct (Hv o) as [d Hdo]; [now apply list_elem_of_In|].
  exists d. split; [exact Hdo|].
  assert (Hall : Forall P (contents h' out)).
  { rewrite Hc. unfold normalize. apply number_from_Forall.
    eapply Forall_impl; [apply (normalizable_well_projected h data Hd)|].
    intros d0 Hwp v. now apply HP. }
  unfold contents in Hall. apply (proj1 (Forall_map _ _ _)) in Hall.
  rewrite Forall_forall in Hall.
  specialize (Hall o (proj2 (list_elem_of_In _ _) Ho)).
  simpl in Hall. now rewrite Hdo in Hall.
Qed.

(** X4.  Whatever keys the input records have, every record the
    Normalizer returns has exactly the fourteen keys of the normalized
    shape: the thirteen of the dictionary display and [number].  Keys of
    the input that the display does not read are dropped, absent ones are
    filled in. *)
Theorem normalizer_record_shape h data :
  Forall (normalizable h) data ->
  exists out h',
    process_crypto_data data h = (Ok out, h') /\
    forall o, In o out ->
      exists d, h' !! o = Some d /\
        forall k, is_Some (d !! k) <-> In k normalized_keys.
Proof.
  intros Hd.
  destruct (process_crypto_data_normalize h data Hd)
    as (out & h' & Hrun & _).
  exists out, h'. split; [exact Hrun|].
  apply (normalizer_records h data out h' _ Hd Hrun).
  intros d v (d0 & s & -> & _ & Hs) k.
  rewrite (projected_record d0 s Hs).
  rewrite <- elem_of_dom, normalized_record_keys, elem_of_list_to_set.
  apply list_elem_of_In.
Qed.

(** X5.  The Normalizer builds new records and leaves its input alone:
    it returns as many references as it was given, all distinct and all
    to objects that did not exist before the call, and every object that
    did exist, the input records among them, is unchanged.  On the empty
    list it returns the empty list and changes nothing. *)
Theorem normalizer_fresh_records h data :
  Forall (normalizable h) data ->
  exists out h',
    process_crypto_data data h = (Ok out, h') /\
    List.length out = List.length data /\
    NoDup out /\
    (forall o, In o out -> h !! o = None /\ is_Some (h' !! o)) /\
    (forall c, is_Some (h !! c) -> h' !! c = h !! c) /\
    (data = [] -> out = [] /\ h' = h).
Proof.
  intros Hd.
  destruct (process_crypto_data_normalize h data Hd)
    as (out & h' & Hrun & _ & Hframe & Hnd & Hv).
  exists out, h'. split; [exact Hrun|].
  pose proof (process_crypto_data_run h data Hd) as Hrun'.
  cbv zeta in Hrun'. rewrite Hrun in Hrun'. injection Hrun' as Hout Hh'.
  assert (Hperm : Permutation out (seq (List.length h) (List.length data)))
    by (rewrite Hout; apply isort_b_perm).
  split; [|split; [exact Hnd|split; [|split; [exact Hframe|]]]].
  - rewrite (Permutation_length Hperm). apply length_seq.
  - intros o Ho. split.
    + apply (Permutation_in _ Hperm), list_elem_of_In, elem_of_seq in Ho.
      apply lookup_ge_None. lia.
    + rewrite Forall_forall in Hv. now apply Hv, list_elem_of_In.
  - intros ->. simpl in Hout, Hh'. subst out h'. simpl.
    now rewrite app_nil_r.
Qed.

Lemma project_coin_raise h c d :
  h !! c = Some d ->
  (forall s, default (VStr "") (d !! "symbol") <> VStr s) ->
  project_coin c h = (Raise AttributeError, h).
Proof.
  intros Hd Hs. unfold project_coin.
  rewrite !(bind_ok _ _ _ _ _ (dict_get_run h c _ _ d Hd)).
  apply bind_raise. unfold lift. f_equal.
  destruct (default (VStr "") (d !! "symbol")); try reflexivity.
  now destruct (Hs s).
Qed.

Lemma projectable_app h l c : projectable h c -> projectable (h ++ l) c.
Proof.
  intros (d & s & Hd & Hs). exists d, s. split; [|exact Hs].
  now apply lookup_app_l_Some.
Qed.

Lemma mapM_app {A B} (f : A -> M B) (l1 l2 : list A) h :
  mapM f (l1 ++ l2) h
  = bind (mapM f l1) (fun ys1 =>
      bind (mapM f l2) (fun ys2 => ret (ys1 ++ ys2))) h.
Proof.
  revert h. induction l1 as [|x l1 IH]; intros h; simpl.
  - unfold bind, ret. destruct (mapM f l2 h) as [[ys|e] h']; reflexivity.
  - unfold bind, ret in *. destruct (f x h) as [[y|e] h1]; [|reflexivity].
    rewrite IH. destruct (mapM f l1 h1) as [[ys1|e] h2]; [|reflexivity].
    simpl. destruct (mapM f l2 h2) as [[ys2|e] h3]; reflexivity.
Qed.

Lemma mapM_projectable h data :
  Forall (projectable h) data ->
  mapM project_coin data h
  = (Ok (seq (List.length h) (List.length data)),
     h ++ map projected (contents h data)).
Proof.
  revert h. induction data as [|c data IH]; intros h Hd; simpl.
  - now rewrite app_nil_r.
  - inversion Hd as [|? ? (d & s & Hl & Hs) Hd']; subst.
    assert (Hp : project_dict d = Ok (projected d))
      by (unfold projected, project_dict; now rewrite Hs).
    rewrite (bind_ok _ _ _ _ _ (project_coin_run h c d _ Hl Hp)).
    assert (Hd1 : Forall (projectable (h ++ [projected d])) data).
    { eapply Forall_impl; [exact Hd'|]. intros c'. apply projectable_app. }
    rewrite (bind_ok _ _ _ _ _ (IH (h ++ [projected d]) Hd1)).
    unfold ret. rewrite length_app. simpl List.length.
    rewrite Nat.add_1_r, <- app_assoc. simpl. rewrite Hl. simpl.
    rewrite contents_app; [reflexivity|].
    eapply Forall_impl; [exact Hd'|]. intros c' (d' & s' & Hc' & _). eauto.
Qed.

(** X6.  A symbol that is present but not a string stops the Normalizer:
    [.get('symbol', '')] returns the value as it is, null included, and
    [.upper()] on it raises [AttributeError].  This happens in the
    projection loop, before any sorting, whatever the other fields hold,
    and no record that existed before the call is modified. *)
Theorem normalizer_symbol_not_string h pre c post d v :
  Forall (projectable h) pre ->
  h !! c = Some d -> d !! "symbol" = Some v -> (forall s, v <> VStr s) ->
  exists h',
    process_crypto_data (pre ++ c :: post) h = (Raise AttributeError, h') /\
    forall c', is_Some (h !! c') -> h' !! c' = h !! c'.
Proof.
  intros Hpre Hd Hv Hns.
  set (h1 := h ++ map projected (contents h pre)).
  exists h1. split.
  - unfold process_crypto_data. apply bind_raise.
    rewrite mapM_app, (bind_ok _ _ _ _ _ (mapM_projectable h pre Hpre)).
    fold h1. apply bind_raise. simpl mapM. apply bind_raise.
    apply (project_coin_raise h1 c d).
    + now apply lookup_app_l_Some.
    + rewrite Hv. simpl. exact Hns.
  - intros c' [d' Hc']. rewrite Hc'. now apply lookup_app_l_Some.
Qed.

(** ** [utils/analyzer.py]: records without a usable 24h change *)

Lemma filterM_raise {A} (p : A -> M bool) (pb : A -> bool) pre x post h e :
  Forall (fun y => p y h = (Ok (pb y), h)) pre ->
  p x h = (Raise e, h) ->
  filterM p (pre ++ x :: post) h = (Raise e, h).
Proof.
  intros Hpre Hx. induction Hpre as [|y pre Hy Hpre IH]; simpl.
  - now rewrite (bind_raise _ _ _ _ _ Hx).
  - rewrite (bind_ok _ _ _ _ _ Hy). now rewrite (bind_raise _ _ _ _ _ IH).
Qed.

Lemma change_key_missing h c d :
  h !! c = Some d -> d !! "price_change_24h" = None ->
  change_key c h = (Raise (KeyError "price_change_24h"), h).
Proof. intros Hd Hk. unfold change_key, getitem. now rewrite Hd, Hk. Qed.

Lemma py_lt_not_number_l v n : num v = None -> py_lt v (VInt n) = Raise TypeError.
Proof. intros Hv. unfold py_lt. rewrite Hv. now destruct v. Qed.

Lemma py_lt_not_number_r v n : num v = None -> py_lt (VInt n) v = Raise TypeError.
Proof. intros Hv. unfold py_lt. rewrite Hv. reflexivity. Qed.

(** The three comprehensions of the analyzer stop at the first record on
    which reading or comparing the change raises. *)
Lemma analyzer_first_raise h pre c post limit e :
  numeric_changes h pre ->
  bind (change_key c) (fun v => lift (py_gt v (VInt 0))) h = (Raise e, h) ->
  bind (change_key c) (fun v => lift (py_lt v (VInt 0))) h = (Raise e, h) ->
  get_top_gainers (pre ++ c :: post) limit h = (Raise e, h) /\
  get_top_losers (pre ++ c :: post) limit h = (Raise e, h) /\
  generate_market_summary (pre ++ c :: post) h = (Raise e, h).
Proof.
  intros Hpre Hgt Hlt.
  assert (Hg : filterM (fun c => bind (change_key c)
                  (fun v => lift (py_gt v (VInt 0)))) (pre ++ c :: post) h
               = (Raise e, h)).
  { apply (filterM_raise _ (fun c => Qltb 0 (chg h c))); [|exact Hgt].
    eapply Forall_impl; [exact Hpre|]. apply change_gt0_run. }
  assert (Hl : filterM (fun c => bind (change_key c)
                  (fun v => lift (py_lt v (VInt 0)))) (pre ++ c :: post) h
               = (Raise e, h)).
  { apply (filterM_raise _ (fun c => Qltb (chg h c) 0)); [|exact Hlt].
    eapply Forall_impl; [exact Hpre|]. apply change_lt0_run. }
  split; [|split].
  - unfold get_top_gainers. now apply bind_raise.
  - unfold get_top_losers. now apply bind_raise.
  - unfold generate_market_summary.
    destruct (pre ++ c :: post) as [|x l] eqn:E.
    + now destruct pre.
    + now apply bind_raise.
Qed.

(** X7.  The analyzer reads the change with [c['price_change_24h']], not
    with [.get]: on the first record that has no such key,
    [get_top_gainers], [get_top_losers] and [generate_market_summary]
    all raise [KeyError('price_change_24h')], whatever the limit, and
    nothing has been written. *)
Theorem analyzer_missing_change h pre c post d limit :
  numeric_changes h pre ->
  h !! c = Some d -> d !! "price_change_24h" = None ->
  get_top_gainers (pre ++ c :: post) limit h
    = (Raise (KeyError "price_change_24h"), h) /\
  get_top_losers (pre ++ c :: post) limit h
    = (Raise (KeyError "price_change_24h"), h) /\
  generate_market_summary (pre ++ c :: post) h
    = (Raise (KeyError "price_change_24h"), h).
Proof.
  intros Hpre Hd Hk. apply analyzer_first_raise; [exact Hpre| |];
    apply bind_raise; now apply (change_key_missing h c d).
Qed.

(** X8.  A change that is present but not a number, a null or a text for
    instance, cannot be compared with 0: on the first such record the
    three functions raise [TypeError], and nothing has been written. *)
Theorem analyzer_change_not_number h pre c post v limit :
  numeric_changes h pre ->
  field h c "price_change_24h" = Some v -> num v = None ->
  get_top_gainers (pre ++ c :: post) limit h = (Raise TypeError, h) /\
  get_top_losers (pre ++ c :: post) limit h = (Raise TypeError, h) /\
  generate_market_summary (pre ++ c :: post) h = (Raise TypeError, h).
Proof.
  intros Hpre Hv Hn.
  pose proof (getitem_field h c _ v Hv) as Hget. fold (change_key c) in Hget.
  apply analyzer_first_raise; [exact Hpre| |];
    rewrite (bind_ok _ _ _ _ _ Hget); unfold lift, py_gt; f_equal.
  - now apply py_lt_not_number_r.
  - now apply py_lt_not_number_l.
Qed.

(** ** The Ranker and its limit *)

Lemma slice_to_negative {A} limit (l : list A) :
  limit < 0 ->
  slice_to limit l = firstn (List.length l - Z.to_nat (- limit)) l.
Proof.
  intros H. unfold slice_to. destruct (Z.ltb_spec limit 0); [|lia].
  f_equal. lia.
Qed.

Lemma slice_to_all {A} (l : list A) n :
  (List.length l <= n)%nat -> slice_to (Z.of_nat n) l = l.
Proof.
  intros H. rewrite slice_to_nonneg by lia. rewrite Nat2Z.id.
  now apply firstn_all2.
Qed.

Lemma gainers_sorted_length h data :
  (List.length (gainers_sorted h data) <= List.length data)%nat.
Proof.
  unfold gainers_sorted. rewrite (Permutation_length (sorted_b_perm _ _ _)).
  apply filter_length_le.
Qed.

Lemma losers_sorted_length h data :
  (List.length (losers_sorted h data) <= List.length data)%nat.
Proof.
  unfold losers_sorted. rewrite (Permutation_length (sorted_b_perm _ _ _)).
  apply filter_length_le.
Qed.

(** X9.  The limit is not checked.  With the limit 0 both functions
    return the empty list and write nothing.  With a negative limit the
    slice [[:limit]] counts from the end: the result is the full ranking
    (the one returned when the limit is the number of records) without
    its last [-limit] entries. *)
Theorem ranker_limit_not_positive h data :
  numeric_changes h data ->
  get_top_gainers data 0 h = (Ok [], h) /\
  get_top_losers data 0 h = (Ok [], h) /\
  exists all_gainers hg all_losers hl,
    get_top_gainers data (Z.of_nat (List.length data)) h = (Ok all_gainers, hg) /\
    get_top_losers data (Z.of_nat (List.length data)) h = (Ok all_losers, hl) /\
    forall limit, limit < 0 ->
      (exists h',
         get_top_gainers data limit h
         = (Ok (firstn (List.length all_gainers - Z.to_nat (- limit)) all_gainers),
            h')) /\
      (exists h',
         get_top_losers data limit h
         = (Ok (firstn (List.length all_losers - Z.to_nat (- limit)) all_losers),
            h')).
Proof.
  intros Hd. split; [|split].
  - now rewrite (get_top_gainers_run h data 0 Hd).
  - now rewrite (get_top_losers_run h data 0 Hd).
  - eexists _, _, _, _.
    rewrite (get_top_gainers_run h data _ Hd), (get_top_losers_run h data _ Hd).
    rewrite !slice_to_all by (apply gainers_sorted_length || apply losers_sorted_length).
    split; [reflexivity|]. split; [reflexivity|].
    intros limit Hlim. split; eexists.
    + rewrite (get_top_gainers_run h data limit Hd).
      now rewrite slice_to_negative by exact Hlim.
    + rewrite (get_top_losers_run h data limit Hd).
      now rewrite slice_to_negative by exact Hlim.
Qed.

Lemma set_ranks_lookup_at k start l h i c :
  NoDup l -> l !! i = Some c ->
  set_ranks k start l h !! c
  = insert k (VInt (start + Z.of_nat i)) <$> h !! c.
Proof.
  revert start h i. induction l as [|c0 l IH]; intros start h i Hnd Hi;
    [discriminate|].
  apply NoDup_cons in Hnd as [Hnotin Hnd]. destruct i as [|i]; simpl in *.
  - injection Hi as ->.
    rewrite set_ranks_notin by (rewrite <- list_elem_of_In; exact Hnotin).
    rewrite list_lookup_alter_eq. do 3 f_equal. lia.
  - rewrite (IH (start + 1) _ i Hnd Hi).
    assert (c0 <> c).
    { intros ->. apply Hnotin, list_elem_of_lookup. eauto. }
    rewrite list_lookup_alter_ne by assumption. do 3 f_equal. lia.
Qed.

Lemma set_ranks_idem k start l h :
  NoDup l -> set_ranks k start l (set_ranks k start l h) = set_ranks k start l h.
Proof.
  intros Hnd. apply list_eq. intros c.
  destruct (in_dec Nat.eq_dec c l) as [Hc|Hc].
  - apply list_elem_of_In, list_elem_of_lookup in Hc as [i Hi].
    rewrite !(set_ranks_lookup_at k start l _ i c Hnd Hi).
    destruct (h !! c); simpl; [|reflexivity]. now rewrite insert_insert_eq.
  - now rewrite !set_ranks_notin.
Qed.

Lemma set_ranks_prefix k start l h n c :
  NoDup l -> In c (firstn n l) ->
  set_ranks k start (firstn n l) h !! c = set_ranks k start l h !! c.
Proof.
  intros Hnd Hc.
  apply list_elem_of_In, list_elem_of_lookup in Hc as [i Hi].
  rewrite (set_ranks_lookup_at k start _ h i c); [|
    apply (sublist_NoDup _ l); [exact Hnd|apply sublist_take] | exact Hi].
  apply lookup_take_Some in Hi as [Hi _].
  now rewrite (set_ranks_lookup_at k start l h i c Hnd Hi).
Qed.

Lemma isort_b_ext {A} (lt1 lt2 : A -> A -> bool) (l : list A) :
  (forall a b, lt1 a b = lt2 a b) -> isort_b lt1 l = isort_b lt2 l.
Proof.
  intros H. induction l as [|x l IH]; simpl; [reflexivity|].
  rewrite IH. generalize (isort_b lt2 l). intros s.
  induction s as [|y s IHs]; simpl; [reflexivity|].
  rewrite H. destruct (lt2 y x); [now rewrite IHs|reflexivity].
Qed.

Lemma sorted_lists_ext h1 h2 data :
  (forall c, chg h1 c = chg h2 c) ->
  gainers_sorted h1 data = gainers_sorted h2 data /\
  losers_sorted h1 data = losers_sorted h2 data.
Proof.
  intros H. unfold gainers_sorted, losers_sorted, sorted_b.
  rewrite (filter_ext (fun c => Qltb 0 (chg h1 c)) (fun c => Qltb 0 (chg h2 c)))
    by (intros c; now rewrite H).
  rewrite (filter_ext (fun c => Qltb (chg h1 c) 0) (fun c => Qltb (chg h2 c) 0))
    by (intros c; now rewrite H).
  split; [f_equal|]; apply isort_b_ext; intros a b; now rewrite !H.
Qed.

Lemma chg_set_ranks k start l h c :
  k <> "price_change_24h" -> chg (set_ranks k start l h) c = chg h c.
Proof.
  intros Hk. unfold chg, change_of, change_val.
  now rewrite set_ranks_field_ne.
Qed.

Lemma sorted_NoDup h data :
  NoDup data -> NoDup (gainers_sorted h data) /\ NoDup (losers_sorted h data).
Proof.
  intros Hnd. unfold gainers_sorted, losers_sorted.
  split; rewrite sorted_b_perm; now apply NoDup_filter_bool.
Qed.

Lemma set_ranks_two_prefixes k start l h n1 n2 c :
  NoDup l -> (n1 <= n2)%nat -> In c (firstn n1 l) ->
  set_ranks k start (firstn n1 l) h !! c
  = set_ranks k start (firstn n2 l) h !! c.
Proof.
  intros Hnd Hn Hc.
  rewrite (set_ranks_prefix k start l h n1 c Hnd Hc).
  symmetry. apply (set_ranks_prefix k start l h n2 c Hnd).
  apply list_elem_of_In, elem_of_take in Hc as (i & Hi & Hlt).
  apply list_elem_of_In, elem_of_take. exists i. split; [exact Hi|lia].
Qed.

(** X10.  Raising the limit only appends: for [0 <= l1 <= l2] the list
    returned with limit [l1] is the first [l1] entries of the list
    returned with limit [l2], and each of its records is left in the same
    state, with the same rank, by both calls.  This holds for
    [get_top_gainers] and for [get_top_losers]. *)
Theorem ranker_limit_prefix h data l1 l2 :
  numeric_changes h data -> NoDup data -> 0 <= l1 <= l2 ->
  (exists top2 h2 h1,
     get_top_gainers data l2 h = (Ok top2, h2) /\
     get_top_gainers data l1 h = (Ok (firstn (Z.to_nat l1) top2), h1) /\
     forall c, In c (firstn (Z.to_nat l1) top2) -> h1 !! c = h2 !! c) /\
  (exists top2 h2 h1,
     get_top_losers data l2 h = (Ok top2, h2) /\
     get_top_losers data l1 h = (Ok (firstn (Z.to_nat l1) top2), h1) /\
     forall c, In c (firstn (Z.to_nat l1) top2) -> h1 !! c = h2 !! c).
Proof.
  intros Hd Hnd Hl.
  destruct (sorted_NoDup h data Hnd) as [Hng Hnl].
  assert (Hmin : (Z.to_nat l1 `min` Z.to_nat l2 = Z.to_nat l1)%nat) by lia.
  split.
  - exists (firstn (Z.to_nat l2) (gainers_sorted h data)),
      (set_ranks "gainer_rank" 1 (firstn (Z.to_nat l2) (gainers_sorted h data)) h),
      (set_ranks "gainer_rank" 1 (firstn (Z.to_nat l1) (gainers_sorted h data)) h).
    rewrite !(get_top_gainers_run h data _ Hd), !slice_to_nonneg by lia.
    rewrite firstn_firstn, Hmin. split; [reflexivity|]. split; [reflexivity|].
    intros c Hc. apply set_ranks_two_prefixes; [exact Hng|lia|exact Hc].
  - exists (firstn (Z.to_nat l2) (losers_sorted h data)),
      (set_ranks "loser_rank" 1 (firstn (Z.to_nat l2) (losers_sorted h data)) h),
      (set_ranks "loser_rank" 1 (firstn (Z.to_nat l1) (losers_sorted h data)) h).
    rewrite !(get_top_losers_run h data _ Hd), !slice_to_nonneg by lia.
    rewrite firstn_firstn, Hmin. split; [reflexivity|]. split; [reflexivity|].
    intros c Hc. apply set_ranks_two_prefixes; [exact Hnl|lia|exact Hc].
Qed.

Lemma slice_to_NoDup {A} limit (l : list A) : NoDup l -> NoDup (slice_to limit l).
Proof.
  intros Hnd. unfold slice_to.
  destruct (Z.ltb limit 0); apply (sublist_NoDup _ l Hnd), sublist_take.
Qed.

(** X11.  Ranking twice is ranking once: a second call of
    [get_top_gainers] (or [get_top_losers]) with the same limit, on the
    records as the first call left them, returns the same list and
    changes nothing, since the ranks it writes are the ones already
    there. *)
Theorem ranker_idempotent h data limit :
  numeric_changes h data -> NoDup data ->
  (exists top h',
     get_top_gainers data limit h = (Ok top, h') /\
     get_top_gainers data limit h' = (Ok top, h')) /\
  (exists top h',
     get_top_losers data limit h = (Ok top, h') /\
     get_top_losers data limit h' = (Ok top, h')).
Proof.
  intros Hd Hnd. destruct (sorted_NoDup h data Hnd) as [Hng Hnl]. split.
  - eexists _, _. split; [apply (get_top_gainers_run h data limit Hd)|].
    set (top := slice_to limit (gainers_sorted h data)).
    set (h' := set_ranks "gainer_rank" 1 top h).
    assert (Hd' : numeric_changes h' data)
      by now apply numeric_changes_set_ranks.
    rewrite (get_top_gainers_run h' data limit Hd').
    destruct (sorted_lists_ext h' h data) as [-> _].
    { intros c. now apply chg_set_ranks. }
    fold top. unfold h'. rewrite set_ranks_idem; [reflexivity|].
    now apply slice_to_NoDup.
  - eexists _, _. split; [apply (get_top_losers_run h data limit Hd)|].
    set (top := slice_to limit (losers_sorted h data)).
    set (h' := set_ranks "loser_rank" 1 top h).
    assert (Hd' : numeric_changes h' data)
      by now apply numeric_changes_set_ranks.
    rewrite (get_top_losers_run h' data limit Hd').
    destruct (sorted_lists_ext h' h data) as [_ ->].
    { intros c. now apply chg_set_ranks. }
    fold top. unfold h'. rewrite set_ranks_idem; [reflexivity|].
    now apply slice_to_NoDup.
Qed.

Lemma rank_and_summarize_lists h data lg ll :
  numeric_changes h data ->
  let gainers := slice_to lg (gainers_sorted h data) in
  let losers := slice_to ll (losers_sorted h data) in
  exists summary,
    rank_and_summarize data lg ll h
    = (Ok (gainers, losers, summary),
       set_ranks "loser_rank" 1 losers (set_ranks "gainer_rank" 1 gainers h)).
Proof.
  intros Hd gainers losers. unfold rank_and_summarize.
  rewrite (bind_ok _ _ _ _ _ (get_top_gainers_run h data lg Hd)).
  fold gainers. set (hg := set_ranks "gainer_rank" 1 gainers h).
  assert (Hg : numeric_changes hg data)
    by now apply numeric_changes_set_ranks.
  rewrite (bind_ok _ _ _ _ _ (get_top_losers_run hg data ll Hg)).
  destruct (sorted_lists_ext hg h data) as [_ ->].
  { intros c. now apply chg_set_ranks. }
  fold losers. set (hl := set_ranks "loser_rank" 1 losers hg).
  assert (Hl : numeric_changes hl data)
    by now apply numeric_changes_set_ranks.
  destruct (generate_market_summary_returns hl data Hl) as [summary Hs].
  rewrite (bind_ok _ _ _ _ _ Hs). now exists summary.
Qed.

Lemma gainers_positive h data limit c :
  In c (slice_to limit (gainers_sorted h data)) ->
  In c data /\ (0 < chg h c)%Q.
Proof.
  intros Hc. apply slice_to_In in Hc. unfold gainers_sorted in Hc.
  apply (Permutation_in _ (sorted_b_perm _ _ _)), filter_In in Hc as [Hin Hp].
  split; [exact Hin|now apply Qltb_lt].
Qed.

Lemma losers_negative h data limit c :
  In c (slice_to limit (losers_sorted h data)) ->
  In c data /\ (chg h c < 0)%Q.
Proof.
  intros Hc. apply slice_to_In in Hc. unfold losers_sorted in Hc.
  apply (Permutation_in _ (sorted_b_perm _ _ _)), filter_In in Hc as [Hin Hp].
  split; [exact Hin|now apply Qltb_lt].
Qed.

(** X12.  The two subsets that [main] computes never share a record: a
    record returned by [get_top_gainers] is not returned by
    [get_top_losers].  Hence a record that had neither rank before the
    two calls does not have both after them. *)
Theorem ranker_subsets_disjoint h data lg ll :
  numeric_changes h data ->
  exists gainers losers summary h',
    rank_and_summarize data lg ll h = (Ok (gainers, losers, summary), h') /\
    (forall c, In c gainers -> ~ In c losers) /\
    (forall c, field h c "gainer_rank" = None ->
               field h c "loser_rank" = None ->
               field h' c "gainer_rank" = None \/
               field h' c "loser_rank" = None).
Proof.
  intros Hd.
  destruct (rank_and_summarize_lists h data lg ll Hd) as [summary Hrun].
  cbv zeta in Hrun.
  set (gainers := slice_to lg (gainers_sorted h data)) in *.
  set (losers := slice_to ll (losers_sorted h data)) in *.
  exists gainers, losers, summary,
    (set_ranks "loser_rank" 1 losers (set_ranks "gainer_rank" 1 gainers h)).
  split; [exact Hrun|].
  assert (Hdis : forall c, In c gainers -> ~ In c losers).
  { intros c Hg Hl. apply gainers_positive in Hg as [_ Hg].
    apply losers_negative in Hl as [_ Hl]. lra. }
  split; [exact Hdis|]. intros c Hng Hnl.
  destruct (in_dec Nat.eq_dec c gainers) as [Hg|Hg].
  - right. rewrite set_ranks_field_notin by now apply Hdis.
    now rewrite set_ranks_field_ne by discriminate.
  - left. rewrite set_ranks_field_ne by discriminate.
    now rewrite set_ranks_field_notin.
Qed.

(** ** The Summarizer: percentages and the two extremes *)

Lemma percentage_bounds (g t : Z) :
  0 <= g <= t -> 0 < t ->
  (0 <= inject_Z g / inject_Z t * 100)%Q /\
  (inject_Z g / inject_Z t * 100 <= 100)%Q /\
  ((inject_Z g / inject_Z t * 100 == 0)%Q <-> g = 0).
Proof.
  intros Hg Ht.
  assert (Htq : (0 < inject_Z t)%Q) by (unfold Qlt; simpl; lia).
  assert (Hgq : (0 <= inject_Z g)%Q) by (unfold Qle; simpl; lia).
  assert (Hgt : (inject_Z g <= inject_Z t)%Q) by (unfold Qle; simpl; lia).
  assert (H0 : (0 <= inject_Z g / inject_Z t)%Q).
  { apply Qle_shift_div_l; [exact Htq|]. now rewrite Qmult_0_l. }
  assert (H1 : (inject_Z g / inject_Z t <= 1)%Q).
  { apply Qle_shift_div_r; [exact Htq|]. now rewrite Qmult_1_l. }
  split; [lra|]. split; [lra|]. split.
  - intros Hz. destruct (Z.eq_dec g 0) as [->|Hne]; [reflexivity|].
    exfalso. assert (Hpos : (0 < inject_Z g / inject_Z t)%Q).
    { apply Qlt_shift_div_l; [exact Htq|]. rewrite Qmult_0_l.
      unfold Qlt. simpl. lia. }
    lra.
  - intros ->. unfold Qdiv. now rewrite !Qmult_0_l.
Qed.

(** X13.  On a non-empty input the two percentages lie between 0 and
    100, and a percentage is 0 exactly when the corresponding count
    is 0; the division is by the number of records, which is not zero
    here. *)
Theorem summary_percentages h data :
  numeric_changes h data -> data <> [] ->
  exists summary g l (gp lp : Q),
    generate_market_summary data h = (Ok summary, h) /\
    summary !! "gainers_count" = Some (VInt g) /\
    summary !! "losers_count" = Some (VInt l) /\
    summary !! "gainers_percentage" = Some (VFloat gp) /\
    summary !! "losers_percentage" = Some (VFloat lp) /\
    (0 <= gp <= 100)%Q /\ (0 <= lp <= 100)%Q /\
    ((gp == 0)%Q <-> g = 0) /\ ((lp == 0)%Q <-> l = 0).
Proof.
  intros Hd Hne. destruct data as [|c data']; [congruence|].
  eexists _, _, _, _, _.
  split; [now apply generate_market_summary_num_run|].
  split; [reflexivity|]. split; [reflexivity|].
  split; [reflexivity|]. split; [reflexivity|].
  set (data := c :: data').
  assert (Ht : 0 < Z.of_nat (List.length data)) by (simpl; lia).
  pose proof (filter_length_le (fun x => Qltb 0 (chg h x)) data) as Hg.
  pose proof (filter_length_le (fun x => Qltb (chg h x) 0) data) as Hl.
  destruct (percentage_bounds
              (Z.of_nat (List.length (List.filter (fun x => Qltb 0 (chg h x)) data)))
              (Z.of_nat (List.length data))) as (G0 & G1 & G2); [lia|exact Ht|].
  destruct (percentage_bounds
              (Z.of_nat (List.length (List.filter (fun x => Qltb (chg h x) 0) data)))
              (Z.of_nat (List.length data))) as (L0 & L1 & L2); [lia|exact Ht|].
  repeat split; assumption || apply G2 || apply L2.
Qed.

Lemma filter_none {A} (p : A -> bool) (l : list A) :
  (forall x, In x l -> p x = false) -> List.filter p l = [].
Proof.
  induction l as [|x l IH]; intros H; simpl; [reflexivity|].
  rewrite (H x) by now left. apply IH. intros y Hy. apply H. now right.
Qed.

Lemma filter_filter_none {A} (p w : A -> bool) (l : list A) :
  Forall (fun x => p x = false) l -> List.filter p (List.filter w l) = [].
Proof.
  induction 1 as [|x l Hx Hl IH]; simpl; [reflexivity|].
  destruct (w x); simpl; [now rewrite Hx|exact IH].
Qed.

(** The head of a stable ranking is the first extreme record of the
    input, provided that record qualifies for the ranking. *)
Lemma head_is_first_extreme h (worse : Q -> Q -> Prop) (w : Q -> bool)
    data r hd rest :
  (forall a b, worse a b -> ~ (a == b)%Q) ->
  (forall a b, ~ worse a b -> ~ worse b a -> (a == b)%Q) ->
  first_extreme h worse data r ->
  w (chg h r) = true ->
  Permutation (hd :: rest) (List.filter (fun c => w (chg h c)) data) ->
  (forall x, In x (hd :: rest) -> ~ worse (chg h hd) (chg h x)) ->
  (forall q, List.filter (fun c => Qeq_bool (chg h c) q) (hd :: rest)
             = List.filter (fun c => Qeq_bool (chg h c) q)
                 (List.filter (fun c => w (chg h c)) data)) ->
  hd = r.
Proof.
  intros W1 W2 (pre & post & -> & Hpre & Hpost) Hwr Hperm Hext Hstable.
  assert (Hr : In r (hd :: rest)).
  { apply (Permutation_in _ (Permutation_sym Hperm)), filter_In.
    split; [|exact Hwr]. apply in_or_app. right. now left. }
  assert (Hhd : In hd (pre ++ r :: post)).
  { assert (Hin : In hd (hd :: rest)) by now left.
    apply (Permutation_in _ Hperm), filter_In in Hin. tauto. }
  assert (Heq : (chg h hd == chg h r)%Q).
  { apply in_app_or in Hhd as [Hin|[->|Hin]].
    - rewrite Forall_forall in Hpre.
      destruct (Hext r Hr). apply Hpre. now apply list_elem_of_In.
    - reflexivity.
    - rewrite Forall_forall in Hpost. apply W2; [now apply Hext|].
      apply Hpost. now apply list_elem_of_In. }
  specialize (Hstable (chg h r)). simpl in Hstable.
  rewrite (Qeq_eq_bool _ _ Heq) in Hstable.
  rewrite !List.filter_app in Hstable.
  rewrite filter_filter_none in Hstable.
  - simpl in Hstable. rewrite Hwr in Hstable. simpl in Hstable.
    rewrite Qeq_bool_refl in Hstable. now injection Hstable.
  - eapply Forall_impl; [exact Hpre|]. intros x Hx. simpl.
    destruct (Qeq_bool (chg h x) (chg h r)) eqn:E; [|reflexivity].
    apply Qeq_bool_eq in E. now destruct (W1 _ _ Hx).
Qed.

Lemma first_extreme_bound h worse data r x :
  (forall a, ~ worse a a) ->
  first_extreme h worse data r -> In x data ->
  worse (chg h x) (chg h r) \/ ~ worse (chg h r) (chg h x).
Proof.
  intros Hirr (pre & post & -> & Hpre & Hpost) Hx.
  rewrite Forall_forall in Hpre, Hpost.
  apply in_app_or in Hx as [Hx|[->|Hx]].
  - left. now apply Hpre, list_elem_of_In.
  - right. apply Hirr.
  - right. now apply Hpost, list_elem_of_In.
Qed.

Lemma slice_to_head {A} limit (x : A) l :
  0 < limit -> head (slice_to limit (x :: l)) = Some x.
Proof.
  intros H. rewrite slice_to_nonneg by lia.
  destruct (Z.to_nat limit) eqn:E; [lia|reflexivity].
Qed.

(** X14.  Where no change is NaN the Summarizer and the Ranker agree on
    the extremes.  With a limit of at least 1: when the record the
    summary calls [top_gainer] has a change above zero it is the first
    record [get_top_gainers] returns; when it has not, no record has, and
    [get_top_gainers] returns the empty list although the summary still
    names a [top_gainer].  The same holds for [top_loser] and
    [get_top_losers]. *)
Theorem summary_top_heads_ranking h data limit :
  ordered_changes h data -> data <> [] -> 0 < limit ->
  exists summary g l gainers hg losers hl,
    generate_market_summary data h = (Ok summary, h) /\
    summary !! "top_gainer" = Some (VRef g) /\
    summary !! "top_loser" = Some (VRef l) /\
    get_top_gainers data limit h = (Ok gainers, hg) /\
    get_top_losers data limit h = (Ok losers, hl) /\
    ((0 < chg h g)%Q -> head gainers = Some g) /\
    (~ (0 < chg h g)%Q -> gainers = []) /\
    ((chg h l < 0)%Q -> head losers = Some l) /\
    (~ (chg h l < 0)%Q -> losers = []).
Proof.
  intros Hd Hne Hlim. destruct data as [|c data']; [congruence|].
  set (data := c :: data') in *.
  set (g := scan_b (chg h) (fun x y => Qltb y x) c data').
  set (l := scan_b (chg h) Qltb c data').
  pose proof (first_max h c data') as Hg. fold g data in Hg.
  pose proof (first_min h c data') as Hl. fold l data in Hl.
  eexists _, g, l, _, _, _, _.
  split; [now apply generate_market_summary_run|].
  split; [reflexivity|]. split; [reflexivity|].
  split; [now apply get_top_gainers_run, ordered_numeric|].
  split; [now apply get_top_losers_run, ordered_numeric|].
  split; [|split; [|split]].
  - intros Hpos. unfold gainers_sorted.
    destruct (sorted_b _ true _) as [|hd rest] eqn:E.
    + exfalso.
      assert (Hin : In g (List.filter (fun c => Qltb 0 (chg h c)) data)).
      { apply filter_In. split; [|now apply Qltb_lt].
        destruct Hg as (pre & post & -> & _). apply in_or_app. right. now left. }
      apply (Permutation_in _ (Permutation_sym (sorted_b_perm
               (fun a b => Qltb (chg h a) (chg h b)) true _))) in Hin.
      now rewrite E in Hin.
    + rewrite slice_to_head by exact Hlim. f_equal.
      apply (head_is_first_extreme h Qlt (fun q => Qltb 0 q) data g hd rest).
      * intros a b Hab Heq. rewrite Heq in Hab. now apply Qlt_irrefl in Hab.
      * intros a b Hab Hba. apply Qle_antisym; now apply Qnot_lt_le.
      * exact Hg.
      * now apply Qltb_lt.
      * rewrite <- E. apply sorted_b_perm.
      * intros x Hx.
        pose proof (change_sorted_desc h true
                      (List.filter (fun c => Qltb 0 (chg h c)) data) eq_refl) as Hs.
        rewrite E in Hs. apply StronglySorted_inv in Hs as [_ Hs].
        destruct Hx as [->|Hx]; [apply Qlt_irrefl|].
        rewrite Forall_forall in Hs. apply Qle_not_lt, Hs.
        now apply list_elem_of_In.
      * intros q. rewrite <- E. apply change_sorted_stable.
  - intros Hnpos. unfold gainers_sorted.
    assert (Hnone : List.filter (fun c => Qltb 0 (chg h c)) data = []).
    { apply filter_none. intros x Hx.
      destruct (Qltb 0 (chg h x)) eqn:E; [|reflexivity]. apply Qltb_lt in E.
      destruct (first_extreme_bound h Qlt data g x Qlt_irrefl Hg Hx); lra. }
    rewrite Hnone. unfold slice_to. simpl.
    destruct (Z.ltb limit 0); apply firstn_nil.
  - intros Hneg. unfold losers_sorted.
    destruct (sorted_b _ false _) as [|hd rest] eqn:E.
    + exfalso.
      assert (Hin : In l (List.filter (fun c => Qltb (chg h c) 0) data)).
      { apply filter_In. split; [|now apply Qltb_lt].
        destruct Hl as (pre & post & -> & _). apply in_or_app. right. now left. }
      apply (Permutation_in _ (Permutation_sym (sorted_b_perm
               (fun a b => Qltb (chg h a) (chg h b)) false _))) in Hin.
      now rewrite E in Hin.
    + rewrite slice_to_head by exact Hlim. f_equal.
      apply (head_is_first_extreme h (fun x y => (y < x)%Q)
               (fun q => Qltb q 0) data l hd rest).
      * intros a b Hab Heq. rewrite Heq in Hab. now apply Qlt_irrefl in Hab.
      * intros a b Hab Hba. apply Qle_antisym; now apply Qnot_lt_le.
      * exact Hl.
      * now apply Qltb_lt.
      * rewrite <- E. apply sorted_b_perm.
      * intros x Hx.
        pose proof (change_sorted_asc h false
                      (List.filter (fun c => Qltb (chg h c) 0) data) eq_refl) as Hs.
        rewrite E in Hs. apply StronglySorted_inv in Hs as [_ Hs].
        destruct Hx as [->|Hx]; [apply Qlt_irrefl|].
        rewrite Forall_forall in Hs. apply Qle_not_lt, Hs.
        now apply list_elem_of_In.
      * intros q. rewrite <- E. apply change_sorted_stable.
  - intros Hnneg. unfold losers_sorted.
    assert (Hnone : List.filter (fun c => Qltb (chg h c) 0) data = []).
    { apply filter_none. intros x Hx.
      destruct (Qltb (chg h x) 0) eqn:E; [|reflexivity]. apply Qltb_lt in E.
      destruct (first_extreme_bound h (fun x y => (y < x)%Q) data l x
                  (fun a => Qlt_irrefl a) Hl Hx); lra. }
    rewrite Hnone. unfold slice_to. simpl.
    destruct (Z.ltb limit 0); apply firstn_nil.
Qed.

(** ** [main]: the stages composed *)

Lemma normalized_record_lookups a1 a2 a3 a4 a5 a6 a7 a8 a9 a10 a11 a12 a13 :
  let r := normalized_record a1 a2 a3 a4 a5 a6 a7 a8 a9 a10 a11 a12 a13 in
  r !! "price_change_24h" = Some a6 /\
  r !! "change_symbol" = Some a7 /\
  r !! "date" = Some a12.
Proof. vm_compute. repeat split. Qed.

Lemma enhance_dict_sign today f d : sign_consistent today (enhance_dict today f d).
Proof.
  exists f. unfold enhance_dict. repeat split.
  - now rewrite lookup_insert_ne, lookup_insert_eq by discriminate.
  - now rewrite lookup_insert_eq.
  - now rewrite !lookup_insert_ne, lookup_insert_eq by discriminate.
Qed.

Lemma projected_sign today d0 s v :
  default (VStr "") (d0 !! "symbol") = VStr s ->
  sign_consistent today d0 ->
  sign_consistent today (<["number" := v]> (projected d0)).
Proof.
  intros Hs (f & Hpc & Hsym & Hdate). exists f.
  rewrite (projected_record d0 s Hs), Hpc, Hsym, Hdate. simpl.
  rewrite !lookup_insert_ne by discriminate.
  apply normalized_record_lookups.
Qed.

(** The records of the output inherit what the projection preserves. *)
Lemma normalizer_records_from h data out h'
    (Q P : gmap string val -> Prop) :
  Forall (normalizable h) data ->
  Forall (fun c => exists d, h !! c = Some d /\ Q d) data ->
  process_crypto_data data h = (Ok out, h') ->
  (forall d0 s v, default (VStr "") (d0 !! "symbol") = VStr s -> Q d0 ->
                  P (<["number" := v]> (projected d0))) ->
  forall o, In o out -> exists d, h' !! o = Some d /\ P d.
Proof.
  intros Hd HQ Hrun HP o Ho.
  destruct (process_crypto_data_normalize h data Hd)
    as (out0 & h0 & Hrun0 & Hc & _ & _ & Hv).
  rewrite Hrun in Hrun0. injection Hrun0 as <- <-.
  rewrite Forall_forall in Hv.
  destruct (Hv o) as [d Hdo]; [now apply list_elem_of_In|].
  exists d. split; [exact Hdo|].
  assert (Hall : Forall P (contents h' out)).
  { rewrite Hc. unfold normalize. apply number_from_Forall.
    eapply Permutation_Forall; [symmetry; apply isort_b_perm|].
    unfold contents. rewrite map_map. apply Forall_map.
    pose proof (conj Hd HQ) as Hboth. rewrite <- Forall_and in Hboth.
    eapply Forall_impl; [exact Hboth|].
    intros c [(d1 & Hl & _ & s & Hs) (d2 & Hl' & Hq)] v. simpl.
    rewrite Hl in Hl' |- *. injection Hl' as <-. simpl.
    now apply (HP d1 s v). }
  unfold contents in Hall. apply (proj1 (Forall_map _ _ _)) in Hall.
  rewrite Forall_forall in Hall.
  specialize (Hall o (proj2 (list_elem_of_In _ _) Ho)).
  simpl in Hall. now rewrite Hdo in Hall.
Qed.

Lemma enhance_dict_other today f d k :
  k <> "date" -> k <> "price_change_24h" -> k <> "change_symbol" ->
  enhance_dict today f d !! k = d !! k.
Proof.
  intros H1 H2 H3. unfold enhance_dict.
  now rewrite !lookup_insert_ne by congruence.
Qed.

Lemma numeric_of_sign today h l :
  Forall (fun o => exists d, h !! o = Some d /\ sign_consistent today d) l ->
  numeric_changes h l.
Proof.
  intros H. eapply Forall_impl; [exact H|].
  intros o (d & Hd & f & Hpc & _). exists f.
  unfold change_of, change_val. now rewrite (field_lookup h o _ d Hd), Hpc.
Qed.

(** X15.  The stages fit together as [main] chains them.  On raw records
    that the Enhancer and the Normalizer accept (a percentage that is
    falsy or has a [float()], a rank that is null or an integer, a symbol
    that is absent or a string) the whole pipeline returns without
    raising, whatever the records are otherwise.  It returns as many
    normalized records as there are raw ones; each of them carries a
    float change, the symbol ["UP"] exactly when that change is above
    zero and ["DOWN"] otherwise, and the date of the run; and the raw
    records, which [main] hands on as [enhanced], carry that date too. *)
Theorem pipeline_returns fos today raw h :
  Forall (enhanceable fos h) raw -> Forall (normalizable h) raw ->
  exists processed top_gainers top_losers summary h',
    pipeline fos today raw h
      = (Ok (processed, top_gainers, top_losers, summary), h') /\
    List.length processed = List.length raw /\
    (forall o, In o processed ->
       exists f s,
         field h' o "price_change_24h" = Some (VFloat f) /\
         field h' o "change_symbol" = Some (VStr s) /\
         (above_zero f -> s = "UP") /\ (~ above_zero f -> s = "DOWN") /\
         field h' o "date" = Some (VStr today)) /\
    (forall c, In c raw -> field h' c "date" = Some (VStr today)).
Proof.
  intros He Hn.
  destruct (enhance_forM_dict fos today raw h He)
    as (h1 & Hrun1 & Hlen1 & _ & _ & Hin1).
  assert (Hdict : Forall (fun c => exists d f, h !! c = Some d /\
                    h1 !! c = Some (enhance_dict today f d)) raw).
  { apply Forall_forall. intros c Hc. apply list_elem_of_In in Hc.
    rewrite Forall_forall in He.
    destruct (He c) as ([d Hd] & _); [now apply list_elem_of_In|].
    destruct (Hin1 c d Hc Hd) as (f & _ & Hh1). now exists d, f. }
  assert (Hn1 : Forall (normalizable h1) raw).
  { pose proof (conj Hn Hdict) as Hboth. rewrite <- Forall_and in Hboth.
    eapply Forall_impl; [exact Hboth|].
    intros c [(d & Hd & Hrank & s & Hs) (d' & f & Hd' & Hh1)].
    rewrite Hd in Hd'. injection Hd' as <-.
    exists (enhance_dict today f d). split; [exact Hh1|].
    rewrite !enhance_dict_other by discriminate. split; [exact Hrank|eauto]. }
  assert (Hs1 : Forall (fun c => exists d, h1 !! c = Some d /\
                  sign_consistent today d) raw).
  { eapply Forall_impl; [exact Hdict|]. intros c (d & f & _ & Hh1).
    exists (enhance_dict today f d). split; [exact Hh1|].
    apply enhance_dict_sign. }
  destruct (process_crypto_data_normalize h1 raw Hn1)
    as (out & h2 & Hrun2 & _ & Hframe2 & Hnd2 & Hv2).
  pose proof (process_crypto_data_run h1 raw Hn1) as Hrun2'.
  cbv zeta in Hrun2'. rewrite Hrun2 in Hrun2'. injection Hrun2' as Hout _.
  assert (Hperm : Permutation out (seq (List.length h1) (List.length raw)))
    by (rewrite Hout; apply isort_b_perm).
  assert (Hs2 : Forall (fun o => exists d, h2 !! o = Some d /\
                  sign_consistent today d) out).
  { apply Forall_forall. intros o Ho. apply list_elem_of_In in Ho.
    apply (normalizer_records_from h1 raw out h2 (sign_consistent today)
             (sign_consistent today) Hn1 Hs1 Hrun2); [|exact Ho].
    intros d0 s v. apply projected_sign. }
  pose proof (numeric_of_sign today h2 out Hs2) as Hnum2.
  set (gainers := slice_to 10 (gainers_sorted h2 out)).
  set (hg := set_ranks "gainer_rank" 1 gainers h2).
  assert (Hnumg : numeric_changes hg out)
    by now apply numeric_changes_set_ranks.
  set (losers := slice_to 10 (losers_sorted hg out)).
  set (hl := set_ranks "loser_rank" 1 losers hg).
  assert (Hnuml : numeric_changes hl out)
    by now apply numeric_changes_set_ranks.
  destruct (generate_market_summary_returns hl out Hnuml) as [summary Hsum].
  exists out, gainers, losers, summary, hl.
  split; [|split; [|split]].
  - assert (HrunE : add_enhanced_columns fos today raw h = (Ok raw, h1)).
    { unfold add_enhanced_columns. now rewrite (bind_ok _ _ _ _ _ Hrun1). }
    unfold pipeline.
    rewrite (bind_ok _ _ _ _ _ HrunE), (bind_ok _ _ _ _ _ Hrun2).
    rewrite (bind_ok _ _ _ _ _ (get_top_gainers_run h2 out 10 Hnum2)).
    fold gainers hg.
    rewrite (bind_ok _ _ _ _ _ (get_top_losers_run hg out 10 Hnumg)).
    fold losers hl.
    now rewrite (bind_ok _ _ _ _ _ Hsum).
  - rewrite (Permutation_length Hperm). apply length_seq.
  - intros o Ho. rewrite Forall_forall in Hs2.
    destruct (Hs2 o) as (d & Hd & f & Hpc & Hsym & Hdate);
      [now apply list_elem_of_In|].
    exists f, (if flt 0 f then "UP" else "DOWN").
    unfold hl, hg. rewrite !set_ranks_field_ne by discriminate.
    rewrite !(field_lookup h2 o _ d Hd).
    split; [exact Hpc|]. split; [exact Hsym|]. split; [|split; [|exact Hdate]].
    + intros Hpos. apply flt_above in Hpos. now rewrite Hpos.
    + intros Hnpos. destruct (flt 0 f) eqn:E; [|reflexivity].
      apply flt_above in E. contradiction.
  - intros c Hc. rewrite Forall_forall in Hs1.
    destruct (Hs1 c) as (d & Hd & f & _ & _ & Hdate);
      [now apply list_elem_of_In|].
    unfold hl, hg. rewrite !set_ranks_field_ne by discriminate.
    unfold field. rewrite (Hframe2 c (ex_intro _ d Hd)), Hd. exact Hdate.
Qed.

(** ** [process_crypto_data]: ranks that cannot be compared *)

Lemma insert_by_raise {A} (lt : A -> A -> result bool) x y l e :
  lt y x = Raise e -> insert_by lt x (y :: l) = Raise e.
Proof. intros H. simpl. now rewrite H. Qed.

Lemma insert_by_same {A} (lt : A -> A -> result bool) (W : A -> Prop)
    (cls : A -> bool) x l :
  (forall a b, W a -> W b -> cls a = cls b -> exists r, lt a b = Ok r) ->
  W x -> Forall (fun y => W y /\ cls y = cls x) l ->
  exists r, insert_by lt x l = Ok r /\ Permutation r (x :: l).
Proof.
  intros Hsame Hx. induction 1 as [|y l [Hy Hc] Hl IH]; simpl.
  - now exists [x].
  - destruct (Hsame y x Hy Hx Hc) as [b ->]. simpl. destruct b.
    + destruct IH as (r & -> & Hp). simpl. exists (y :: r). split; [reflexivity|].
      rewrite Hp. apply perm_swap.
    + now exists (x :: y :: l).
Qed.

Lemma isort_by_same {A} (lt : A -> A -> result bool) (W : A -> Prop)
    (cls : A -> bool) c l :
  (forall a b, W a -> W b -> cls a = cls b -> exists r, lt a b = Ok r) ->
  Forall (fun y => W y /\ cls y = c) l ->
  exists r, isort_by lt l = Ok r /\ Permutation r l.
Proof.
  intros Hsame. induction 1 as [|x l [Hx Hc] Hl IH]; simpl.
  - now exists [].
  - destruct IH as (r & -> & Hp). simpl.
    destruct (insert_by_same lt W cls x r Hsame Hx) as (r' & Hr' & Hp').
    + eapply Permutation_Forall; [symmetry; exact Hp|].
      eapply Forall_impl; [exact Hl|]. intros y [Hy Hcy]. split; congruence.
    + exists r'. split; [exact Hr'|]. rewrite Hp'. now apply perm_skip.
Qed.

(** A list with elements of both classes cannot be sorted. *)
Lemma isort_by_mixed {A} (lt : A -> A -> result bool) (W : A -> Prop)
    (cls : A -> bool) l a b :
  (forall a b, W a -> W b -> cls a = cls b -> exists r, lt a b = Ok r) ->
  (forall a b, W a -> W b -> cls a <> cls b -> lt a b = Raise TypeError) ->
  Forall W l -> In a l -> In b l -> cls a <> cls b ->
  isort_by lt l = Raise TypeError.
Proof.
  intros Hsame Hdiff Hw. revert a b.
  induction Hw as [|x l Hx Hl IH]; intros a b Ha Hb Hab; [easy|].
  simpl. destruct l as [|y l'].
  - destruct Ha as [<-|[]], Hb as [<-|[]]. congruence.
  - destruct (forallb (fun z => Bool.eqb (cls z) (cls y)) (y :: l')) eqn:E.
    + (* the tail has one class, which is not the class of [x] *)
      assert (Hall : forall z, In z (y :: l') -> cls z = cls y).
      { intros z Hz. rewrite forallb_forall in E.
        now apply Bool.eqb_prop, E. }
      assert (Hwc : Forall (fun z => W z /\ cls z = cls y) (y :: l')).
      { apply Forall_forall. intros z Hz. split.
        - rewrite Forall_forall in Hl. now apply Hl.
        - now apply Hall, list_elem_of_In. }
      destruct (isort_by_same lt W cls (cls y) (y :: l') Hsame Hwc)
        as (r & -> & Hp).
      simpl.
      assert (Hxy : cls y <> cls x).
      { intros Hyx. apply Hab.
        assert (Hc : forall z, In z (x :: y :: l') -> cls z = cls y).
        { intros z [<-|Hz]; [congruence|now apply Hall]. }
        now rewrite (Hc a Ha), (Hc b Hb). }
      destruct r as [|u r].
      * apply Permutation_nil_cons in Hp. contradiction.
      * assert (Hu : In u (y :: l'))
          by (apply (Permutation_in _ Hp); now left).
        apply insert_by_raise. apply Hdiff; [|exact Hx|].
        -- rewrite Forall_forall in Hl. now apply Hl, list_elem_of_In.
        -- now rewrite (Hall u Hu).
    + (* the tail has both classes *)
      assert (Hex : exists z, In z (y :: l') /\ cls z <> cls y).
      { destruct (existsb (fun z => negb (Bool.eqb (cls z) (cls y))) (y :: l'))
          eqn:E'.
        - apply existsb_exists in E' as (z & Hz & Hneq). exists z.
          split; [exact Hz|]. intros Heq. rewrite Heq, Bool.eqb_reflx in Hneq.
          discriminate.
        - exfalso. rewrite <- Bool.not_true_iff_false in E. apply E.
          apply forallb_forall. intros z Hz.
          destruct (Bool.eqb (cls z) (cls y)) eqn:Ez; [reflexivity|].
          rewrite <- Bool.not_true_iff_false in E'. destruct E'.
          apply existsb_exists. exists z. now rewrite Ez. }
      destruct Hex as (z & Hz & Hzy).
      now rewrite (IH z y Hz (or_introl eq_refl) Hzy).
Qed.

Lemma key_is_text_rank r : key_is_text (rank_sort_key r) = rank_is_text r.
Proof.
  unfold rank_sort_key. destruct r; simpl; try reflexivity;
    match goal with |- context [if ?b then _ else _] => destruct b end;
    reflexivity.
Qed.

Lemma lt_key_same_class a b :
  (exists r, (forall l, r <> VRef l) /\ a = rank_sort_key r) ->
  (exists r, (forall l, r <> VRef l) /\ b = rank_sort_key r) ->
  key_is_text a = key_is_text b -> exists res, lt_key a b = Ok res.
Proof.
  intros (ra & Ha & ->) (rb & Hb & ->). unfold rank_sort_key.
  destruct ra as [| | | | |la], rb as [| | | | |lb];
    try (now destruct (Ha la)); try (now destruct (Hb lb)); simpl;
    repeat match goal with
           | |- context [if ?c then _ else _] => destruct c; simpl
           end;
    intros Hc; try discriminate; eauto.
Qed.

Lemma lt_key_other_class a b :
  (exists r, (forall l, r <> VRef l) /\ a = rank_sort_key r) ->
  (exists r, (forall l, r <> VRef l) /\ b = rank_sort_key r) ->
  key_is_text a <> key_is_text b -> lt_key a b = Raise TypeError.
Proof.
  intros (ra & Ha & ->) (rb & Hb & ->). unfold rank_sort_key.
  destruct ra as [| | | | |la], rb as [| | | | |lb];
    try (now destruct (Ha la)); try (now destruct (Hb lb)); simpl;
    repeat match goal with
           | |- context [if ?c then _ else _] => destruct c; simpl
           end;
    intros Hc; try reflexivity; now destruct Hc.
Qed.

Lemma rank_key_scalar h x d r :
  h !! x = Some d -> d !! "rank" = Some r -> (forall l, r <> VRef l) ->
  rank_key x h = (Ok (rank_sort_key r), h).
Proof.
  intros Hd Hr Hnr. unfold rank_key.
  assert (Hf : field h x "rank" = Some r)
    by now rewrite (field_lookup h x _ d Hd).
  rewrite (bind_ok _ _ _ _ _ (getitem_field h x _ r Hf)).
  rewrite (bind_ok _ _ _ _ _ (truthy_truth h r Hnr)).
  unfold rank_sort_key. destruct (truth r); [|reflexivity].
  now rewrite (bind_ok _ _ _ _ _ (getitem_field h x _ r Hf)).
Qed.

Lemma projected_rank d s :
  default (VStr "") (d !! "symbol") = VStr s ->
  projected d !! "rank" = Some (default VNone (d !! "market_cap_rank")).
Proof. intros Hs. now rewrite (projected_record d s Hs). Qed.

(** X16.  Ranks of two kinds cannot be sorted.  When one record of the
    batch has a non-empty text as its rank and another a number, a null
    or an empty text (whose key is the number or the float sentinel),
    [processed.sort] raises [TypeError] at the first comparison across
    the two kinds: the Normalizer returns nothing, and no record that
    existed before the call is modified. *)
Theorem normalizer_mixed_rank_types h data ca cb :
  Forall (projectable h) data -> Forall (scalar_rank h) data ->
  In ca data -> In cb data ->
  rank_is_text (raw_rank h ca) = true ->
  rank_is_text (raw_rank h cb) = false ->
  exists h',
    process_crypto_data data h = (Raise TypeError, h') /\
    forall c, is_Some (h !! c) -> h' !! c = h !! c.
Proof.
  intros Hp Hs Ha Hb Hta Htb.
  set (h1 := h ++ map projected (contents h data)).
  set (locs := seq (List.length h) (List.length data)).
  set (kf := fun x : loc =>
         rank_sort_key (default VNone (default ∅ (h1 !! x) !! "rank"))).
  exists h1. split;
    [|intros c [d Hc]; rewrite Hc; now apply lookup_app_l_Some].
  assert (Hlen : List.length (map projected (contents h data))
                 = List.length data)
    by (unfold contents; now rewrite !length_map).
  assert (HP : Forall (fun d => exists r, d !! "rank" = Some r /\
                 forall l, r <> VRef l) (map projected (contents h data))).
  { unfold contents. rewrite map_map. apply Forall_map.
    pose proof (conj Hp Hs) as Hboth. rewrite <- Forall_and in Hboth.
    eapply Forall_impl; [exact Hboth|].
    intros c [(d & s & Hd & Hsym) (d' & Hd' & Hnr)]. simpl.
    rewrite Hd in Hd' |- *. injection Hd' as <-. simpl.
    exists (default VNone (d !! "market_cap_rank")).
    split; [now apply (projected_rank d s)|exact Hnr]. }
  pose proof (fresh_Forall _ h _ HP) as Hfresh. rewrite Hlen in Hfresh.
  fold h1 locs in Hfresh.
  assert (Hkeys : Forall (fun x => rank_key x h1 = (Ok (kf x), h1)) locs).
  { eapply Forall_impl; [exact Hfresh|]. intros x (d & Hx & r & Hr & Hnr).
    unfold kf. rewrite Hx. simpl. rewrite Hr. simpl.
    now apply (rank_key_scalar h1 x d r). }
  assert (HW : Forall (fun x => exists r, (forall l, r <> VRef l) /\
                 kf x = rank_sort_key r) locs).
  { eapply Forall_impl; [exact Hfresh|]. intros x (d & Hx & r & Hr & Hnr).
    exists r. split; [exact Hnr|]. unfold kf. rewrite Hx. simpl.
    now rewrite Hr. }
  assert (Hkey : forall c, In c data ->
            exists x, In x locs /\ kf x = rank_sort_key (raw_rank h c)).
  { intros c Hc.
    assert (Hmap : map kf locs
              = map (fun d => rank_sort_key (default VNone (d !! "rank")))
                  (map projected (contents h data))).
    { rewrite <- (contents_fresh h (map projected (contents h data))).
      rewrite Hlen. fold h1 locs. unfold contents. now rewrite map_map. }
    assert (Hin : In (rank_sort_key (raw_rank h c)) (map kf locs)).
    { rewrite Hmap. unfold contents. rewrite !map_map. apply in_map_iff.
      exists c. split; [|exact Hc].
      rewrite Forall_forall in Hp.
      destruct (Hp c) as (d & s & Hd & Hsym); [now apply list_elem_of_In|].
      rewrite Hd. simpl. rewrite (projected_rank d s Hsym). simpl.
      unfold raw_rank. now rewrite (field_lookup h c _ d Hd). }
    apply in_map_iff in Hin as (x & Hx & Hin). now exists x. }
  destruct (Hkey ca Ha) as (xa & Hxa & Hka).
  destruct (Hkey cb Hb) as (xb & Hxb & Hkb).
  unfold process_crypto_data.
  rewrite (bind_ok _ _ _ _ _ (mapM_projectable h data Hp)). fold h1 locs.
  apply bind_raise. unfold py_sorted.
  rewrite (bind_ok _ _ _ _ _ (mapM_pure rank_key kf locs h1 Hkeys)).
  rewrite combine_map_self. apply bind_raise. unfold lift. f_equal.
  apply (isort_by_mixed _
           (fun p : sort_key * loc =>
              exists r, (forall l, r <> VRef l) /\ fst p = rank_sort_key r)
           (fun p => key_is_text (fst p)) _ (kf xa, xa) (kf xb, xb)).
  - intros a b. apply lt_key_same_class.
  - intros a b. apply lt_key_other_class.
  - apply Forall_map. exact HW.
  - apply in_map_iff. now exists xa.
  - apply in_map_iff. now exists xb.
  - simpl. rewrite Hka, Hkb, !key_is_text_rank. congruence.
Qed.

(** ** Changes that are NaN *)

Lemma sign_partition_nan h c :
  is_Some (change_of h c) ->
  let b := fun x : bool => if x then 1%nat else 0%nat in
  (b (Qltb 0 (chg h c)) + b (Qltb (chg h c) 0)
   + b (py_eq_int (change_val h c) 0) + b (nan_change h c) = 1)%nat.
Proof.
  intros [f Hf]. unfold chg, rat, py_eq_int, nan_change.
  unfold change_of in *. rewrite Hf. destruct f as [q|]; [|reflexivity].
  simpl. destruct (Qltb 0 q) eqn:Hp, (Qltb q 0) eqn:Hn,
                  (Qeq_bool q (inject_Z 0)) eqn:Hz; simpl; try lia; exfalso;
    repeat match goal with
      | H : Qltb _ _ = true |- _ => apply Qltb_lt in H
      | H : Qltb _ _ = false |- _ => apply Qltb_ge in H
      | H : Qeq_bool _ _ = true |- _ => apply Qeq_bool_eq in H
      | H : Qeq_bool _ _ = false |- _ => apply Qeq_bool_neq in H
      end; unfold inject_Z in *; lra.
Qed.

Lemma four_way_partition h l :
  numeric_changes h l ->
  (List.length (List.filter (fun c => Qltb 0 (chg h c)) l)
   + List.length (List.filter (fun c => Qltb (chg h c) 0) l)
   + List.length (List.filter (fun c => py_eq_int (change_val h c) 0) l)
   + List.length (List.filter (nan_change h) l)
   = List.length l)%nat.
Proof.
  induction 1 as [|c l Hc Hl IH]; simpl; [reflexivity|].
  pose proof (sign_partition_nan h c Hc) as Hone. cbv zeta in Hone.
  destruct (Qltb 0 (chg h c)), (Qltb (chg h c) 0),
           (py_eq_int (change_val h c) 0), (nan_change h c);
    simpl in *; lia.
Qed.

(** X17.  With NaN among the changes the counts of the summary leave a
    gap: a NaN change is counted as a gainer, a loser or a neutral record
    by none of the three comprehensions, so the three counts add up to
    [total_coins] less the number of records whose change is NaN. *)
Theorem summary_counts_nan_gap h data :
  numeric_changes h data -> data <> [] ->
  exists summary (total g l n : nat),
    generate_market_summary data h = (Ok summary, h) /\
    summary !! "total_coins" = Some (VInt (Z.of_nat total)) /\
    summary !! "gainers_count" = Some (VInt (Z.of_nat g)) /\
    summary !! "losers_count" = Some (VInt (Z.of_nat l)) /\
    summary !! "neutral_count" = Some (VInt (Z.of_nat n)) /\
    total = List.length data /\
    (g + l + n + List.length (List.filter (nan_change h) data) = total)%nat.
Proof.
  intros Hd Hne. destruct data as [|c data']; [congruence|].
  eexists _, _, _, _, _.
  split; [now apply generate_market_summary_num_run|].
  split; [reflexivity|]. split; [reflexivity|]. split; [reflexivity|].
  split; [reflexivity|]. split; [reflexivity|].
  now apply four_way_partition.
Qed.

Lemma nan_change_chg h c : nan_change h c = true -> (chg h c == 0)%Q.
Proof.
  unfold nan_change, chg, rat, change_of.
  destruct (num (change_val h c)) as [[q|]|]; try discriminate. reflexivity.
Qed.

(** X18.  A record whose change is NaN is ranked by neither function:
    it is not in the list [get_top_gainers] returns nor in the list
    [get_top_losers] returns, whatever the limits, and it is left as it
    was. *)
Theorem ranker_skips_nan h data lg ll c :
  numeric_changes h data -> nan_change h c = true ->
  exists gainers losers summary h',
    rank_and_summarize data lg ll h = (Ok (gainers, losers, summary), h') /\
    ~ In c gainers /\ ~ In c losers /\ h' !! c = h !! c.
Proof.
  intros Hd Hnan.
  destruct (rank_and_summarize_lists h data lg ll Hd) as [summary Hrun].
  cbv zeta in Hrun.
  set (gainers := slice_to lg (gainers_sorted h data)) in *.
  set (losers := slice_to ll (losers_sorted h data)) in *.
  pose proof (nan_change_chg h c Hnan) as Hz.
  assert (Hg : ~ In c gainers).
  { intros Hin. apply gainers_positive in Hin as [_ Hin]. lra. }
  assert (Hl : ~ In c losers).
  { intros Hin. apply losers_negative in Hin as [_ Hin]. lra. }
  exists gainers, losers, summary,
    (set_ranks "loser_rank" 1 losers (set_ranks "gainer_rank" 1 gainers h)).
  split; [exact Hrun|]. split; [exact Hg|]. split; [exact Hl|].
  now rewrite !set_ranks_notin.
Qed.

(** ** [float()] of an integer *)

Lemma float_of_int_small n :
  Z.abs n < 2 ^ 53 -> float_of_int n = Ok (inject_Z n).
Proof.
  intros H. unfold float_of_int.
  assert (Hk : Z.log2 (Z.abs n) + 1 - 53 <= 0).
  { destruct (Z.eq_dec (Z.abs n) 0) as [->|Hne]; [simpl; lia|].
    assert (Z.log2 (Z.abs n) < 53); [|lia].
    apply Z.log2_lt_pow2; lia. }
  apply Z.leb_le in Hk. now rewrite Hk.
Qed.

Lemma float_of_int_overflow n :
  2 ^ 1024 <= Z.abs n -> float_of_int n = Raise OverflowError.
Proof.
  intros H. unfold float_of_int.
  set (a := Z.abs n) in *.
  set (L := Z.log2 a).
  assert (Ha : 0 < a).
  { apply Z.lt_le_trans with (2 ^ 1024); [|exact H].
    apply Z.pow_pos_nonneg; lia. }
  assert (HL : 1024 <= L).
  { unfold L. rewrite <- (Z.log2_pow2 1024) by lia. now apply Z.log2_le_mono. }
  set (k := L + 1 - 53).
  assert (Hk : 0 < k) by (unfold k; lia).
  destruct (Z.leb_spec k 0) as [Hle|_]; [lia|].
  set (q := Z.shiftr a k).
  set (up := (_ || _)%bool). clearbody up.
  assert (Hq : 2 ^ 52 <= q).
  { unfold q. rewrite Z.shiftr_div_pow2 by lia.
    assert (Hpow : 2 ^ L = 2 ^ 52 * 2 ^ k).
    { rewrite <- Z.pow_add_r by lia. f_equal. unfold k. lia. }
    assert (Hspec : 2 ^ L <= a) by (apply Z.log2_spec; exact Ha).
    apply Z.div_le_lower_bound; [apply Z.pow_pos_nonneg; lia|].
    rewrite Z.mul_comm, <- Hpow. exact Hspec. }
  assert (Hm : Z.shiftl 1 1024 <= Z.shiftl (if up then q + 1 else q) k).
  { rewrite !Z.shiftl_mul_pow2 by lia. rewrite Z.mul_1_l.
    apply Z.le_trans with (2 ^ L); [apply Z.pow_le_mono_r; lia|].
    replace (2 ^ L) with (2 ^ 52 * 2 ^ k)
      by (rewrite <- Z.pow_add_r by lia; f_equal; unfold k; lia).
    apply Z.mul_le_mono_nonneg; try (apply Z.pow_nonneg; lia).
    - destruct up; lia.
    - lia. }
  apply Z.leb_le in Hm. now rewrite Hm.
Qed.

(** The loop stops at the first record on which [float()] raises, with
    what it has written so far. *)
Lemma enhancer_first_raise fos today pre c post h e :
  Forall (enhanceable fos h) pre ->
  is_Some (h !! c) -> ~ In c pre ->
  (forall l, percentage h c <> VRef l) ->
  enhance_change fos (percentage h c) = Raise e ->
  exists h',
    add_enhanced_columns fos today (pre ++ c :: post) h = (Raise e, h') /\
    (forall c', In c' pre ->
       exists f, field h' c' "price_change_24h" = Some (VFloat f) /\
                 field h' c' "date" = Some (VStr today)) /\
    field h' c "date" = Some (VStr today) /\
    field h' c "price_change_24h" = field h c "price_change_24h" /\
    (forall c', ~ In c' pre -> c' <> c -> h' !! c' = h !! c').
Proof.
  intros Hpre Hv Hnotin Hnr Hraise.
  destruct (enhance_forM fos today pre h Hpre)
    as (h1 & Hrun & Hpct & Hsome & Hframe & Hin).
  assert (Hv1 : is_Some (h1 !! c)) by now apply Hsome.
  exists (alter (insert "date" (VStr today)) c h1).
  split; [|split; [|split; [|split]]].
  - unfold add_enhanced_columns. apply bind_raise.
    rewrite forM_app, (bind_ok _ _ _ _ _ Hrun). simpl forM_.
    apply bind_raise. apply enhance_body_raise; [exact Hv1| |].
    + intros l. rewrite Hpct. apply Hnr.
    + now rewrite Hpct.
  - intros c' Hc'. destruct (Hin c' Hc') as (f & _ & Hpc & _ & Hdate).
    exists f. assert (c <> c') by (intros ->; contradiction).
    now rewrite !field_alter_ne.
  - now apply field_set_eq.
  - rewrite field_set_ne by discriminate.
    unfold field. now rewrite (Hframe c Hnotin).
  - intros c' Hc' Hcc. rewrite list_lookup_alter_ne by congruence.
    now apply Hframe.
Qed.

(** X19.  An integer percentage of magnitude [2^1024] or more has no
    float: when the first record of the batch that cannot be enhanced
    holds one, [float()] raises [OverflowError] and the Enhancer with it.
    The records before it are enhanced, the offending one has its date
    and no derived change, every other record is as it was. *)
Theorem enhancer_int_overflow fos today pre c post h n :
  Forall (enhanceable fos h) pre ->
  field h c "price_change_percentage_24h" = Some (VInt n) ->
  2 ^ 1024 <= Z.abs n ->
  exists h',
    add_enhanced_columns fos today (pre ++ c :: post) h
      = (Raise OverflowError, h') /\
    (forall c', In c' pre ->
       exists f, field h' c' "price_change_24h" = Some (VFloat f) /\
                 field h' c' "date" = Some (VStr today)) /\
    field h' c "date" = Some (VStr today) /\
    field h' c "price_change_24h" = field h c "price_change_24h" /\
    (forall c', ~ In c' pre -> c' <> c -> h' !! c' = h !! c').
Proof.
  intros Hpre Hn Hbig.
  assert (Hp : percentage h c = VInt n) by (unfold percentage; now rewrite Hn).
  assert (Hne : n <> 0).
  { intros ->. simpl in Hbig.
    assert (0 < 2 ^ 1024) by (apply Z.pow_pos_nonneg; lia). lia. }
  assert (Hraise : enhance_change fos (VInt n) = Raise OverflowError).
  { unfold enhance_change. simpl truth.
    destruct (Z.eqb_spec n 0) as [|_]; [contradiction|]. simpl.
    now rewrite (float_of_int_overflow n Hbig). }
  apply enhancer_first_raise.
  - exact Hpre.
  - unfold field in Hn. destruct (h !! c); [eauto|discriminate].
  - intros Hin. unfold enhanceable in Hpre. rewrite Forall_forall in Hpre.
    destruct (Hpre c) as (_ & _ & f & Hf); [now apply list_elem_of_In|].
    rewrite Hp in Hf. congruence.
  - rewrite Hp. discriminate.
  - now rewrite Hp.
Qed.

(** * The further properties at concrete inputs *)

Lemma scenario_enhanceable :
  Forall (enhanceable float_literal scenario_heap) scenario_data.
Proof.
  repeat constructor;
    try (eexists; reflexivity);
    try (intros l; vm_compute; discriminate).
Defined.

Lemma falsy_enhanceable :
  Forall (enhanceable float_literal falsy_heap) [0; 1]%nat.
Proof.
  repeat constructor;
    try (eexists; reflexivity);
    try (intros l; vm_compute; discriminate).
Defined.

Lemma broken_change_numeric : numeric_changes broken_change_heap [0%nat].
Proof.
  repeat constructor; (eexists; vm_compute; reflexivity).
Defined.

Lemma enhancer_writes_three_fields_witness :
  exists h',
    add_enhanced_columns float_literal "04-11-2026" scenario_data scenario_heap
      = (Ok scenario_data, h') /\
    List.length h' = List.length scenario_heap /\
    (forall c, In c scenario_data ->
               field h' c "date" = Some (VStr "04-11-2026")) /\
    (forall c k, k <> "date" -> k <> "price_change_24h" ->
                 k <> "change_symbol" ->
                 field h' c k = field scenario_heap c k) /\
    (forall c, ~ In c scenario_data -> h' !! c = scenario_heap !! c).
Proof.
  apply (enhancer_writes_three_fields float_literal "04-11-2026"
           scenario_data scenario_heap).
  exact scenario_enhanceable.
Defined.

Lemma enhancer_falsy_defaults_witness :
  exists h',
    add_enhanced_columns float_literal "04-11-2026" [0; 1]%nat falsy_heap
      = (Ok [0; 1]%nat, h') /\
    forall c, In c [0; 1]%nat -> truth (percentage falsy_heap c) = false ->
      field h' c "price_change_24h" = Some (VFloat 0) /\
      field h' c "change_symbol" = Some (VStr "DOWN").
Proof.
  apply (enhancer_falsy_defaults float_literal "04-11-2026" [0; 1]%nat
           falsy_heap).
  exact falsy_enhanceable.
Defined.

Lemma enhancer_idempotent_witness :
  exists h',
    add_enhanced_columns float_literal "04-11-2026" scenario_data scenario_heap
      = (Ok scenario_data, h') /\
    add_enhanced_columns float_literal "04-11-2026" scenario_data h'
      = (Ok scenario_data, h').
Proof.
  apply (enhancer_idempotent float_literal "04-11-2026" scenario_data
           scenario_heap).
  exact scenario_enhanceable.
Defined.

Lemma normalizer_record_shape_witness :
  exists out h',
    process_crypto_data scenario_data scenario_heap = (Ok out, h') /\
    forall o, In o out ->
      exists d, h' !! o = Some d /\
        forall k, is_Some (d !! k) <-> In k normalized_keys.
Proof.
  apply (normalizer_record_shape scenario_heap scenario_data).
  exact scenario_normalizable.
Defined.

Lemma normalizer_fresh_records_witness :
  exists out h',
    process_crypto_data scenario_data scenario_heap = (Ok out, h') /\
    List.length out = List.length scenario_data /\
    NoDup out /\
    (forall o, In o out -> scenario_heap !! o = None /\ is_Some (h' !! o)) /\
    (forall c, is_Some (scenario_heap !! c) -> h' !! c = scenario_heap !! c) /\
    (scenario_data = [] -> out = [] /\ h' = scenario_heap).
Proof.
  apply (normalizer_fresh_records scenario_heap scenario_data).
  exact scenario_normalizable.
Defined.

Lemma normalizer_symbol_not_string_witness :
  exists h',
    process_crypto_data ([0%nat] ++ 1%nat :: []) null_symbol_heap
      = (Raise AttributeError, h') /\
    forall c', is_Some (null_symbol_heap !! c') ->
               h' !! c' = null_symbol_heap !! c'.
Proof.
  apply (normalizer_symbol_not_string null_symbol_heap [0%nat] 1%nat []
           (<["id" := VStr "anon"]> (<["symbol" := VNone]> ∅)) VNone).
  - constructor; [|constructor]. exists raw_btc, "". split; reflexivity.
  - reflexivity.
  - reflexivity.
  - discriminate.
Defined.

Lemma analyzer_missing_change_witness :
  get_top_gainers ([0%nat] ++ 1%nat :: [2%nat]) 10 broken_change_heap
    = (Raise (KeyError "price_change_24h"), broken_change_heap) /\
  get_top_losers ([0%nat] ++ 1%nat :: [2%nat]) 10 broken_change_heap
    = (Raise (KeyError "price_change_24h"), broken_change_heap) /\
  generate_market_summary ([0%nat] ++ 1%nat :: [2%nat]) broken_change_heap
    = (Raise (KeyError "price_change_24h"), broken_change_heap).
Proof.
  apply (analyzer_missing_change broken_change_heap [0%nat] 1%nat [2%nat]
           (<["id" := VStr "eth"]> ∅) 10).
  - exact broken_change_numeric.
  - reflexivity.
  - reflexivity.
Defined.

Lemma analyzer_change_not_number_witness :
  get_top_gainers ([0%nat] ++ 2%nat :: []) 10 broken_change_heap
    = (Raise TypeError, broken_change_heap) /\
  get_top_losers ([0%nat] ++ 2%nat :: []) 10 broken_change_heap
    = (Raise TypeError, broken_change_heap) /\
  generate_market_summary ([0%nat] ++ 2%nat :: []) broken_change_heap
    = (Raise TypeError, broken_change_heap).
Proof.
  apply (analyzer_change_not_number broken_change_heap [0%nat] 2%nat [] VNone 10).
  - exact broken_change_numeric.
  - reflexivity.
  - reflexivity.
Defined.

Lemma ranker_limit_not_positive_witness :
  get_top_gainers normalized_data 0 normalized_heap = (Ok [], normalized_heap) /\
  get_top_losers normalized_data 0 normalized_heap = (Ok [], normalized_heap) /\
  exists all_gainers hg all_losers hl,
    get_top_gainers normalized_data (Z.of_nat (List.length normalized_data))
      normalized_heap = (Ok all_gainers, hg) /\
    get_top_losers normalized_data (Z.of_nat (List.length normalized_data))
      normalized_heap = (Ok all_losers, hl) /\
    forall limit, limit < 0 ->
      (exists h',
         get_top_gainers normalized_data limit normalized_heap
         = (Ok (firstn (List.length all_gainers - Z.to_nat (- limit))
                  all_gainers), h')) /\
      (exists h',
         get_top_losers normalized_data limit normalized_heap
         = (Ok (firstn (List.length all_losers - Z.to_nat (- limit))
                  all_losers), h')).
Proof.
  apply (ranker_limit_not_positive normalized_heap normalized_data).
  exact normalized_numeric.
Defined.

Lemma ranker_limit_prefix_witness :
  (exists top2 h2 h1,
     get_top_gainers normalized_data 2 normalized_heap = (Ok top2, h2) /\
     get_top_gainers normalized_data 1 normalized_heap
       = (Ok (firstn (Z.to_nat 1) top2), h1) /\
     forall c, In c (firstn (Z.to_nat 1) top2) -> h1 !! c = h2 !! c) /\
  (exists top2 h2 h1,
     get_top_losers normalized_data 2 normalized_heap = (Ok top2, h2) /\
     get_top_losers normalized_data 1 normalized_heap
       = (Ok (firstn (Z.to_nat 1) top2), h1) /\
     forall c, In c (firstn (Z.to_nat 1) top2) -> h1 !! c = h2 !! c).
Proof.
  apply (ranker_limit_prefix normalized_heap normalized_data 1 2).
  - exact normalized_numeric.
  - exact normalized_NoDup.
  - lia.
Defined.

Lemma ranker_idempotent_witness :
  (exists top h',
     get_top_gainers normalized_data 10 normalized_heap = (Ok top, h') /\
     get_top_gainers normalized_data 10 h' = (Ok top, h')) /\
  (exists top h',
     get_top_losers normalized_data 10 normalized_heap = (Ok top, h') /\
     get_top_losers normalized_data 10 h' = (Ok top, h')).
Proof.
  apply (ranker_idempotent normalized_heap normalized_data 10).
  - exact normalized_numeric.
  - exact normalized_NoDup.
Defined.

Lemma ranker_subsets_disjoint_witness :
  exists gainers losers summary h',
    rank_and_summarize normalized_data 10 10 normalized_heap
      = (Ok (gainers, losers, summary), h') /\
    (forall c, In c gainers -> ~ In c losers) /\
    (forall c, field normalized_heap c "gainer_rank" = None ->
               field normalized_heap c "loser_rank" = None ->
               field h' c "gainer_rank" = None \/
               field h' c "loser_rank" = None).
Proof.
  apply (ranker_subsets_disjoint normalized_heap normalized_data 10 10).
  exact normalized_numeric.
Defined.

Lemma summary_percentages_witness :
  exists summary g l (gp lp : Q),
    generate_market_summary normalized_data normalized_heap
      = (Ok summary, normalized_heap) /\
    summary !! "gainers_count" = Some (VInt g) /\
    summary !! "losers_count" = Some (VInt l) /\
    summary !! "gainers_percentage" = Some (VFloat gp) /\
    summary !! "losers_percentage" = Some (VFloat lp) /\
    (0 <= gp <= 100)%Q /\ (0 <= lp <= 100)%Q /\
    ((gp == 0)%Q <-> g = 0) /\ ((lp == 0)%Q <-> l = 0).
Proof.
  apply (summary_percentages normalized_heap normalized_data).
  - exact normalized_numeric.
  - discriminate.
Defined.

Lemma summary_top_heads_ranking_witness :
  exists summary g l gainers hg losers hl,
    generate_market_summary normalized_data normalized_heap
      = (Ok summary, normalized_heap) /\
    summary !! "top_gainer" = Some (VRef g) /\
    summary !! "top_loser" = Some (VRef l) /\
    get_top_gainers normalized_data 10 normalized_heap = (Ok gainers, hg) /\
    get_top_losers normalized_data 10 normalized_heap = (Ok losers, hl) /\
    ((0 < chg normalized_heap g)%Q -> head gainers = Some g) /\
    (~ (0 < chg normalized_heap g)%Q -> gainers = []) /\
    ((chg normalized_heap l < 0)%Q -> head losers = Some l) /\
    (~ (chg normalized_heap l < 0)%Q -> losers = []).
Proof.
  apply (summary_top_heads_ranking normalized_heap normalized_data 10).
  - exact normalized_ordered.
  - discriminate.
  - lia.
Defined.

Lemma pipeline_returns_witness :
  exists processed top_gainers top_losers summary h',
    pipeline float_literal "04-11-2026" scenario_data scenario_heap
      = (Ok (processed, top_gainers, top_losers, summary), h') /\
    List.length processed = List.length scenario_data /\
    (forall o, In o processed ->
       exists f s,
         field h' o "price_change_24h" = Some (VFloat f) /\
         field h' o "change_symbol" = Some (VStr s) /\
         (above_zero f -> s = "UP") /\ (~ above_zero f -> s = "DOWN") /\
         field h' o "date" = Some (VStr "04-11-2026")) /\
    (forall c, In c scenario_data ->
               field h' c "date" = Some (VStr "04-11-2026")).
Proof.
  apply (pipeline_returns float_literal "04-11-2026" scenario_data
           scenario_heap).
  - exact scenario_enhanceable.
  - exact scenario_normalizable.
Defined.

Lemma normalizer_mixed_rank_types_witness :
  exists h',
    process_crypto_data [0; 1]%nat mixed_rank_heap = (Raise TypeError, h') /\
    forall c, is_Some (mixed_rank_heap !! c) -> h' !! c = mixed_rank_heap !! c.
Proof.
  apply (normalizer_mixed_rank_types mixed_rank_heap [0; 1]%nat 1%nat 0%nat).
  - repeat constructor; (do 2 eexists; split; reflexivity).
  - repeat constructor;
      (eexists; split; [reflexivity|intros l; vm_compute; discriminate]).
  - right. left. reflexivity.
  - left. reflexivity.
  - reflexivity.
  - reflexivity.
Defined.

Lemma nan_numeric : numeric_changes nan_normalized_heap [2; 3]%nat.
Proof.
  repeat constructor; (eexists; vm_compute; reflexivity).
Defined.

Lemma summary_counts_nan_gap_witness :
  exists summary (total g l n : nat),
    generate_market_summary [2; 3]%nat nan_normalized_heap
      = (Ok summary, nan_normalized_heap) /\
    summary !! "total_coins" = Some (VInt (Z.of_nat total)) /\
    summary !! "gainers_count" = Some (VInt (Z.of_nat g)) /\
    summary !! "losers_count" = Some (VInt (Z.of_nat l)) /\
    summary !! "neutral_count" = Some (VInt (Z.of_nat n)) /\
    total = List.length [2; 3]%nat /\
    (g + l + n
     + List.length (List.filter (nan_change nan_normalized_heap) [2; 3]%nat)
     = total)%nat.
Proof.
  apply (summary_counts_nan_gap nan_normalized_heap [2; 3]%nat).
  - exact nan_numeric.
  - discriminate.
Defined.

Lemma ranker_skips_nan_witness :
  exists gainers losers summary h',
    rank_and_summarize [2; 3]%nat 10 10 nan_normalized_heap
      = (Ok (gainers, losers, summary), h') /\
    ~ In 2%nat gainers /\ ~ In 2%nat losers /\
    h' !! 2%nat = nan_normalized_heap !! 2%nat.
Proof.
  apply (ranker_skips_nan nan_normalized_heap [2; 3]%nat 10 10 2%nat).
  - exact nan_numeric.
  - vm_compute. reflexivity.
Defined.

Lemma enhancer_int_overflow_witness :
  exists h',
    add_enhanced_columns float_literal "04-11-2026" ([0%nat] ++ 1%nat :: [])
      huge_heap
      = (Raise OverflowError, h') /\
    (forall c', In c' [0%nat] ->
       exists f, field h' c' "price_change_24h" = Some (VFloat f) /\
                 field h' c' "date" = Some (VStr "04-11-2026")) /\
    field h' 1%nat "date" = Some (VStr "04-11-2026") /\
    field h' 1%nat "price_change_24h" = field huge_heap 1%nat "price_change_24h" /\
    (forall c', ~ In c' [0%nat] -> c' <> 1%nat -> h' !! c' = huge_heap !! c').
Proof.
  apply (enhancer_int_overflow float_literal "04-11-2026" [0%nat] 1%nat []
           huge_heap (2 ^ 1024)).
  - constructor; [|constructor].
    split; [eexists; reflexivity|]. split; [|eexists; reflexivity].
    intros l. vm_compute. discriminate.
  - reflexivity.
  - apply Z.leb_le. vm_compute. reflexivity.
Defined.
